(** * stewi.validate: reconciliation of an inventory against reference totals

    A shallow embedding of [stewi/validate.py].  The three functions of the
    module are embedded:

    - [validate_inventory]: normalises the [FlowAmount] column of both data
      frames in place, aggregates both by the key columns selected by
      [group_by], joins the two aggregations (full outer join) and classifies
      every joined row;
    - [write_validation_result]: writes the result and, when the provenance
      table has exactly one matching record, its metadata;
    - [update_validationsets_sources]: the upsert into the provenance table.

    pandas is not part of the sources.  Its operations are embedded as
    pandas 1.x performs them, the version in which the repository's calls
    ([DataFrame.append] in [validate.py], [drop] with a positional axis in
    [NEI.py]) exist: [groupby]
    sorts the groups and sums each with a compensated sum, and an outer
    [merge] keeps the keys of the left frame first.

    Python's [float] is IEEE 754 binary64.  The code is embedded once, over a
    small interface of the float operations it uses ([Number]), and the
    interface has two instances: [binary64], Rocq's primitive floats, which
    compute exactly what CPython computes, and [exact], the rationals extended
    with the two infinities and a not-a-number, which is arithmetic without
    rounding.  Statements that only depend on the control flow are proved for
    every instance; statements that depend on the laws of arithmetic say which
    instance they are about. *)

From Stdlib Require Import Floats Uint63 ZArith QArith Qcanon Qcabs.
From Stdlib Require Import String Ascii List Bool Arith Lia.
From Stdlib Require Import OrderedTypeEx Sorted DecimalString.
Import ListNotations.

Set Implicit Arguments.
Local Open Scope string_scope.
Local Open Scope list_scope.

(** ** The numbers of the program *)

(** The operations [validate.py] applies to a [float]: the literals [0.0] and
    [100.0], [np.inf] and [np.nan], the arithmetic of line 95, the three
    comparisons of lines 65-103 ([x > y] is [ltb y x]) and pandas' test for a
    missing value. *)
Class Number (F : Type) : Type := {
  zero : F;
  hundred : F;
  inf : F;
  nan : F;
  add : F -> F -> F;
  sub : F -> F -> F;
  mul : F -> F -> F;
  div : F -> F -> F;
  fabs : F -> F;
  eqb : F -> F -> bool;
  leb : F -> F -> bool;
  ltb : F -> F -> bool;
  isna : F -> bool
}.

(** What the proofs below use of the comparisons and of the special values.
    Nothing here is about rounding: both instances satisfy it. *)
Class NumberLaws {F : Type} (N : Number F) : Prop := {
  isna_nan : isna nan = true;
  isna_zero : isna zero = false;
  eqb_inf_nonzero : forall y, eqb y inf = true -> eqb y zero = false;
  ltb_not_leb : forall t p, ltb t p = true -> leb p t = false;
  leb_ltb_nonzero :
    forall t p, leb zero t = true -> ltb t p = true -> eqb p zero = false;
  ltb_zero_nonzero : forall p, ltb zero p = true -> eqb p zero = false
}.

(** *** IEEE 754 binary64 *)

#[export] Instance binary64 : Number float := {|
  zero := 0%float;
  hundred := 100%float;
  inf := infinity;
  nan := PrimFloat.nan;
  add := PrimFloat.add;
  sub := PrimFloat.sub;
  mul := PrimFloat.mul;
  div := PrimFloat.div;
  fabs := PrimFloat.abs;
  eqb := PrimFloat.eqb;
  leb := PrimFloat.leb;
  ltb := PrimFloat.ltb;
  isna := PrimFloat.is_nan
|}.

(** *** Exact arithmetic: rationals with infinities and not-a-number *)

Inductive xreal : Type :=
| Fin (q : Qc)
| PInf
| NInf
| NaN.

Module Exact.

Local Open Scope Qc_scope.

Definition is_zero (q : Qc) : bool := Qc_eq_bool q 0.
Definition is_pos (q : Qc) : bool :=
  match q ?= 0 with Gt => true | _ => false end.

(** The infinity with the sign of [q], not-a-number for [q = 0]. *)
Definition signed_inf (q : Qc) : xreal :=
  if is_zero q then NaN else if is_pos q then PInf else NInf.

Definition neg (x : xreal) : xreal :=
  match x with
  | Fin q => Fin (- q)
  | PInf => NInf
  | NInf => PInf
  | NaN => NaN
  end.

Definition add (x y : xreal) : xreal :=
  match x, y with
  | NaN, _ | _, NaN => NaN
  | Fin a, Fin b => Fin (a + b)
  | PInf, NInf | NInf, PInf => NaN
  | PInf, _ | _, PInf => PInf
  | NInf, _ | _, NInf => NInf
  end.

Definition sub (x y : xreal) : xreal := add x (neg y).

Definition mul (x y : xreal) : xreal :=
  match x, y with
  | NaN, _ | _, NaN => NaN
  | Fin a, Fin b => Fin (a * b)
  | Fin a, PInf | PInf, Fin a => signed_inf a
  | Fin a, NInf | NInf, Fin a => signed_inf (- a)
  | PInf, PInf | NInf, NInf => PInf
  | PInf, NInf | NInf, PInf => NInf
  end.

Definition div (x y : xreal) : xreal :=
  match x, y with
  | NaN, _ | _, NaN => NaN
  | Fin a, Fin b => if is_zero b then signed_inf a else Fin (a / b)
  | Fin _, _ => Fin 0
  | PInf, Fin b => if is_zero b || is_pos b then PInf else NInf
  | NInf, Fin b => if is_zero b || is_pos b then NInf else PInf
  | _, _ => NaN
  end.

Definition abs (x : xreal) : xreal :=
  match x with
  | Fin q => Fin (Qcabs q)
  | PInf | NInf => PInf
  | NaN => NaN
  end.

Definition compare (x y : xreal) : option comparison :=
  match x, y with
  | NaN, _ | _, NaN => None
  | Fin a, Fin b => Some (a ?= b)
  | PInf, PInf | NInf, NInf => Some Eq
  | PInf, _ | _, NInf => Some Gt
  | NInf, _ | _, PInf => Some Lt
  end.

Definition eqb (x y : xreal) : bool :=
  match compare x y with Some Eq => true | _ => false end.
Definition ltb (x y : xreal) : bool :=
  match compare x y with Some Lt => true | _ => false end.
Definition leb (x y : xreal) : bool :=
  match compare x y with Some (Lt | Eq) => true | _ => false end.

Definition isna (x : xreal) : bool :=
  match x with NaN => true | _ => false end.

End Exact.

#[export] Instance exact : Number xreal := {|
  zero := Fin 0;
  hundred := Fin (Q2Qc 100);
  inf := PInf;
  nan := NaN;
  add := Exact.add;
  sub := Exact.sub;
  mul := Exact.mul;
  div := Exact.div;
  fabs := Exact.abs;
  eqb := Exact.eqb;
  leb := Exact.leb;
  ltb := Exact.ltb;
  isna := Exact.isna
|}.

(** ** Data frames *)

(** A row of a standardized inventory.  The five dimension columns hold a
    string or a missing value ([None], pandas' [NaN] or [None]); the type of
    the [FlowAmount] cell is the column's dtype. *)
Record record (A : Type) : Type := {
  FacilityID : option string;
  FlowName : option string;
  Compartment : option string;
  State : option string;
  SubpartName : option string;
  FlowAmount : A
}.

(** A data frame: the dimension columns it has, and its rows in order.  A
    field of a row whose column is not listed is not part of the frame. *)
Record DataFrame (A : Type) : Type := {
  columns : list string;
  rows : list (record A)
}.

(** The two dtypes of a [FlowAmount] column: float64, or object holding
    strings such as ["1,234.5"] and missing values. *)
Inductive frame (F : Type) : Type :=
| Float64 (df : DataFrame F)
| Object (df : DataFrame (option string)).
Arguments Object {F} df.

Definition cell A (c : string) (r : record A) : option string :=
  if c =? "FacilityID" then FacilityID r
  else if c =? "FlowName" then FlowName r
  else if c =? "Compartment" then Compartment r
  else if c =? "State" then State r
  else if c =? "SubpartName" then SubpartName r
  else None.

Definition set_FlowAmount A B (r : record A) (v : B) : record B :=
  {| FacilityID := FacilityID r; FlowName := FlowName r;
     Compartment := Compartment r; State := State r;
     SubpartName := SubpartName r; FlowAmount := v |}.

(** [df['FlowAmount'] = f(df['FlowAmount'])], cell by cell. *)
Definition assign_FlowAmount A B (f : A -> B) (df : DataFrame A)
  : DataFrame B :=
  {| columns := columns df;
     rows := map (fun r => set_FlowAmount r (f (FlowAmount r))) (rows df) |}.

Definition has_column A (df : DataFrame A) (c : string) : bool :=
  existsb (String.eqb c) (columns df).

(** ** Grouping keys and their order *)

(** The values of the grouping columns of one group. *)
Definition key : Type := list string.

(** pandas sorts groups and the keys of an outer join lexicographically,
    column after column. *)
Fixpoint key_compare (a b : key) : comparison :=
  match a, b with
  | [], [] => Eq
  | [], _ :: _ => Lt
  | _ :: _, [] => Gt
  | x :: a', y :: b' =>
      match String.compare x y with
      | Eq => key_compare a' b'
      | c => c
      end
  end.

Definition key_eqb (a b : key) : bool :=
  match key_compare a b with Eq => true | _ => false end.

Definition key_lt (a b : key) : Prop := key_compare a b = Lt.

(** Insertion into a sorted list of distinct keys. *)
Fixpoint insert_key (k : key) (l : list key) : list key :=
  match l with
  | [] => [k]
  | k' :: l' =>
      match key_compare k k' with
      | Lt => k :: l
      | Eq => l
      | Gt => k' :: insert_key k l'
      end
  end.

(** The distinct keys of a list, sorted. *)
Definition sorted_keys (l : list key) : list key :=
  fold_right insert_key [] l.

(** The distinct keys of a list, in the order in which they first occur. *)
Fixpoint distinct (l : list key) : list key :=
  match l with
  | [] => []
  | k :: l' => k :: filter (fun k' => negb (key_eqb k' k)) (distinct l')
  end.

(** The key of a row: the cells of the grouping columns, or [None] when one
    of them is missing. *)
Fixpoint row_key A (cols : list string) (r : record A) : option key :=
  match cols with
  | [] => Some []
  | c :: cols' =>
      match cell c r, row_key cols' r with
      | Some v, Some k => Some (v :: k)
      | _, _ => None
      end
  end.

Definition has_key A (cols : list string) (k : key) (r : record A) : bool :=
  match row_key cols r with
  | Some k' => key_eqb k' k
  | None => false
  end.

Fixpoint present_keys A (cols : list string) (l : list (record A))
  : list key :=
  match l with
  | [] => []
  | r :: l' =>
      match row_key cols r with
      | Some k => k :: present_keys cols l'
      | None => present_keys cols l'
      end
  end.

(** The rows [groupby] keeps: those with every key cell. *)
Definition keyed A (cols : list string) (r : record A) : bool :=
  match row_key cols r with Some _ => true | None => false end.

(** The keys of the joined table of two frames: the groups of the
    inventory, then the groups the reference alone has. *)
Definition join_keys A (cols : list string) (inventory reference : DataFrame A)
  : list key :=
  distinct (sorted_keys (present_keys cols (rows inventory))
            ++ sorted_keys (present_keys cols (rows reference))).

(** What a frame holds beside its amounts. *)
Definition dimensions A (df : DataFrame A) : DataFrame unit :=
  assign_FlowAmount (fun _ => tt) df.

(** ** The pandas operations of [validate_inventory] *)

Section Pandas.

Context {F : Type} `{Number F}.

(** [Series.fillna(0.0)] on one cell. *)
Definition fillna_cell (x : F) : F := if isna x then zero else x.

(** [df['FlowAmount'] = df['FlowAmount'].fillna(0.0)] (lines 46-47). *)
Definition fillna (df : DataFrame F) : DataFrame F :=
  assign_FlowAmount fillna_cell df.

(** The sum of a list of amounts, added one after the other: the sum in
    which the mass of an aggregation is stated. *)
Definition total (l : list F) : F := fold_left add l zero.

(** The sum of a group as pandas 1.x computes it ([group_sum], Kahan's
    compensated summation, in row order): the state is the running sum and
    its compensation, and a missing amount is skipped. *)
Definition kahan (s : F * F) (val : F) : F * F :=
  if isna val then s
  else
    let y := sub val (snd s) in
    let t := add (fst s) y in
    (t, sub (sub t (fst s)) y).

Definition group_sum (l : list F) : F :=
  fst (fold_left kahan l (zero, zero)).

(** An aggregation: one amount per key. *)
Definition sums : Type := list (key * F).

(** [df[cols + ['FlowAmount']].groupby(cols).sum().reset_index()]
    (lines 48-51): rows with a missing key cell are dropped (pandas drops
    groups whose key is missing), the groups come sorted by key, and the
    amount of a group is the compensated sum of its rows, in their order. *)
Definition group_total (cols : list string) (l : list (record F)) (k : key)
  : F :=
  group_sum (map (@FlowAmount F) (filter (has_key cols k) l)).

Definition groupby_sum (cols : list string) (l : list (record F)) : sums :=
  map (fun k => (k, group_total cols l k))
      (sorted_keys (present_keys cols l)).

(** The amounts of the rows of a key, added one after the other. *)
Definition rows_total (cols : list string) (l : list (record F)) (k : key)
  : F :=
  total (map (@FlowAmount F) (filter (has_key cols k) l)).

(** A row of the joined table, with the merge's suffixes. *)
Record joined : Type := {
  on_key : key;
  FlowAmount_x : F;
  FlowAmount_y : F
}.

(** The amounts one side of the join has for a key; a side that does not
    have the key contributes one missing value. *)
Definition side (k : key) (s : sums) : list F :=
  match map snd (filter (fun p => key_eqb (fst p) k) s) with
  | [] => [nan]
  | vs => vs
  end.

(** [left.merge(right, how='outer', on=cols).reset_index(drop=True)]
    (line 54), as pandas 1.x joins: the keys of the left side in its order,
    then the keys the right side alone has in its order; for every key the
    pairs of an amount of the left side and an amount of the right side. *)
Definition merge_outer (l r : sums) : list joined :=
  flat_map
    (fun k =>
       flat_map
         (fun x =>
            map (fun y =>
                   {| on_key := k; FlowAmount_x := x; FlowAmount_y := y |})
                (side k r))
         (side k l))
    (distinct (map fst l ++ map fst r)).

(** The amount a side of the join has for a key, and the row of the joined
    table for a key, when no side has the key twice. *)
Definition value (k : key) (s : sums) : F := hd nan (side k s).

Definition joined_row (l r : sums) (k : key) : joined :=
  {| on_key := k; FlowAmount_x := value k l; FlowAmount_y := value k r |}.

(** [validation_df.fillna(0.0)] (line 56). *)
Definition fillna_joined (j : joined) : joined :=
  {| on_key := on_key j;
     FlowAmount_x := fillna_cell (FlowAmount_x j);
     FlowAmount_y := fillna_cell (FlowAmount_y j) |}.

End Pandas.
Arguments joined F : clear implicits.
Arguments sums F : clear implicits.

(** ** Exceptions, effects and the state of a call *)

Inductive exn : Type :=
| ValueError (msg : string)
| KeyError (missing : list string)
| UnboundLocalError (name : string).

(** A row of the validation result. *)
Record validation_row (F : Type) : Type := {
  group : key;
  Inventory_Amount : F;
  Reference_Amount : F;
  Percent_Difference : F;
  Conclusion : string
}.

Record validation_frame (F : Type) : Type := {
  key_columns : list string;
  validation_rows : list (validation_row F)
}.

(** A record of the provenance table [ValidationSets_Sources.csv]. *)
Record source_record : Type := {
  Inventory : string;
  Version : string;
  Year : string;
  Name : string;
  URL : string;
  Criteria : string;
  Date_Acquired : string
}.

(** What is written to a file. *)
Inductive content (F : Type) : Type :=
| reference_sums_csv (cols : list string) (s : sums F)
| validation_csv (df : validation_frame F)
| sources_csv (table : list source_record).
Arguments sources_csv {F} table.

(** What a call does to the world outside its arguments, in order. *)
Inductive effect (F : Type) : Type :=
| to_file (path : string) (c : content F)
| create_paths (directory : string)
| write_metadata (file_name : string) (metadata : list (string * string))
                 (datatype : string)
| log_info (msg : string)
| log_warning (msg : string)
| log_error (msg : string).
Arguments create_paths {F} directory.
Arguments write_metadata {F} file_name metadata datatype.
Arguments log_info {F} msg.
Arguments log_warning {F} msg.
Arguments log_error {F} msg.

(** The two data frames [validate_inventory] is given are Python objects the
    caller still holds: the state of a call is their current value and the
    effects so far. *)
Record world (F : Type) : Type := {
  inventory_df : frame F;
  reference_df : frame F;
  trace : list (effect F)
}.

(** State and exceptions. *)
Definition M (F A : Type) : Type := world F -> (exn + A) * world F.

Definition ret {F A} (a : A) : M F A := fun w => (inr a, w).

Definition raise {F A} (e : exn) : M F A := fun w => (inl e, w).

Definition bind {F A B} (m : M F A) (k : A -> M F B) : M F B :=
  fun w =>
    match m w with
    | (inl e, w') => (inl e, w')
    | (inr a, w') => k a w'
    end.

Definition emit {F} (e : effect F) : M F unit :=
  fun w =>
    (inr tt,
     {| inventory_df := inventory_df w; reference_df := reference_df w;
        trace := trace w ++ [e] |}).

Definition get_inventory {F} : M F (frame F) :=
  fun w => (inr (inventory_df w), w).

Definition get_reference {F} : M F (frame F) :=
  fun w => (inr (reference_df w), w).

Definition set_inventory {F} (df : frame F) : M F unit :=
  fun w =>
    (inr tt,
     {| inventory_df := df; reference_df := reference_df w;
        trace := trace w |}).

Definition set_reference {F} (df : frame F) : M F unit :=
  fun w =>
    (inr tt,
     {| inventory_df := inventory_df w; reference_df := df;
        trace := trace w |}).

Declare Scope py_scope.
Delimit Scope py_scope with py.
Notation "x <- m ;; k" := (bind m (fun x => k))
  (at level 61, m at next level, right associativity) : py_scope.
Notation "m ;; k" := (bind m (fun _ => k))
  (at level 61, right associativity) : py_scope.

(** ** [validate_inventory] *)

Definition both_zero : string :=
  "Both inventory and reference are zero or null".
Definition reference_infinite : string :=
  "Reference contains infinity values. Check prior calculations.".
Definition inventory_zero : string := "Inventory value is zero or null".
Definition reference_zero : string := "Reference value is zero or null".
Definition identical : string := "Identical".
Definition similar : string := "Statistically similar".
Definition exceeds : string := "Percent difference exceeds tolerance".

(** [Series.str.replace(',', '')] on one string. *)
Fixpoint remove_commas (s : string) : string :=
  match s with
  | EmptyString => EmptyString
  | String c s' =>
      if Ascii.eqb c "," then remove_commas s' else String c (remove_commas s')
  end.

(** [mapM] for [option]. *)
Fixpoint all_some A (l : list (option A)) : option (list A) :=
  match l with
  | [] => Some []
  | None :: _ => None
  | Some a :: l' =>
      match all_some l' with
      | Some r => Some (a :: r)
      | None => None
      end
  end.

Section Validate.

Context {F : Type} `{Number F}.

(** [pd.to_numeric] on one string: the number it reads, or [None] when it
    raises.  pandas' reader is not part of this repository. *)
Variable to_numeric : string -> option F.

Local Open Scope py_scope.

(** The four lists and the counter of lines 57-61. *)
Record lists : Type := {
  amount_x_list : list F;
  amount_y_list : list F;
  pct_diff_list : list F;
  conclusion : list string;
  error_count : nat
}.

Definition no_lists : lists :=
  {| amount_x_list := []; amount_y_list := []; pct_diff_list := [];
     conclusion := []; error_count := 0 |}.

(** One iteration: what is appended to the first three lists, what is
    appended to [conclusion] (nothing when no branch of lines 99-105 is
    taken), and what is added to [error_count]. *)
Definition append (acc : lists) (x y pct : F) (c : option string) (e : nat)
  : lists :=
  {| amount_x_list := amount_x_list acc ++ [x];
     amount_y_list := amount_y_list acc ++ [y];
     pct_diff_list := pct_diff_list acc ++ [pct];
     conclusion :=
       conclusion acc ++ match c with Some s => [s] | None => [] end;
     error_count := (error_count acc + e)%nat |}.

(** The body of the loop of lines 62-105. *)
Definition loop_body (tolerance : F) (acc : lists) (row : joined F)
  : lists :=
  let amount_x := FlowAmount_x row in
  let amount_y := FlowAmount_y row in
  if eqb amount_x zero then
    if eqb amount_y zero then
      append acc amount_x amount_y zero (Some both_zero) 0
    else if eqb amount_y inf then
      append acc amount_x nan hundred (Some reference_infinite) 0
    else
      append acc amount_x amount_y hundred (Some inventory_zero) 1
  else if eqb amount_y zero then
    append acc amount_x amount_y hundred (Some reference_zero) 0
  else if eqb amount_y inf then
    append acc amount_x nan hundred (Some reference_infinite) 0
  else
    let pct_diff :=
      div (mul hundred (fabs (sub amount_y amount_x))) amount_y in
    if eqb pct_diff zero then
      append acc amount_x amount_y pct_diff (Some identical) 0
    else if leb pct_diff tolerance then
      append acc amount_x amount_y pct_diff (Some similar) 0
    else if ltb tolerance pct_diff then
      append acc amount_x amount_y pct_diff (Some exceeds) 1
    else
      append acc amount_x amount_y pct_diff None 0.

Definition loop (tolerance : F) (validation_df : list (joined F)) : lists :=
  fold_left (loop_body tolerance) validation_df no_lists.

(** What one iteration appends: the iteration run on empty lists, and its
    five components. *)
Definition step (tolerance : F) (row : joined F) : lists :=
  loop_body tolerance no_lists row.

Definition reported (tolerance : F) (row : joined F) : F :=
  hd nan (amount_y_list (step tolerance row)).
Definition percent (tolerance : F) (row : joined F) : F :=
  hd zero (pct_diff_list (step tolerance row)).
Definition verdict (tolerance : F) (row : joined F) : option string :=
  hd_error (conclusion (step tolerance row)).
Definition counted (tolerance : F) (row : joined F) : nat :=
  error_count (step tolerance row).

Definition verdict_list (tolerance : F) (row : joined F) : list string :=
  match verdict tolerance row with Some c => [c] | None => [] end.

Definition lists_app (a b : lists) : lists :=
  {| amount_x_list := amount_x_list a ++ amount_x_list b;
     amount_y_list := amount_y_list a ++ amount_y_list b;
     pct_diff_list := pct_diff_list a ++ pct_diff_list b;
     conclusion := conclusion a ++ conclusion b;
     error_count := (error_count a + error_count b)%nat |}.

(** The expression of line 95. *)
Definition percent_difference (inventory reference : F) : F :=
  div (mul hundred (fabs (sub reference inventory))) reference.

(** [validation_df[name] = values] raises when the list does not have one
    value per row. *)
Definition check_length A (n : nat) (values : list A) : M F unit :=
  if Nat.eqb (List.length values) n then ret tt
  else raise (ValueError "Length of values does not match length of index").

Fixpoint build_rows (ks : list key) (xs ys ps : list F) (cs : list string)
  : list (validation_row F) :=
  match ks, xs, ys, ps, cs with
  | k :: ks', x :: xs', y :: ys', p :: ps', c :: cs' =>
      {| group := k; Inventory_Amount := x; Reference_Amount := y;
         Percent_Difference := p; Conclusion := c |}
      :: build_rows ks' xs' ys' ps' cs'
  | _, _, _, _, _ => []
  end.

(** Lines 106-110. *)
Definition assign_columns (cols : list string)
           (validation_df : list (joined F)) (acc : lists)
  : M F (validation_frame F) :=
  let n := List.length validation_df in
  check_length n (amount_x_list acc) ;;
  check_length n (amount_y_list acc) ;;
  check_length n (pct_diff_list acc) ;;
  check_length n (conclusion acc) ;;
  ret {| key_columns := cols;
         validation_rows :=
           build_rows (map (@on_key F) validation_df) (amount_x_list acc)
                      (amount_y_list acc) (pct_diff_list acc)
                      (conclusion acc) |}.

(** The row of the result an iteration stands for, when it appended a
    conclusion. *)
Definition result_row (tolerance : F) (row : joined F)
  : option (validation_row F) :=
  match verdict tolerance row with
  | Some c =>
      Some {| group := on_key row;
              Inventory_Amount := FlowAmount_x row;
              Reference_Amount := reported tolerance row;
              Percent_Difference := percent tolerance row;
              Conclusion := c |}
  | None => None
  end.

(** Lines 36-45: [None] when no branch assigns [group_by_columns]. *)
Definition group_by_columns (group_by : string) (inventory : DataFrame F)
  : option (list string) :=
  if group_by =? "flow" then
    Some (["FlowName"]
            ++ if has_column inventory "Compartment"
               then ["Compartment"] else [])
  else if group_by =? "state" then Some ["State"]
  else if group_by =? "facility" then Some ["FlowName"; "FacilityID"]
  else if group_by =? "subpart" then Some ["FlowName"; "SubpartName"]
  else None.

(** [pd.to_numeric] on a column: a missing value stays missing. *)
Definition to_numeric_cell (c : option string) : option F :=
  match c with
  | None => Some nan
  | Some s => to_numeric s
  end.

Definition to_numeric_column (df : DataFrame (option string))
  : option (DataFrame F) :=
  match all_some (map (fun r => to_numeric_cell (FlowAmount r)) (rows df))
  with
  | Some vs =>
      Some {| columns := columns df;
              rows := map (fun rv => set_FlowAmount (fst rv) (snd rv))
                          (combine (rows df) vs) |}
  | None => None
  end.

(** Lines 30-32 and 33-35, for the frame read by [get] and written by
    [set]: a column of strings loses its commas, then becomes a column of
    floats. *)
Definition parse_FlowAmount (get : M F (frame F))
           (set : frame F -> M F unit) : M F (DataFrame F) :=
  df <- get ;;
  match df with
  | Float64 d => ret d
  | Object d =>
      let stripped := assign_FlowAmount (option_map remove_commas) d in
      set (Object stripped) ;;
      match to_numeric_column stripped with
      | Some d' => set (Float64 d') ;; ret d'
      | None => raise (ValueError "Unable to parse string")
      end
  end.

(** The columns of [cols] the frame does not have. *)
Definition missing_columns A (cols : list string) (df : DataFrame A)
  : list string :=
  filter (fun c => negb (has_column df c)) cols.

(** [df[cols + ['FlowAmount']]]: every selected column must exist. *)
Definition select (cols : list string) (df : DataFrame F)
  : M F (list (record F)) :=
  match missing_columns cols df with
  | [] => ret (rows df)
  | missing => raise (KeyError missing)
  end.

(** The frame of floats lines 30-35 make of a frame, when every string is
    read. *)
Definition to_float64 (df : frame F) : option (DataFrame F) :=
  match df with
  | Float64 d => Some d
  | Object d =>
      to_numeric_column (assign_FlowAmount (option_map remove_commas) d)
  end.

(** The table lines 48-56 make of two frames of floats. *)
Definition joined_of (cols : list string) (inventory reference : DataFrame F)
  : list (joined F) :=
  map fillna_joined
      (merge_outer (groupby_sum cols (rows inventory))
                   (groupby_sum cols (rows reference))).

(** What lines 52-53 write. *)
Definition written (cols : list string) (reference : DataFrame F)
           (filepath : string) : list (effect F) :=
  if filepath =? "" then []
  else [to_file filepath
                (reference_sums_csv cols
                   (groupby_sum cols (rows reference)))].

(** Lines 30-56: both frames are normalised in place, aggregated and
    joined.  The result is the grouping columns and the joined table. *)
Definition joined_table (group_by filepath : string)
  : M F (list string * list (joined F)) :=
  inventory <- parse_FlowAmount get_inventory set_inventory ;;
  reference <- parse_FlowAmount get_reference set_reference ;;
  let columns_of_group_by := group_by_columns group_by inventory in
  let inventory := fillna inventory in
  set_inventory (Float64 inventory) ;;
  let reference := fillna reference in
  set_reference (Float64 reference) ;;
  cols <- match columns_of_group_by with
          | Some cols => ret cols
          | None => raise (UnboundLocalError "group_by_columns")
          end ;;
  inventory_rows <- select cols inventory ;;
  let inventory_sums := groupby_sum cols inventory_rows in
  reference_rows <- select cols reference ;;
  let reference_sums := groupby_sum cols reference_rows in
  (if filepath =? "" then ret tt
   else emit (to_file filepath (reference_sums_csv cols reference_sums))) ;;
  ret (cols,
       map fillna_joined (merge_outer inventory_sums reference_sums)).

(** Lines 57-115: the loop over the joined table, the four new columns
    and the summary warning. *)
Definition classify (cols : list string) (tolerance : F)
           (validation_df : list (joined F)) : M F (validation_frame F) :=
  let acc := loop tolerance validation_df in
  out <- assign_columns cols validation_df acc ;;
  (if Nat.ltb 0 (error_count acc) then
     emit (log_warning
             (NilZero.string_of_uint (Nat.to_uint (error_count acc))
              ++ " potential issues in validation exceeding tolerance"
             )%string)
   else ret tt) ;;
  ret out.

Definition validate_inventory (group_by : string) (tolerance : F)
           (filepath : string) : M F (validation_frame F) :=
  t <- joined_table group_by filepath ;;
  classify (fst t) tolerance (snd t).

(** What [validate_inventory] returns or raises on two frames of floats. *)
Definition outcome_float64 (group_by : string) (tolerance : F)
           (inventory reference : DataFrame F)
  : exn + validation_frame F :=
  match group_by_columns group_by inventory with
  | None => inl (UnboundLocalError "group_by_columns")
  | Some cols =>
      match missing_columns cols inventory, missing_columns cols reference
      with
      | [], [] =>
          match all_some
                  (map (result_row tolerance)
                       (joined_of cols (fillna inventory) (fillna reference)))
          with
          | Some r => inr {| key_columns := cols; validation_rows := r |}
          | None =>
              inl (ValueError
                     "Length of values does not match length of index")
          end
      | [], missing | missing, _ => inl (KeyError missing)
      end
  end.

End Validate.
Arguments lists F : clear implicits.

(** What a call shows of a row for a group: its key, [Percent_Difference]
    and [Conclusion]. *)
Definition view F (r : validation_row F) : key * F * string :=
  (group r, Percent_Difference r, Conclusion r).

Definition views F (o : exn + validation_frame F)
  : exn + list (key * F * string) :=
  match o with
  | inl e => inl e
  | inr out => inr (map (@view F) (validation_rows out))
  end.

(** What a frame of either dtype holds beside its amounts. *)
Definition frame_dimensions F (df : frame F) : DataFrame unit :=
  match df with
  | Float64 d => dimensions d
  | Object d => dimensions d
  end.

(** ** Frames of finite amounts *)

(** A frame of rationals, as a frame of the exact numbers. *)
Definition finite (df : DataFrame Qc) : DataFrame xreal :=
  assign_FlowAmount Fin df.

(** Every [FlowAmount] multiplied by [k]. *)
Definition scaled (k : Qc) (df : DataFrame Qc) : DataFrame Qc :=
  assign_FlowAmount (Qcmult k) df.

Definition qsum (l : list Qc) : Qc := fold_right Qcplus 0%Qc l.

(** The sum of the rows of a key, in the rationals. *)
Definition qtotal (cols : list string) (l : list (record Qc)) (k : key) : Qc :=
  qsum (map (@FlowAmount Qc) (filter (has_key cols k) l)).

(** The row of the joined table of two frames of finite amounts. *)
Definition finite_row (cols : list string) (inventory reference : DataFrame Qc)
           (k : key) : joined xreal :=
  {| on_key := k;
     FlowAmount_x := Fin (qtotal cols (rows inventory) k);
     FlowAmount_y := Fin (qtotal cols (rows reference) k) |}.

(** ** The provenance table *)

(** [d[k] = v] on a Python dict: an existing key keeps its place. *)
Fixpoint dict_set (k v : string) (d : list (string * string))
  : list (string * string) :=
  match d with
  | [] => [(k, v)]
  | (k', v') :: d' =>
      if k' =? k then (k, v) :: d' else (k', v') :: dict_set k v d'
  end.

(** [(table['Inventory'] == inventory) & (table['Year'] == year)]. *)
Definition is_record_of (inventory year : string) (r : source_record) : bool :=
  (Inventory r =? inventory) && (Year r =? year).

(** The labels of the index of the table.  [update_validationsets_sources]
    gives the new line the label [i] or [i + 0.5] for a row number [i]; labels
    are counted in halves here, so that the row [i] has the label [2 * i] and
    [i + 0.5] is [2 * i + 1]. *)
Definition row_label (i : nat) : nat := (2 * i)%nat.
Definition after_row (i : nat) : nat := (2 * i + 1)%nat.

(** A table with the index [0, 1, ...] pandas gives it when it is read. *)
Fixpoint with_index (i : nat) (table : list source_record)
  : list (nat * source_record) :=
  match table with
  | [] => []
  | r :: table' => (row_label i, r) :: with_index (S i) table'
  end.

(** [sort_index()]: the lines in the order of their labels. *)
Fixpoint insert_line (x : nat * source_record)
         (l : list (nat * source_record)) : list (nat * source_record) :=
  match l with
  | [] => [x]
  | y :: l' =>
      if Nat.leb (fst x) (fst y) then x :: l else y :: insert_line x l'
  end.

Definition sort_index (l : list (nat * source_record))
  : list (nat * source_record) :=
  fold_right insert_line [] l.

(** [max(loc for loc, val in enumerate(inventories) if val == inventory)]:
    the last row of that inventory, [None] when the generator is empty and
    [max] raises. *)
Fixpoint last_row_of (inventory : string) (i : nat)
         (inventories : list string) : option nat :=
  match inventories with
  | [] => None
  | val :: l =>
      match last_row_of inventory (S i) l with
      | Some j => Some j
      | None => if val =? inventory then Some i else None
      end
  end.

Section Provenance.

Variable F : Type.

(** From [stewi.globals], which is not part of the sources at hand: the
    directories and the template of a metadata dictionary. *)
Variables data_dir local_path : string.
Variable source_metadata : list (string * string).

(** [datetime.today().strftime('%d-%b-%Y')]. *)
Variable today : string.

(** [write_validation_result], given what [read_ValidationSets_Sources]
    reads: the effects of the call, in order. *)
Definition write_validation_result (v_table : list source_record)
           (inventory_acronym year : string)
           (validation_df : validation_frame F) : list (effect F) :=
  let directory := (local_path ++ "/validation/")%string in
  let written :=
    [create_paths directory;
     log_info ("writing validation result to " ++ directory)%string;
     to_file (directory ++ inventory_acronym ++ "_" ++ year ++ ".csv")%string
             (validation_csv validation_df)] in
  match filter (is_record_of inventory_acronym year) v_table with
  | [validation_set_info] =>
      let validation_metadata :=
        dict_set "Criteria" (Criteria validation_set_info)
          (dict_set "SourceAcquisitionTime"
             (Date_Acquired validation_set_info)
             (dict_set "SourceURL" (URL validation_set_info)
                (dict_set "SourceVersion" (Version validation_set_info)
                   (dict_set "SourceFileName" (Name validation_set_info)
                      source_metadata)))) in
      written
        ++ [write_metadata (inventory_acronym ++ "_" ++ year)%string
                           validation_metadata "validation"]
  | _ => written ++ [log_error "no validation metadata found"]
  end.

Definition set_Date_Acquired (d : source_record) (date : string)
  : source_record :=
  {| Inventory := Inventory d; Version := Version d; Year := Year d;
     Name := Name d; URL := URL d; Criteria := Criteria d;
     Date_Acquired := date |}.

(** [update_validationsets_sources], given what
    [read_ValidationSets_Sources] reads: the exception raised, or the table
    that is written; and the effects of the call. *)
Definition update_validationsets_sources (v_table : list source_record)
           (validation_dict : source_record) (date_acquired : bool)
  : (exn + list source_record) * list (effect F) :=
  let validation_dict :=
    if date_acquired then validation_dict
    else set_Date_Acquired validation_dict today in
  let is_existing :=
    is_record_of (Inventory validation_dict) (Year validation_dict) in
  let indexed := with_index 0 v_table in
  let line :=
    match filter (fun x => is_existing (snd x)) indexed with
    | (i, _) :: _ =>
        inr (filter (fun x => negb (is_existing (snd x))) indexed,
             (i, validation_dict))
    | [] =>
        match last_row_of (Inventory validation_dict) 0
                          (map Inventory v_table) with
        | Some i => inr (indexed, (after_row i, validation_dict))
        | None => inl (ValueError "max() arg is an empty sequence")
        end
    end in
  match line with
  | inl e => (inl e, [])
  | inr (kept, line) =>
      let v_table' := map snd (sort_index (kept ++ [line])) in
      (inr v_table',
       [log_info "updating ValidationSets_Sources.csv with ";
        to_file (data_dir ++ "ValidationSets_Sources.csv")%string
                (sources_csv v_table')])
  end.

(** The dictionary with the date the call stamps on it. *)
Definition stamped (d : source_record) (date_acquired : bool)
  : source_record :=
  if date_acquired then d else set_Date_Acquired d today.

(** The outcome of a call that writes [table]. *)
Definition persisted (table : list source_record)
  : (exn + list source_record) * list (effect F) :=
  (inr table,
   [log_info "updating ValidationSets_Sources.csv with ";
    to_file (data_dir ++ "ValidationSets_Sources.csv")%string
            (sources_csv table)]).

End Provenance.

(** Labels that do not decrease, starting at [lo] or above. *)
Fixpoint sorted_from (lo : nat) (l : list (nat * source_record)) : Prop :=
  match l with
  | [] => True
  | y :: l' => (lo <= fst y)%nat /\ sorted_from (fst y) l'
  end.

(** ** A reader of numerals *)

(** The value of a decimal digit. *)
Definition digit (c : ascii) : option Z :=
  let n := Z.of_nat (nat_of_ascii c) in
  if ((48 <=? n) && (n <=? 57))%Z then Some (n - 48)%Z else None.

(** A blank: the space and the five control characters C's [isspace]
    takes. *)
Definition is_space (c : ascii) : bool :=
  let n := Z.of_nat (nat_of_ascii c) in
  ((n =? 32) || ((9 <=? n) && (n <=? 13)))%Z.

Fixpoint skip_spaces (s : string) : string :=
  match s with
  | String c s' => if is_space c then skip_spaces s' else s
  | EmptyString => s
  end.

(** A run of digits: the integer they spell after [m], their number after
    [n], and what follows them. *)
Fixpoint read_digits (s : string) (m : Z) (n : nat) : Z * nat * string :=
  match s with
  | String c s' =>
      match digit c with
      | Some v => read_digits s' (10 * m + v)%Z (S n)
      | None => (m, n, s)
      end
  | EmptyString => (m, n, s)
  end.

(** An optional sign: whether it is a minus, and what follows it. *)
Definition read_sign (s : string) : bool * string :=
  match s with
  | String c s' =>
      if Ascii.eqb c "-" then (true, s')
      else if Ascii.eqb c "+" then (false, s')
      else (false, s)
  | EmptyString => (false, s)
  end.

(** An exponent [e], [E] with an optional sign and digits: its value and
    what follows; without digits there is no exponent. *)
Definition read_exponent (s : string) : Z * string :=
  match s with
  | String c s' =>
      if Ascii.eqb c "e" || Ascii.eqb c "E" then
        let (negative, s'') := read_sign s' in
        let '(v, n, rest) := read_digits s'' 0%Z 0%nat in
        match n with
        | O => (0%Z, s)
        | _ => ((if negative then - v else v)%Z, rest)
        end
      else (0%Z, s)
  | EmptyString => (0%Z, s)
  end.

(** A numeral: blanks, a sign, digits with at most one point and at least
    one digit, an exponent, blanks.  The result is the sign, the integer
    the digits spell and the power of ten it is to be multiplied by. *)
Definition read_decimal (s : string) : option (bool * Z * Z) :=
  let (negative, s1) := read_sign (skip_spaces s) in
  let '(m1, n1, s2) := read_digits s1 0%Z 0%nat in
  let '(m, n2, s3) :=
    match s2 with
    | String c s' =>
        if Ascii.eqb c "." then read_digits s' m1 0%nat else (m1, 0%nat, s2)
    | EmptyString => (m1, 0%nat, s2)
    end in
  match (n1 + n2)%nat with
  | O => None
  | _ =>
      let (e, s4) := read_exponent s3 in
      match skip_spaces s4 with
      | EmptyString => Some (negative, m, (e - Z.of_nat n2)%Z)
      | _ => None
      end
  end.

(** The float nearest to an integer. *)
Definition float_of_Z (z : Z) : float :=
  SF2Prim (binary_normalize prec emax z 0%Z false).

(** The value of a numeral: one multiplication or division of floats.  A
    value out of the range of the floats is not read. *)
Definition decimal_value (negative : bool) (m e : Z) : option float :=
  if (308 <? e)%Z then None
  else
    let number :=
      if (0 <=? e)%Z then (float_of_Z m * float_of_Z (10 ^ e))%float
      else (float_of_Z m / float_of_Z (10 ^ (- e)))%float in
    let number := if negative then (- number)%float else number in
    if PrimFloat.is_infinity number then None else Some number.

Definition lower (c : ascii) : ascii :=
  let n := nat_of_ascii c in
  if (Nat.leb 65 n && Nat.leb n 90)%bool then ascii_of_nat (n + 32) else c.

Fixpoint lowercase (s : string) : string :=
  match s with
  | String c s' => String (lower c) (lowercase s')
  | EmptyString => EmptyString
  end.

(** The spellings of the infinities, in any case. *)
Definition read_infinity (s : string) : option float :=
  let t := lowercase s in
  if (t =? "inf") || (t =? "+inf") || (t =? "infinity")
     || (t =? "+infinity")
  then Some infinity
  else if (t =? "-inf") || (t =? "-infinity") then Some neg_infinity
  else None.

(** What [pd.to_numeric] of pandas 1.x reads from a string, for the
    scenarios: the empty string is a missing value, a numeral is its value,
    an infinity is spelled out; anything else is unreadable.  For a numeral
    of at most 15 digits and a power of ten within 22 the integer and the
    power are floats, and the value is the float nearest to the numeral, as
    pandas reads it; for longer numerals the last digit of the value may
    differ from pandas'.  The scenarios use short numerals only, and the
    properties below are about every reader. *)
Definition decimal_reader (s : string) : option float :=
  match s with
  | EmptyString => Some PrimFloat.nan
  | _ =>
      match read_decimal s with
      | Some (negative, m, e) => decimal_value negative m e
      | None => read_infinity s
      end
  end.

(** ** The scenarios of the specification *)

(** A row of a frame with the columns [FlowName] and [Compartment], released
    to air. *)
Definition flow A (name : string) (amount : A) : record A :=
  {| FacilityID := None; FlowName := Some name; Compartment := Some "air";
     State := None; SubpartName := None; FlowAmount := amount |}.

Definition flows A (l : list (record A)) : DataFrame A :=
  {| columns := ["FlowName"; "Compartment"]; rows := l |}.

(** The state before a call on two float64 frames. *)
Definition before F (inventory reference : list (record F)) : world F :=
  {| inventory_df := Float64 (flows inventory);
     reference_df := Float64 (flows reference);
     trace := [] |}.

(** A reader that reads nothing, for calls on float64 frames. *)
Definition no_reader F (s : string) : option F := None.

(** Scenario 5 of the specification: the inventory has 50 of SO2, the
    reference has no row. *)
Definition scenario_5 : world float := before [flow "SO2" 50%float] [].

Definition joined_5 : list (joined float) :=
  [{| on_key := ["SO2"; "air"]; FlowAmount_x := 50%float;
      FlowAmount_y := 0%float |}].

Definition result_5 : validation_frame float :=
  {| key_columns := ["FlowName"; "Compartment"];
     validation_rows :=
       [{| group := ["SO2"; "air"]; Inventory_Amount := 50%float;
           Reference_Amount := 0%float; Percent_Difference := 100%float;
           Conclusion := reference_zero |}] |}.




(** Scenario 3 of the specification: 90 of CO2 against 100, tolerance 5. *)
Definition scenario_3 : world float :=
  before [flow "CO2" 90%float] [flow "CO2" 100%float].

Definition joined_3 : list (joined float) :=
  [{| on_key := ["CO2"; "air"]; FlowAmount_x := 90%float;
      FlowAmount_y := 100%float |}].

Definition result_3 : validation_frame float :=
  {| key_columns := ["FlowName"; "Compartment"];
     validation_rows :=
       [{| group := ["CO2"; "air"]; Inventory_Amount := 90%float;
           Reference_Amount := 100%float; Percent_Difference := 10%float;
           Conclusion := exceeds |}] |}.


(** A provenance table with two inventories. *)
Definition source (inventory year : string) : source_record :=
  {| Inventory := inventory; Version := "1"; Year := year;
     Name := "national totals"; URL := "https://example.org/totals";
     Criteria := "all flows"; Date_Acquired := "01-Jan-2020" |}.

Definition sample_sources : list source_record :=
  [source "NEI" "2016"; source "NEI" "2017"; source "TRI" "2016"].

(** A later version of the totals of an inventory and year. *)
Definition revised_source (inventory year : string) : source_record :=
  {| Inventory := inventory; Version := "2"; Year := year;
     Name := "national totals, revised";
     URL := "https://example.org/totals/v2";
     Criteria := "all flows"; Date_Acquired := "" |}.

Definition sample_result : validation_frame float :=
  {| key_columns := ["FlowName"]; validation_rows := [] |}.

(** Scenario 2 of the specification, in rationals, and a factor of one
    thousandth. *)
Definition scenario_2_inventory : DataFrame Qc :=
  flows [flow "CO2" (Q2Qc 95)].
Definition scenario_2_reference : DataFrame Qc :=
  flows [flow "CO2" (Q2Qc 100)].
Definition thousandth : Qc := Q2Qc (1 # 1000).

(** Two rows of CO2, the second without a facility. *)
Definition facility_rows : DataFrame float :=
  {| columns := ["FacilityID"; "FlowName"];
     rows :=
       [{| FacilityID := Some "F1"; FlowName := Some "CO2";
           Compartment := None; State := None; SubpartName := None;
           FlowAmount := 10%float |};
        {| FacilityID := None; FlowName := Some "CO2";
           Compartment := None; State := None; SubpartName := None;
           FlowAmount := 5%float |}] |}.

(** The inventory has a missing amount of CO2. *)
Definition missing_amount : world float :=
  before [flow "CO2" PrimFloat.nan] [flow "CO2" 1%float].

Definition missing_amount_after : world float :=
  {| inventory_df := Float64 (flows [flow "CO2" 0%float]);
     reference_df := Float64 (flows [flow "CO2" 1%float]);
     trace :=
       [log_warning "1 potential issues in validation exceeding tolerance"]
  |}.

Definition missing_amount_result : validation_frame float :=
  {| key_columns := ["FlowName"; "Compartment"];
     validation_rows :=
       [{| group := ["CO2"; "air"]; Inventory_Amount := 0%float;
           Reference_Amount := 1%float; Percent_Difference := 100%float;
           Conclusion := inventory_zero |}] |}.

(** The amounts of a frame of floats. *)
Definition amounts F (df : frame F) : list F :=
  match df with
  | Float64 d => map (@FlowAmount F) (rows d)
  | Object _ => []
  end.

(** Scenario 1: 100 of CO2 against 100.  Scenario 2: 95 against 100.
    Scenario 4: nothing against nothing. *)
Definition scenario_1 : world float :=
  before [flow "CO2" 100%float] [flow "CO2" 100%float].
Definition scenario_2 : world float :=
  before [flow "CO2" 95%float] [flow "CO2" 100%float].
Definition scenario_4 : world float :=
  before [flow "CO2" 0%float] [flow "CO2" 0%float].

(** Scenario 6: the inventory holds its amount as the string "1,000.00". *)
Definition scenario_6 : world float :=
  {| inventory_df := Object (flows [flow "CO2" (Some "1,000.00")]);
     reference_df := Float64 (flows [flow "CO2" 1000%float]);
     trace := [] |}.

(** ** Further definitions: the call on frames of floats *)

(** The state in which both frames are the frames of floats read from them. *)
Definition parsed_world F (inventory reference : DataFrame F)
           (tr : list (effect F)) : world F :=
  {| inventory_df := Float64 inventory; reference_df := Float64 reference;
     trace := tr |}.

Section Parsed.

Context {F : Type} {N : Number F}.

(** Lines 36-56, after both columns hold floats. *)
Definition after_parse (group_by filepath : string)
           (inventory reference : DataFrame F)
  : M F (list string * list (joined F)) :=
  bind (set_inventory (Float64 (fillna inventory))) (fun _ =>
  bind (set_reference (Float64 (fillna reference))) (fun _ =>
  bind (match group_by_columns group_by inventory with
        | Some cols => ret cols
        | None => raise (UnboundLocalError "group_by_columns")
        end) (fun cols =>
  bind (select cols (fillna inventory)) (fun inventory_rows =>
  bind (select cols (fillna reference)) (fun reference_rows =>
  bind (if String.eqb filepath "" then ret tt
        else emit (to_file filepath
                     (reference_sums_csv cols
                        (groupby_sum cols reference_rows)))) (fun _ =>
  ret (cols,
       map fillna_joined
           (merge_outer (groupby_sum cols inventory_rows)
                        (groupby_sum cols reference_rows))))))))).

End Parsed.

(** The warning of lines 111-113 for a count of errors. *)
Definition warnings F (n : nat) : list (effect F) :=
  if Nat.ltb 0 n then
    [log_warning
       (NilZero.string_of_uint (Nat.to_uint n)
        ++ " potential issues in validation exceeding tolerance")%string]
  else [].

Definition length_error : exn :=
  ValueError "Length of values does not match length of index".

(** The rows the warning counts show one of two conclusions. *)
Definition flagged F (r : validation_row F) : bool :=
  (Conclusion r =? inventory_zero) || (Conclusion r =? exceeds).

(** ** Laws of the order and of the signs *)

(** The comparisons are those of an order: what the comparison of two
    tolerances needs. *)
Class OrderLaws {F : Type} (N : Number F) : Prop := {
  leb_ltb_trans :
    forall a b c, leb a b = true -> ltb b c = true -> ltb a c = true
}.

(** The quotient of line 95 has the sign of its denominator: over a
    negative reference it is not positive. *)
Class SignLaws {F : Type} (N : Number F) : Prop := {
  percent_of_negative :
    forall a y, ltb y zero = true ->
                ltb zero (div (mul hundred (fabs a)) y) = false
}.

(** A number that is not-a-number or has the sign [s]. *)
Definition has_sign (s : bool) (f : spec_float) : Prop :=
  match f with
  | S754_nan => True
  | S754_zero s' | S754_infinity s' | S754_finite s' _ _ => s' = s
  end.

(** ** The metadata dictionary *)

(** [d.get(k)] on a Python dict. *)
Fixpoint dict_get (k : string) (d : list (string * string)) : option string :=
  match d with
  | [] => None
  | (k', v) :: d' => if k' =? k then Some v else dict_get k d'
  end.

(** The five keys [write_validation_result] sets. *)
Definition provenance_keys : list string :=
  ["SourceFileName"; "SourceVersion"; "SourceURL"; "SourceAcquisitionTime";
   "Criteria"].

(** ** The callers of [validate_inventory] *)

(** Several effects, in order. *)
Definition emit_all {F} (l : list (effect F)) : M F unit :=
  fun w =>
    (inr tt,
     {| inventory_df := inventory_df w; reference_df := reference_df w;
        trace := trace w ++ l |}).

Section Callers.

Context {F : Type} {N : Number F}.
Variable to_numeric : string -> option F.
Variable local_path : string.
Variable source_metadata : list (string * string).

(** The literal [5.0]. *)
Variable five : F.

(** Lines 220-223 of [NEI.py] and lines 298-300 of [egrid.py]: the inventory
    is validated by flow with the tolerance 5.0 and no file for the reference
    sums, and the result is handed to [write_validation_result].  The state
    holds the inventory and the national totals as the lines before have
    read them. *)
Definition validate_against_totals (inventory_acronym year : string)
           (v_table : list source_record) : M F unit :=
  bind (validate_inventory to_numeric "flow" five "")
       (fun validation_result =>
          emit_all (write_validation_result local_path source_metadata
                      v_table inventory_acronym year validation_result)).

Definition validate_national_totals : string -> list source_record -> M F unit
  := validate_against_totals "NEI".

Definition validate_eGRID : string -> list source_record -> M F unit :=
  validate_against_totals "eGRID".

End Callers.

(** ** eGRID: the reliability scores of lines 216-233 *)

Module eGRID.

(** A row of [flowbyfac] with the columns these lines read and write; a
    missing cell is [None]. *)
Record flow_by_facility (R : Type) : Type := {
  FlowName : string;
  Plant_primary_fuel : option string;
  DataReliability : option R
}.

Section Reliability.

Variable R : Type.

(** The integer literals, as values of the column. *)
Variable score : Z -> R.

(** [column != s]: a missing cell differs from every string. *)
Definition ne (c : option string) (s : string) : bool :=
  match c with
  | Some v => negb (v =? s)
  | None => true
  end.

Definition set_DataReliability (r : flow_by_facility R) (v : option R)
  : flow_by_facility R :=
  {| FlowName := FlowName r; Plant_primary_fuel := Plant_primary_fuel r;
     DataReliability := v |}.

(** [flowbyfac.loc[mask, 'DataReliability'] = v] on one row. *)
Definition loc_assign (mask : flow_by_facility R -> bool) (v : R)
           (r : flow_by_facility R) : flow_by_facility R :=
  if mask r then set_DataReliability r (Some v) else r.

(** [fillna(5)] on one row. *)
Definition fillna_DataReliability (v : R) (r : flow_by_facility R)
  : flow_by_facility R :=
  match DataReliability r with
  | Some _ => r
  | None => set_DataReliability r (Some v)
  end.

Definition is_CH4_or_N2O (r : flow_by_facility R) : bool :=
  (FlowName r =? "Methane") || (FlowName r =? "Nitrous oxide").

(** Lines 216-233, row by row. *)
Definition assign_reliability (r : flow_by_facility R) : flow_by_facility R :=
  let r := loc_assign (fun r => FlowName r =? "Electricity") (score 1) r in
  let r := fillna_DataReliability (score 5) r in
  let r := loc_assign is_CH4_or_N2O (score 3) r in
  loc_assign
    (fun r =>
       is_CH4_or_N2O r
       && (ne (Plant_primary_fuel r) "PG"
           || ne (Plant_primary_fuel r) "RC"
           || ne (Plant_primary_fuel r) "WC"
           || ne (Plant_primary_fuel r) "SLW"))
    (score 2) r.

End Reliability.

End eGRID.

(** ** [filter_states] *)

(** [state_codes.csv]: three columns of codes, with missing cells. *)
Record state_codes : Type := {
  states : list (option string);
  dc : list (option string);
  territories : list (option string)
}.

(** [list(column.dropna())]. *)
Definition dropna (column : list (option string)) : list string :=
  flat_map (fun c => match c with Some s => [s] | None => [] end) column.

(** [Series.isin(values)] on one cell: a missing cell is in no list of
    strings. *)
Definition isin (c : option string) (values : list string) : bool :=
  match c with
  | Some s => existsb (String.eqb s) values
  | None => false
  end.

Definition states_list (states_df : state_codes)
           (include_states include_dc include_territories : bool)
  : list string :=
  (if include_states then dropna (states states_df) else [])
    ++ (if include_dc then dropna (dc states_df) else [])
    ++ (if include_territories then dropna (territories states_df) else []).

(** [filter_states], given what [pd.read_csv] reads of [state_codes.csv]. *)
Definition filter_states A (states_df : state_codes)
           (inventory_df : DataFrame A)
           (include_states include_dc include_territories : bool)
  : exn + DataFrame A :=
  let states_list :=
    states_list states_df include_states include_dc include_territories in
  if has_column inventory_df "State" then
    inr {| columns := columns inventory_df;
           rows := filter (fun r => isin (State r) states_list)
                          (rows inventory_df) |}
  else inl (KeyError ["State"]).

(** The state of a key of the grouping by ['State'] is in the list. *)
Definition listed (values : list string) (k : key) : bool :=
  match k with
  | [s] => existsb (String.eqb s) values
  | _ => false
  end.

(** ** Further scenarios *)

(** Scenario 4, joined, and its result. *)
Definition joined_4 : list (joined float) :=
  [{| on_key := ["CO2"; "air"]; FlowAmount_x := 0%float;
      FlowAmount_y := 0%float |}].

Definition result_4 : validation_frame float :=
  {| key_columns := ["FlowName"; "Compartment"];
     validation_rows :=
       [{| group := ["CO2"; "air"]; Inventory_Amount := 0%float;
           Reference_Amount := 0%float; Percent_Difference := 0%float;
           Conclusion := both_zero |}] |}.

(** The missing amount of CO2, filled and joined. *)
Definition missing_amount_filled : world float :=
  before [flow "CO2" 0%float] [flow "CO2" 1%float].

Definition missing_amount_joined : list (joined float) :=
  [{| on_key := ["CO2"; "air"]; FlowAmount_x := 0%float;
      FlowAmount_y := 1%float |}].

(** The reference has minus infinity of CO2: the percent difference is
    not a number. *)
Definition negative_infinite_reference : world float :=
  before [flow "CO2" 1%float] [flow "CO2" neg_infinity].

Definition joined_negative_infinite : list (joined float) :=
  [{| on_key := ["CO2"; "air"]; FlowAmount_x := 1%float;
      FlowAmount_y := neg_infinity |}].

(** Three flows, two of the inventory and one of the reference: the joined
    table has the flows of the inventory first. *)
Definition three_flows : world float :=
  before [flow "SO2" 1%float; flow "CO2" 2%float] [flow "NOx" 3%float].

Definition joined_three_flows : list (joined float) :=
  [{| on_key := ["CO2"; "air"]; FlowAmount_x := 2%float;
      FlowAmount_y := 0%float |};
   {| on_key := ["SO2"; "air"]; FlowAmount_x := 1%float;
      FlowAmount_y := 0%float |};
   {| on_key := ["NOx"; "air"]; FlowAmount_x := 0%float;
      FlowAmount_y := 3%float |}].

Definition result_three_flows : validation_frame float :=
  {| key_columns := ["FlowName"; "Compartment"];
     validation_rows :=
       [{| group := ["CO2"; "air"]; Inventory_Amount := 2%float;
           Reference_Amount := 0%float; Percent_Difference := 100%float;
           Conclusion := reference_zero |};
        {| group := ["SO2"; "air"]; Inventory_Amount := 1%float;
           Reference_Amount := 0%float; Percent_Difference := 100%float;
           Conclusion := reference_zero |};
        {| group := ["NOx"; "air"]; Inventory_Amount := 0%float;
           Reference_Amount := 3%float; Percent_Difference := 100%float;
           Conclusion := inventory_zero |}] |}.

Definition three_flows_after : world float :=
  {| inventory_df := inventory_df three_flows;
     reference_df := reference_df three_flows;
     trace :=
       [log_warning "1 potential issues in validation exceeding tolerance"]
  |}.

(** National totals without a compartment, as [NEI.py] writes them. *)
Definition totals_without_compartment : DataFrame float :=
  {| columns := ["FlowName"];
     rows :=
       [{| FacilityID := None; FlowName := Some "CO2"; Compartment := None;
           State := None; SubpartName := None; FlowAmount := 1%float |}] |}.

Definition no_compartment_in_reference : world float :=
  {| inventory_df := Float64 (flows [flow "CO2" 1%float]);
     reference_df := Float64 totals_without_compartment;
     trace := [] |}.

(** An amount that is no numeral. *)
Definition unreadable : DataFrame (option string) :=
  flows [flow "CO2" (Some "1,0x0")].

Definition unreadable_inventory : world float :=
  {| inventory_df := Object unreadable;
     reference_df := Float64 (flows [flow "CO2" 1000%float]);
     trace := [] |}.

Definition unreadable_reference : world float :=
  {| inventory_df := Object (flows [flow "CO2" (Some "1,000.00")]);
     reference_df := Object unreadable;
     trace := [] |}.

(** An inventory with a state column, and the codes of two states, the
    district and a territory. *)
Definition by_state (state : option string) (amount : float) : record float :=
  {| FacilityID := None; FlowName := Some "CO2"; Compartment := None;
     State := state; SubpartName := None; FlowAmount := amount |}.

Definition state_inventory : DataFrame float :=
  {| columns := ["FlowName"; "State"];
     rows := [by_state (Some "PR") 1%float; by_state (Some "OH") 2%float;
              by_state None 4%float; by_state (Some "OH") 8%float;
              by_state (Some "DC") 16%float] |}.

Definition sample_state_codes : state_codes :=
  {| states := [Some "OH"; Some "TX"];
     dc := [Some "DC"; None];
     territories := [Some "PR"; None] |}.

(** 90 of CO2 against a reference of -100. *)
Definition joined_negative : joined float :=
  {| on_key := ["CO2"; "air"]; FlowAmount_x := 90%float;
     FlowAmount_y := (-100)%float |}.

(** * Properties *)

Local Open Scope nat_scope.

(** ** The two number systems satisfy the laws *)

Lemma SFcompare_antisym a b :
  SFcompare b a = option_map CompOpp (SFcompare a b).
Proof.
  destruct a as [s| s| |s m e], b as [s'| s'| |s' m' e']; simpl; trivial;
    try (destruct s; trivial; fail); try (destruct s'; trivial; fail);
    try (destruct s, s'; trivial; fail).
  destruct s, s'; simpl; trivial;
    rewrite (Z.compare_antisym e e'); destruct (e ?= e')%Z; simpl; trivial;
    change PosDef.Pos.compare_cont with Pos.compare_cont;
    rewrite (Pos.compare_cont_antisym m m' Eq); trivial.
Qed.

Lemma binary64_eqb_zero p :
  PrimFloat.eqb p 0 = true -> exists s, Prim2SF p = S754_zero s.
Proof.
  rewrite FloatAxioms.eqb_spec. unfold SFeqb.
  change (Prim2SF 0) with (S754_zero false).
  destruct (Prim2SF p) as [s| s| |s m e]; simpl; try discriminate.
  - eauto.
  - destruct s; discriminate.
  - destruct s; discriminate.
Qed.

Lemma binary64_eqb_inf p :
  PrimFloat.eqb p infinity = true -> Prim2SF p = S754_infinity false.
Proof.
  rewrite FloatAxioms.eqb_spec. unfold SFeqb.
  change (Prim2SF infinity) with (S754_infinity false).
  destruct (Prim2SF p) as [s| s| |s m e]; simpl; try discriminate.
  destruct s; trivial; discriminate.
Qed.

Lemma binary64_ltb_not_leb t p :
  PrimFloat.ltb t p = true -> PrimFloat.leb p t = false.
Proof.
  rewrite FloatAxioms.ltb_spec, FloatAxioms.leb_spec. unfold SFltb, SFleb.
  rewrite (SFcompare_antisym (Prim2SF t) (Prim2SF p)).
  destruct (SFcompare (Prim2SF t) (Prim2SF p)) as [[]|]; simpl; congruence.
Qed.

Lemma binary64_leb_ltb_nonzero t p :
  PrimFloat.leb 0 t = true -> PrimFloat.ltb t p = true ->
  PrimFloat.eqb p 0 = false.
Proof.
  intros Hle Hlt. destruct (PrimFloat.eqb p 0) eqn:E; trivial.
  apply binary64_eqb_zero in E. destruct E as [s E].
  rewrite FloatAxioms.leb_spec in Hle. rewrite FloatAxioms.ltb_spec in Hlt.
  rewrite E in Hlt. change (Prim2SF 0) with (S754_zero false) in Hle.
  unfold SFleb in Hle. unfold SFltb in Hlt.
  destruct (Prim2SF t) as [s1| s1| |s1 m e]; simpl in *; try discriminate;
    destruct s1; discriminate.
Qed.

#[export] Instance binary64_laws : NumberLaws binary64.
Proof.
  split.
  - reflexivity.
  - reflexivity.
  - intros y Hy. apply binary64_eqb_inf in Hy. simpl.
    rewrite FloatAxioms.eqb_spec, Hy. reflexivity.
  - exact binary64_ltb_not_leb.
  - exact binary64_leb_ltb_nonzero.
  - intros p Hlt. now apply (@binary64_leb_ltb_nonzero 0%float p).
Qed.

Lemma Qccompare_antisym (a b : Qc) : (b ?= a)%Qc = CompOpp (a ?= b)%Qc.
Proof. unfold Qccompare. symmetry. apply Qcompare_antisym. Qed.

Lemma exact_compare_antisym a b :
  Exact.compare b a = option_map CompOpp (Exact.compare a b).
Proof. destruct a, b; simpl; trivial. now rewrite Qccompare_antisym. Qed.

Lemma exact_eqb_zero p : Exact.eqb p (Fin 0) = true -> p = Fin 0.
Proof.
  unfold Exact.eqb. destruct p; simpl; try discriminate.
  destruct (q ?= 0)%Qc eqn:E; try discriminate. intros _.
  apply Qceq_alt in E. now subst.
Qed.

#[export] Instance exact_laws : NumberLaws exact.
Proof.
  split.
  - reflexivity.
  - reflexivity.
  - now intros [].
  - intros t p. simpl. unfold Exact.ltb, Exact.leb.
    rewrite (exact_compare_antisym t p).
    destruct (Exact.compare t p) as [[]|]; simpl; congruence.
  - simpl. intros t p Hle Hlt. destruct (Exact.eqb p (Fin 0)) eqn:E; trivial.
    apply exact_eqb_zero in E. subst p. unfold Exact.ltb, Exact.leb in *.
    rewrite (exact_compare_antisym t (Fin 0)) in Hle.
    destruct (Exact.compare t (Fin 0)) as [[]|]; simpl in *; congruence.
  - simpl. intros p Hlt. destruct (Exact.eqb p (Fin 0)) eqn:E; trivial.
    apply exact_eqb_zero in E. subst p. discriminate.
Qed.

(** ** The loop, iteration by iteration *)

Section Loop.

Context {F : Type} {N : Number F}.

Lemma loop_body_step tolerance acc row :
  loop_body tolerance acc row = lists_app acc (step tolerance row).
Proof.
  unfold step, loop_body.
  repeat match goal with |- context [if ?b then _ else _] => destruct b end;
    reflexivity.
Qed.

Lemma lists_app_assoc (a b c : lists F) :
  lists_app (lists_app a b) c = lists_app a (lists_app b c).
Proof.
  unfold lists_app; simpl. now rewrite <- !app_assoc, Nat.add_assoc.
Qed.

Lemma lists_app_nil_l (a : lists F) : lists_app no_lists a = a.
Proof. now destruct a. Qed.

Lemma lists_app_nil_r (a : lists F) : lists_app a no_lists = a.
Proof.
  destruct a; unfold lists_app; simpl. now rewrite !app_nil_r, Nat.add_0_r.
Qed.

Lemma fold_loop_body tolerance l acc :
  fold_left (loop_body tolerance) l acc = lists_app acc (loop tolerance l).
Proof.
  unfold loop. revert acc. induction l as [|row l IH]; intro acc; simpl.
  - now rewrite lists_app_nil_r.
  - rewrite IH, (IH (loop_body _ _ _)), !(loop_body_step _ _ row).
    now rewrite lists_app_nil_l, lists_app_assoc.
Qed.

Lemma loop_cons tolerance row l :
  loop tolerance (row :: l)
  = lists_app (step tolerance row) (loop tolerance l).
Proof.
  unfold loop at 1. simpl. rewrite fold_loop_body.
  now rewrite loop_body_step, lists_app_nil_l.
Qed.

Lemma loop_app tolerance l1 l2 :
  loop tolerance (l1 ++ l2)
  = lists_app (loop tolerance l1) (loop tolerance l2).
Proof.
  induction l1 as [|row l1 IH]; simpl.
  - now rewrite lists_app_nil_l.
  - now rewrite !loop_cons, IH, lists_app_assoc.
Qed.

Lemma step_eq tolerance row :
  step tolerance row
  = {| amount_x_list := [FlowAmount_x row];
       amount_y_list := [reported tolerance row];
       pct_diff_list := [percent tolerance row];
       conclusion := verdict_list tolerance row;
       error_count := counted tolerance row |}.
Proof.
  unfold verdict_list, verdict, reported, percent, counted, step, loop_body.
  repeat match goal with |- context [if ?b then _ else _] => destruct b end;
    reflexivity.
Qed.

(** The four lists are the columns of the joined table, mapped. *)
Lemma loop_eq tolerance l :
  loop tolerance l
  = {| amount_x_list := map (@FlowAmount_x F) l;
       amount_y_list := map (reported tolerance) l;
       pct_diff_list := map (percent tolerance) l;
       conclusion := flat_map (verdict_list tolerance) l;
       error_count := list_sum (map (counted tolerance) l) |}.
Proof.
  induction l as [|row l IH]; [reflexivity|].
  rewrite loop_cons, IH, step_eq. reflexivity.
Qed.

Lemma verdicts_length tolerance l :
  List.length (flat_map (verdict_list tolerance) l) <= List.length l.
Proof.
  induction l as [|row l IH]; cbn [flat_map List.length]; [lia|].
  rewrite length_app.
  assert (List.length (verdict_list tolerance row) <= 1)
    by (unfold verdict_list; destruct (verdict _ _); simpl; lia).
  lia.
Qed.

Lemma build_rows_complete tolerance l :
  List.length (flat_map (verdict_list tolerance) l) = List.length l ->
  all_some (map (result_row tolerance) l)
  = Some (build_rows (map (@on_key F) l) (map (@FlowAmount_x F) l)
                     (map (reported tolerance) l)
                     (map (percent tolerance) l)
                     (flat_map (verdict_list tolerance) l)).
Proof.
  induction l as [|row l IH]; cbn [flat_map map List.length all_some];
    [reflexivity|].
  rewrite length_app. pose proof (verdicts_length tolerance l) as Hle.
  unfold result_row at 1. unfold verdict_list at 1 3.
  destruct (verdict tolerance row) as [c|]; cbn [List.length app];
    intro Hlen.
  - rewrite IH by lia. reflexivity.
  - lia.
Qed.

Lemma all_some_nth A (l : list (option A)) (r : list A) i :
  all_some l = Some r ->
  forall o, nth_error l i = Some o ->
  exists a, o = Some a /\ nth_error r i = Some a.
Proof.
  revert r i. induction l as [|[a|] l IH]; intros r i Hall o Hnth.
  - destruct i; discriminate.
  - simpl in Hall. destruct (all_some l) as [r'|] eqn:E; [|discriminate].
    injection Hall as <-. destruct i as [|i]; simpl in *.
    + injection Hnth as <-. eauto.
    + eapply IH; eauto.
  - discriminate.
Qed.

(** A successful [classify] returns one row per row of the joined table,
    the one its iteration stands for, and leaves the two frames alone. *)
Lemma classify_returns cols tolerance validation_df w out w' :
  classify cols tolerance validation_df w = (inr out, w') ->
  key_columns out = cols
  /\ all_some (map (result_row tolerance) validation_df)
     = Some (validation_rows out)
  /\ inventory_df w' = inventory_df w
  /\ reference_df w' = reference_df w.
Proof.
  unfold classify, assign_columns, check_length, bind, ret, raise, emit.
  rewrite loop_eq; simpl. rewrite !length_map, Nat.eqb_refl.
  destruct (Nat.eqb _ _) eqn:E; [|discriminate].
  apply Nat.eqb_eq in E.
  pose proof (build_rows_complete _ _ E) as Hrows.
  destruct (Nat.ltb _ _); intro Heq; injection Heq as <- <-; auto.
Qed.

Lemma classify_row cols tolerance validation_df w out w' i row :
  classify cols tolerance validation_df w = (inr out, w') ->
  nth_error validation_df i = Some row ->
  exists r, result_row tolerance row = Some r
            /\ nth_error (validation_rows out) i = Some r.
Proof.
  intros Hrun Hnth. apply classify_returns in Hrun.
  destruct Hrun as (_ & Hall & _).
  eapply all_some_nth with (i := i) in Hall as (r & Hr & Hout).
  - eauto.
  - now rewrite nth_error_map, Hnth.
Qed.

(** The counter is the counter of the table without the row, plus what
    the row's iteration adds. *)
Lemma error_count_nth tolerance l i row :
  nth_error l i = Some row ->
  error_count (loop tolerance l)
  = error_count (loop tolerance (firstn i l ++ skipn (S i) l))
    + counted tolerance row.
Proof.
  intro Hnth. apply nth_error_split in Hnth as (pre & post & -> & <-).
  rewrite firstn_app, Nat.sub_diag, firstn_all, app_nil_r.
  replace (skipn (S (List.length pre)) (pre ++ row :: post)) with post.
  - rewrite !loop_app, loop_cons. unfold counted. simpl. lia.
  - clear. induction pre as [|a pre IH]; simpl; auto.
Qed.

Lemma validate_inventory_classify to_numeric group_by tolerance filepath
      w cols validation_df w1 out w' :
  joined_table to_numeric group_by filepath w
  = (inr (cols, validation_df), w1) ->
  validate_inventory to_numeric group_by tolerance filepath w
  = (inr out, w') ->
  classify cols tolerance validation_df w1 = (inr out, w').
Proof.
  unfold validate_inventory, bind. intros ->. trivial.
Qed.

End Loop.

(** ** The classification of a joined row *)

Ltac run_step :=
  unfold result_row, verdict, reported, percent, counted, step, loop_body;
  repeat match goal with
    | H : ?b = _ |- context [if ?b then _ else _] => rewrite H
    end;
  cbn [append no_lists amount_x_list amount_y_list pct_diff_list conclusion
       error_count hd hd_error app Nat.add].

Section Rows.

Context {F : Type} {N : Number F}.
Variable to_numeric : string -> option F.

(** C1, as the code has it.  In a call of [validate_inventory] that
    returns, a row of the joined table whose inventory amount is not zero
    and whose reference amount is zero gives the row of the result at the
    same place, with the two amounts, [Percent_Difference] 100.0 and the
    [Conclusion] "Reference value is zero or null".  The iteration does not
    add to [error_count]: the counter the warning reports is the one of the
    table without the row. *)
Theorem reference_zero_row_not_counted
        group_by tolerance filepath w cols validation_df w1 out w' i row :
  joined_table to_numeric group_by filepath w
  = (inr (cols, validation_df), w1) ->
  validate_inventory to_numeric group_by tolerance filepath w
  = (inr out, w') ->
  nth_error validation_df i = Some row ->
  eqb (FlowAmount_x row) zero = false ->
  eqb (FlowAmount_y row) zero = true ->
  nth_error (validation_rows out) i
  = Some {| group := on_key row;
            Inventory_Amount := FlowAmount_x row;
            Reference_Amount := FlowAmount_y row;
            Percent_Difference := hundred;
            Conclusion := reference_zero |}
  /\ error_count (loop tolerance validation_df)
     = error_count
         (loop tolerance
               (firstn i validation_df ++ skipn (S i) validation_df)).
Proof.
  intros Hjoin Hrun Hnth Hx Hy.
  pose proof (validate_inventory_classify _ _ _ _ _ Hjoin Hrun) as Hclass.
  destruct (classify_row _ _ _ _ i Hclass Hnth) as (r & Hr & Hout).
  rewrite (error_count_nth tolerance _ _ Hnth), Hout. clear Hout.
  revert Hr. run_step. intro Hr; injection Hr as <-.
  split; [reflexivity|lia].
Qed.

Context {L : NumberLaws N}.



End Rows.

(** ** The rows of the scenarios, on binary64 *)

Example scenario_1_identical :
  views (fst (validate_inventory decimal_reader "flow" 5%float ""
                                 scenario_1))
  = inr [(["CO2"; "air"], 0%float, identical)].
Proof. vm_compute. reflexivity. Qed.

Example scenario_2_boundary :
  views (fst (validate_inventory decimal_reader "flow" 5%float ""
                                 scenario_2))
  = inr [(["CO2"; "air"], 5%float, similar)].
Proof. vm_compute. reflexivity. Qed.

Example scenario_4_both_zero :
  views (fst (validate_inventory decimal_reader "flow" 5%float ""
                                 scenario_4))
  = inr [(["CO2"; "air"], 0%float, both_zero)].
Proof. vm_compute. reflexivity. Qed.

(** The string is read as 1000.0 before anything is summed or compared, and
    the caller's inventory holds floats after the call. *)
Example scenario_6_parsed :
  let run := validate_inventory decimal_reader "flow" 5%float ""
                                scenario_6 in
  views (fst run) = inr [(["CO2"; "air"], 0%float, identical)]
  /\ inventory_df (snd run) = Float64 (flows [flow "CO2" 1000%float]).
Proof. vm_compute. split; reflexivity. Qed.

(** C1, as stated, fails on Scenario 5.  The call returns the row with the
    [Conclusion] "Reference value is zero or null" and [Percent_Difference]
    100.0, but the row is not counted: [error_count] is 0 after the loop and
    the call logs no warning. *)
Lemma reference_zero_row_is_not_an_error :
  validate_inventory (@no_reader float) "flow" 5%float "" scenario_5
  = (inr result_5, scenario_5)
  /\ error_count (loop 5%float joined_5) = 0
  /\ trace scenario_5 = [].
Proof. vm_compute. repeat split. Qed.

Lemma reference_zero_row_not_counted_witness :
  nth_error (validation_rows result_5) 0
  = Some {| group := ["SO2"; "air"]; Inventory_Amount := 50%float;
            Reference_Amount := 0%float; Percent_Difference := 100%float;
            Conclusion := reference_zero |}
  /\ error_count (loop 5%float joined_5) = error_count (loop 5%float []).
Proof.
  apply (@reference_zero_row_not_counted
           float binary64 (@no_reader float) "flow" 5%float "" scenario_5
           ["FlowName"; "Compartment"] joined_5 scenario_5 result_5
           scenario_5 0
           {| on_key := ["SO2"; "air"]; FlowAmount_x := 50%float;
              FlowAmount_y := 0%float |});
    vm_compute; reflexivity.
Defined.



(** ** The [group_by] argument *)

Section GroupBy.

Context {F : Type} {N : Number F}.
Variable to_numeric : string -> option F.

Lemma group_by_columns_unknown group_by (inventory : DataFrame F) :
  ~ In group_by ["flow"; "state"; "facility"; "subpart"] ->
  group_by_columns group_by inventory = None.
Proof.
  intro Hnot. unfold group_by_columns.
  repeat match goal with
    | |- context [String.eqb ?a ?b] =>
        destruct (String.eqb_spec a b) as [->|_];
        [exfalso; apply Hnot; simpl; tauto|]
    end.
  reflexivity.
Qed.

(** Lines 30-35 raise nothing but the [ValueError] of [pd.to_numeric], and
    have no effect besides the new [FlowAmount] column. *)
Lemma parse_inventory_outcome w :
  let r := parse_FlowAmount to_numeric get_inventory set_inventory w in
  trace (snd r) = trace w
  /\ reference_df (snd r) = reference_df w
  /\ forall e, fst r = inl e -> exists msg, e = ValueError msg.
Proof.
  unfold parse_FlowAmount, bind, get_inventory, set_inventory, ret, raise.
  destruct (inventory_df w) as [d|d]; simpl.
  - repeat split. discriminate.
  - destruct (to_numeric_column _ _); simpl; repeat split;
      try discriminate.
    intros e He. injection He as <-. eauto.
Qed.

Lemma parse_reference_outcome w :
  let r := parse_FlowAmount to_numeric get_reference set_reference w in
  trace (snd r) = trace w
  /\ inventory_df (snd r) = inventory_df w
  /\ forall e, fst r = inl e -> exists msg, e = ValueError msg.
Proof.
  unfold parse_FlowAmount, bind, get_reference, set_reference, ret, raise.
  destruct (reference_df w) as [d|d]; simpl.
  - repeat split. discriminate.
  - destruct (to_numeric_column _ _); simpl; repeat split;
      try discriminate.
    intros e He. injection He as <-. eauto.
Qed.

(** C10.  For a [group_by] that is none of 'flow', 'state', 'facility' and
    'subpart', whatever the two frames, the tolerance and the file path,
    the call raises: the [ValueError] of a [FlowAmount] that cannot be
    read, or else the [UnboundLocalError] of [group_by_columns], which no
    branch has assigned.  It returns no row, writes no file and logs
    nothing. *)
Theorem unknown_group_by_raises group_by tolerance filepath w :
  ~ In group_by ["flow"; "state"; "facility"; "subpart"] ->
  exists e w',
    validate_inventory to_numeric group_by tolerance filepath w = (inl e, w')
    /\ ((exists msg, e = ValueError msg)
        \/ e = UnboundLocalError "group_by_columns")
    /\ trace w' = trace w.
Proof.
  intro Hnot. unfold validate_inventory, joined_table.
  unfold bind at 1 2.
  destruct (parse_inventory_outcome w) as (Ht1 & _ & He1).
  destruct (parse_FlowAmount to_numeric get_inventory set_inventory w)
    as [[e|inventory] w1]; simpl in Ht1, He1.
  { exists e, w1. repeat split; auto. }
  unfold bind at 1.
  destruct (parse_reference_outcome w1) as (Ht2 & _ & He2).
  destruct (parse_FlowAmount to_numeric get_reference set_reference w1)
    as [[e|reference] w2]; simpl in Ht2, He2.
  { exists e, w2. repeat split; auto. congruence. }
  rewrite (group_by_columns_unknown _ Hnot).
  eexists _, _. split; [reflexivity|]. split; [now right|].
  simpl. congruence.
Qed.

End GroupBy.

Lemma unknown_group_by_raises_witness :
  exists e w',
    validate_inventory (@no_reader float) "compartment" 5%float ""
                       scenario_5
    = (inl e, w')
    /\ ((exists msg, e = ValueError msg)
        \/ e = UnboundLocalError "group_by_columns")
    /\ trace w' = trace scenario_5.
Proof.
  apply (@unknown_group_by_raises float binary64 (@no_reader float)
                                  "compartment" 5%float "" scenario_5).
  simpl. intros [H|[H|[H|[H|[]]]]]; discriminate.
Defined.

(** ** The provenance table *)

Lemma filter_none A (p : A -> bool) l :
  (forall x, In x l -> p x = false) -> filter p l = [].
Proof.
  induction l as [|a l IH]; simpl; intro Hall; trivial.
  rewrite (Hall a) by auto. auto.
Qed.

Lemma filter_all A (p : A -> bool) l :
  (forall x, In x l -> p x = false) -> filter (fun x => negb (p x)) l = l.
Proof.
  induction l as [|a l IH]; simpl; intro Hall; trivial.
  rewrite (Hall a) by auto. simpl. f_equal. auto.
Qed.

Lemma is_record_of_false inventory year r :
  ~ (Inventory r = inventory /\ Year r = year) ->
  is_record_of inventory year r = false.
Proof.
  intro Hnot. unfold is_record_of.
  destruct (String.eqb_spec (Inventory r) inventory);
    destruct (String.eqb_spec (Year r) year); trivial.
  exfalso. auto.
Qed.

(** C8.  When no record of the provenance table has the given inventory and
    year, [write_validation_result] creates the directory, logs where it
    writes, writes the validation result, logs the error "no validation
    metadata found" and returns: [write_metadata] is not called. *)
Theorem missing_provenance_skips_metadata
        F local_path source_metadata v_table inventory_acronym year
        (validation_df : validation_frame F) :
  (forall r, In r v_table ->
             ~ (Inventory r = inventory_acronym /\ Year r = year)) ->
  let directory := (local_path ++ "/validation/")%string in
  let effects :=
    write_validation_result local_path source_metadata v_table
                            inventory_acronym year validation_df in
  effects
  = [create_paths directory;
     log_info ("writing validation result to " ++ directory)%string;
     to_file (directory ++ inventory_acronym ++ "_" ++ year ++ ".csv")%string
             (validation_csv validation_df);
     log_error "no validation metadata found"]
  /\ forall file_name metadata datatype,
      ~ In (write_metadata file_name metadata datatype) effects.
Proof.
  intros Hnone directory effects. subst effects.
  unfold write_validation_result. rewrite filter_none.
  - split; [reflexivity|]. simpl.
    intros f m d [H|[H|[H|[H|[]]]]]; discriminate.
  - intros r Hin. apply is_record_of_false. auto.
Qed.

Lemma sorted_from_weaken lo lo' l :
  lo <= lo' -> sorted_from lo' l -> sorted_from lo l.
Proof. destruct l; simpl; intuition lia. Qed.

Lemma sorted_from_filter p lo l :
  sorted_from lo l -> sorted_from lo (filter p l).
Proof.
  revert lo. induction l as [|y l IH]; simpl; intros lo Hs; trivial.
  destruct Hs as [Hlo Hs]. destruct (p y); simpl.
  - auto.
  - apply IH. eapply sorted_from_weaken; eauto.
Qed.

Lemma sorted_from_with_index i table :
  sorted_from (row_label i) (with_index i table).
Proof.
  revert i. induction table as [|r table IH]; simpl; intro i; trivial.
  split; [lia|]. eapply sorted_from_weaken; [|apply IH].
  unfold row_label. simpl. lia.
Qed.

Lemma sorted_from_snoc lo l x :
  sorted_from lo l -> lo <= fst x -> (forall y, In y l -> fst y <= fst x) ->
  sorted_from lo (l ++ [x]).
Proof.
  revert lo. induction l as [|y l IH]; simpl; intros lo Hs Hlo Hall.
  - auto.
  - destruct Hs as [Hy Hs]. split; trivial. apply IH; auto.
Qed.

Lemma insert_line_head x l :
  sorted_from (fst x) l -> insert_line x l = x :: l.
Proof.
  destruct l as [|y l]; simpl; trivial. intros [Hle _].
  apply Nat.leb_le in Hle. now rewrite Hle.
Qed.

Lemma sort_above x l :
  sorted_from (S (fst x)) l -> fold_right insert_line [x] l = x :: l.
Proof.
  induction l as [|y l IH]; simpl; trivial. intros [Hlt Hs].
  rewrite IH by (eapply sorted_from_weaken; [|exact Hs]; lia).
  simpl. destruct (Nat.leb_spec (fst y) (fst x)); [lia|].
  now rewrite insert_line_head.
Qed.

Lemma sort_below lo l rest :
  sorted_from lo (l ++ rest) -> fold_right insert_line rest l = l ++ rest.
Proof.
  revert lo. induction l as [|y l IH]; simpl; intro lo; trivial.
  intros [_ Hs]. rewrite (IH _ Hs). now apply insert_line_head.
Qed.

(** [sort_index] puts the line appended at the end back between the lines
    below its label and the lines above it. *)
Lemma sort_index_line lo below above x :
  sorted_from lo (below ++ [x]) -> sorted_from (S (fst x)) above ->
  sort_index ((below ++ above) ++ [x]) = below ++ x :: above.
Proof.
  intros Hb Ha. unfold sort_index. rewrite !fold_right_app. simpl.
  rewrite (sort_above _ _ Ha). apply sort_below with (lo := lo).
  revert lo Hb. induction below as [|y l IH]; simpl; intros lo.
  - intros [Hlo _]. split; trivial.
    eapply sorted_from_weaken; [|exact Ha]. lia.
  - intros [Hlo Hs]. split; trivial. eauto.
Qed.

Lemma with_index_app i pre post :
  with_index i (pre ++ post)
  = with_index i pre ++ with_index (i + List.length pre) post.
Proof.
  revert i. induction pre as [|r pre IH]; simpl; intro i.
  - now rewrite Nat.add_0_r.
  - rewrite IH.
    now replace (i + S (List.length pre)) with (S i + List.length pre)
      by lia.
Qed.

Lemma map_snd_with_index i table : map snd (with_index i table) = table.
Proof.
  revert i. induction table as [|r table IH]; simpl; intro i; trivial.
  now rewrite IH.
Qed.

Lemma map_snd_filter_with_index (p : source_record -> bool) i table :
  map snd (filter (fun x => p (snd x)) (with_index i table))
  = filter p table.
Proof.
  revert i. induction table as [|r table IH]; simpl; intro i; trivial.
  destruct (p r); simpl; now rewrite IH.
Qed.

Lemma In_with_index i table x :
  In x (with_index i table) -> In (snd x) table.
Proof.
  revert i. induction table as [|r table IH]; simpl; intro i; trivial.
  intros [<-|Hin]; eauto.
Qed.

Lemma with_index_label i table x :
  In x (with_index i table) -> fst x < row_label (i + List.length table).
Proof.
  revert i. induction table as [|r table IH]; simpl; intro i; [tauto|].
  intros [<-|Hin].
  - unfold row_label. simpl. lia.
  - apply IH in Hin.
    now replace (i + S (List.length table)) with (S i + List.length table)
      by lia.
Qed.

Lemma last_row_of_none inventory i (table : list source_record) :
  (forall x, In x table -> Inventory x <> inventory) ->
  last_row_of inventory i (map Inventory table) = None.
Proof.
  revert i. induction table as [|x table IH]; simpl; intros i Hall; trivial.
  rewrite IH by (intros; apply Hall; simpl; auto).
  destruct (String.eqb_spec (Inventory x) inventory); trivial.
  exfalso. apply (Hall x); simpl; auto.
Qed.

Lemma last_row_of_spec inventory i pre (r : source_record) post :
  Inventory r = inventory ->
  (forall x, In x post -> Inventory x <> inventory) ->
  last_row_of inventory i (map Inventory (pre ++ r :: post))
  = Some (i + List.length pre).
Proof.
  intros Hr Hpost. revert i.
  assert (Hnone : forall i,
             last_row_of inventory i (map Inventory post) = None)
    by (intro; now apply last_row_of_none).
  induction pre as [|y pre IH]; simpl; intro i.
  - rewrite Hnone, Hr, String.eqb_refl. f_equal. lia.
  - rewrite IH. f_equal. lia.
Qed.

Section Upsert.

Variable F : Type.
Variable data_dir : string.
Variable today : string.

Lemma is_record_of_stamped d date_acquired :
  is_record_of (Inventory (stamped today d date_acquired))
               (Year (stamped today d date_acquired))
  = is_record_of (Inventory d) (Year d).
Proof. now destruct date_acquired. Qed.

(** The two cases of C9 in which the code does what the claim says.  Let
    the table be [pre ++ r :: post] and let no record of [pre]
    have the inventory and the year of the dictionary.  When [r] has them,
    the call writes the table in which the dictionary, with its date,
    stands where [r] stood, the records before and after in their order
    (a further record of [post] with that inventory and year is dropped).
    When no record has them and [r] is the last record of the dictionary's
    inventory, the call writes the table with the dictionary right after
    [r].  In both cases the table written is the one sorted by the labels
    of its index. *)
Theorem upsert_position pre r post d date_acquired :
  let is_existing := is_record_of (Inventory d) (Year d) in
  let d' := stamped today d date_acquired in
  (forall x, In x pre -> is_existing x = false) ->
  (is_existing r = true ->
   update_validationsets_sources F data_dir today (pre ++ r :: post) d
                                 date_acquired
   = persisted F data_dir
       (pre ++ d' :: filter (fun x => negb (is_existing x)) post))
  /\ (is_existing r = false ->
      (forall x, In x post -> is_existing x = false) ->
      Inventory r = Inventory d ->
      (forall x, In x post -> Inventory x <> Inventory d) ->
      update_validationsets_sources F data_dir today (pre ++ r :: post) d
                                    date_acquired
      = persisted F data_dir (pre ++ r :: d' :: post)).
Proof.
  intros is_existing d' Hpre.
  assert (Hd' : is_record_of (Inventory d') (Year d') = is_existing)
    by apply is_record_of_stamped.
  assert (Hpre' : forall x, In x (with_index 0 pre) ->
                            is_existing (snd x) = false)
    by (intros x Hin; apply Hpre; eapply In_with_index; eauto).
  unfold update_validationsets_sources, persisted.
  fold (stamped today d date_acquired).
  fold d'. rewrite Hd'. rewrite with_index_app. simpl.
  rewrite !filter_app. simpl.
  rewrite (filter_none (fun x => is_existing (snd x)) _ Hpre').
  rewrite (filter_all (fun x => is_existing (snd x)) _ Hpre').
  split.
  - intro Hr. rewrite Hr. simpl.
    rewrite (@sort_index_line 0).
    + rewrite map_app. simpl. rewrite map_snd_with_index.
      rewrite (map_snd_filter_with_index (fun x => negb (is_existing x))).
      reflexivity.
    + apply sorted_from_snoc.
      * apply (sorted_from_with_index 0).
      * unfold row_label, after_row; simpl; lia.
      * intros y Hin. apply with_index_label in Hin.
        unfold row_label, after_row in *. simpl in *. lia.
    + apply sorted_from_filter. simpl.
      eapply sorted_from_weaken; [|apply sorted_from_with_index].
      unfold row_label. lia.
  - intros Hr Hpost Hinv Hlast. rewrite Hr. simpl.
    assert (Hpost' : forall x,
               In x (with_index (S (List.length pre)) post) ->
               is_existing (snd x) = false)
      by (intros x Hin; apply Hpost; eapply In_with_index; eauto).
    rewrite (filter_none (fun x => is_existing (snd x)) _ Hpost').
    replace (Inventory d') with (Inventory d) by now destruct date_acquired.
    rewrite (@last_row_of_spec (Inventory d) 0 pre r post Hinv Hlast).
    simpl.
    change (with_index 0 pre
            ++ (row_label (List.length pre), r)
               :: with_index (S (List.length pre)) post)
      with (with_index 0 pre
            ++ [(row_label (List.length pre), r)]
            ++ with_index (S (List.length pre)) post).
    rewrite app_assoc.
    rewrite (@sort_index_line 0).
    + rewrite !map_app. simpl. rewrite !map_snd_with_index.
      rewrite <- app_assoc. reflexivity.
    + apply sorted_from_snoc.
      * apply sorted_from_snoc.
        -- apply (sorted_from_with_index 0).
        -- unfold row_label, after_row; simpl; lia.
        -- intros y Hin. apply with_index_label in Hin.
           unfold row_label, after_row in *. simpl in *. lia.
      * unfold row_label, after_row; simpl; lia.
      * intros y Hin. apply in_app_iff in Hin as [Hin|[<-|[]]].
        -- apply with_index_label in Hin.
           unfold row_label, after_row in *. simpl in *. lia.
        -- unfold row_label, after_row. simpl. lia.
    + simpl. eapply sorted_from_weaken; [|apply sorted_from_with_index].
      unfold row_label, after_row. lia.
Qed.

(** Beside C9: when the table has no record of the dictionary's inventory
    at all, [max] is given an empty generator and the call raises before it
    writes. *)
Lemma upsert_new_inventory_raises v_table d date_acquired :
  (forall x, In x v_table -> Inventory x <> Inventory d) ->
  update_validationsets_sources F data_dir today v_table d date_acquired
  = (inl (ValueError "max() arg is an empty sequence"), []).
Proof.
  intro Hnone. unfold update_validationsets_sources.
  fold (stamped today d date_acquired).
  replace (Inventory (stamped today d date_acquired)) with (Inventory d)
    by now destruct date_acquired.
  rewrite filter_none.
  - now rewrite last_row_of_none.
  - intros x Hin. apply In_with_index in Hin. unfold is_record_of.
    destruct (String.eqb_spec (Inventory (snd x)) (Inventory d)); trivial.
    exfalso. eapply Hnone; eauto.
Qed.

End Upsert.

Lemma missing_provenance_skips_metadata_witness :
  let effects :=
    write_validation_result "~/stewi" [("SourceType", "Static File")]
                            sample_sources "TRI" "2017" sample_result in
  effects
  = [create_paths "~/stewi/validation/";
     log_info "writing validation result to ~/stewi/validation/";
     to_file "~/stewi/validation/TRI_2017.csv"
             (validation_csv sample_result);
     log_error "no validation metadata found"]
  /\ forall file_name metadata datatype,
      ~ In (write_metadata file_name metadata datatype) effects.
Proof.
  apply (@missing_provenance_skips_metadata
           float "~/stewi" [("SourceType", "Static File")] sample_sources
           "TRI" "2017" sample_result).
  simpl. intros r [<-|[<-|[<-|[]]]] [H1 H2]; discriminate.
Defined.

Lemma upsert_position_witness :
  update_validationsets_sources
    float "data/" "04-Nov-2026" sample_sources (revised_source "NEI" "2017")
    false
  = persisted float "data/"
      [source "NEI" "2016";
       set_Date_Acquired (revised_source "NEI" "2017") "04-Nov-2026";
       source "TRI" "2016"]
  /\ update_validationsets_sources
       float "data/" "04-Nov-2026" sample_sources (source "NEI" "2018") true
     = persisted float "data/"
         [source "NEI" "2016"; source "NEI" "2017"; source "NEI" "2018";
          source "TRI" "2016"].
Proof.
  split.
  - apply (@upsert_position
             float "data/" "04-Nov-2026" [source "NEI" "2016"]
             (source "NEI" "2017") [source "TRI" "2016"]
             (revised_source "NEI" "2017") false).
    + simpl. intros x [<-|[]]. reflexivity.
    + reflexivity.
  - apply (@upsert_position
             float "data/" "04-Nov-2026" [source "NEI" "2016"]
             (source "NEI" "2017") [source "TRI" "2016"]
             (source "NEI" "2018") true).
    + simpl. intros x [<-|[]]. reflexivity.
    + reflexivity.
    + simpl. intros x [<-|[]]. reflexivity.
    + reflexivity.
    + simpl. intros x [<-|[]]. discriminate.
Defined.

(** C9, where the code fails.  The table holds records of NEI and of TRI
    and the dictionary is of eGRID and 2018: no record has its inventory
    and year, and the function, which "adds or replaces" by its docstring,
    is to add it.  No record has its inventory either: [max] is given an
    empty generator, the call raises [ValueError], and nothing is logged or
    written. *)
Lemma new_inventory_is_not_added :
  filter (is_record_of "eGRID" "2018") sample_sources = []
  /\ update_validationsets_sources
       float "data/" "04-Nov-2026" sample_sources (source "eGRID" "2018")
       false
     = (inl (ValueError "max() arg is an empty sequence"), []).
Proof. split; reflexivity. Qed.

(** ** Keys, aggregation and the outer join *)

Lemma key_compare_eq a b : key_compare a b = Eq <-> a = b.
Proof.
  revert b. induction a as [|x a IH]; intros [|y b]; simpl;
    try (split; [discriminate|discriminate]); try tauto.
  destruct (String.compare x y) eqn:E.
  - apply String.compare_eq_iff in E. subst y. rewrite IH.
    split; [now intros ->|now intros [=]].
  - split; [discriminate|]. intros [= -> _].
    assert (H : String.compare y y = Eq) by now apply String_as_OT.cmp_eq.
    congruence.
  - split; [discriminate|]. intros [= -> _].
    assert (H : String.compare y y = Eq) by now apply String_as_OT.cmp_eq.
    congruence.
Qed.

Lemma key_compare_refl a : key_compare a a = Eq.
Proof. now apply key_compare_eq. Qed.

Lemma key_eqb_eq a b : key_eqb a b = true <-> a = b.
Proof.
  unfold key_eqb. rewrite <- key_compare_eq.
  destruct (key_compare a b); split; congruence.
Qed.

Lemma key_eqb_refl a : key_eqb a a = true.
Proof. now apply key_eqb_eq. Qed.

Lemma key_compare_antisym a b : key_compare b a = CompOpp (key_compare a b).
Proof.
  revert b. induction a as [|x a IH]; intros [|y b]; simpl; trivial.
  rewrite (String.compare_antisym x y).
  destruct (String.compare y x); simpl; auto.
Qed.

Lemma key_lt_trans a b c : key_lt a b -> key_lt b c -> key_lt a c.
Proof.
  unfold key_lt. revert b c.
  induction a as [|x a IH]; intros [|y b] [|z c]; simpl; try discriminate;
    trivial.
  destruct (String.compare x y) eqn:Exy; try discriminate.
  - apply String.compare_eq_iff in Exy. subst y.
    destruct (String.compare x z); try discriminate; eauto.
  - intros _. destruct (String.compare y z) eqn:Eyz; try discriminate.
    + apply String.compare_eq_iff in Eyz. subst z. now rewrite Exy.
    + intros _.
      assert (H : String.compare x z = Lt).
      { apply String_as_OT.cmp_lt.
        eapply String_as_OT.lt_trans; apply String_as_OT.cmp_lt; eauto. }
      now rewrite H.
Qed.

Lemma key_lt_irrefl a : ~ key_lt a a.
Proof. unfold key_lt. now rewrite key_compare_refl. Qed.

Lemma In_insert_key k l x : In x (insert_key k l) <-> x = k \/ In x l.
Proof.
  induction l as [|k' l IH]; simpl.
  - intuition.
  - destruct (key_compare k k') eqn:E; simpl.
    + apply key_compare_eq in E. subst k'. intuition.
    + intuition.
    + rewrite IH. intuition.
Qed.

Lemma In_sorted_keys l x : In x (sorted_keys l) <-> In x l.
Proof.
  induction l as [|k l IH]; simpl; [tauto|].
  rewrite In_insert_key, IH. intuition.
Qed.

Lemma insert_key_sorted k l :
  StronglySorted key_lt l -> StronglySorted key_lt (insert_key k l).
Proof.
  induction 1 as [|k' l Hs IH Hall]; simpl.
  - repeat constructor.
  - destruct (key_compare k k') eqn:E.
    + now constructor.
    + constructor; [now constructor|]. constructor; trivial.
      eapply Forall_impl; [|exact Hall]. intros c. now apply key_lt_trans.
    + constructor; trivial. apply Forall_forall. intros x Hin.
      apply In_insert_key in Hin as [->|Hin].
      * unfold key_lt. now rewrite key_compare_antisym, E.
      * rewrite Forall_forall in Hall. auto.
Qed.

Lemma sorted_keys_sorted l : StronglySorted key_lt (sorted_keys l).
Proof.
  induction l; simpl; [constructor|now apply insert_key_sorted].
Qed.

Lemma sorted_NoDup l : StronglySorted key_lt l -> NoDup l.
Proof.
  induction 1 as [|k l Hs IH Hall]; constructor; trivial.
  intro Hin. rewrite Forall_forall in Hall.
  now apply (@key_lt_irrefl k), Hall.
Qed.

Lemma sorted_keys_NoDup l : NoDup (sorted_keys l).
Proof. apply sorted_NoDup, sorted_keys_sorted. Qed.

Lemma In_distinct l x : In x (distinct l) <-> In x l.
Proof.
  induction l as [|k l IH]; simpl; [tauto|].
  rewrite filter_In, IH. split.
  - intros [->|[Hin _]]; auto.
  - intros [->|Hin]; auto.
    destruct (key_eqb x k) eqn:E.
    + apply key_eqb_eq in E. auto.
    + right. split; trivial.
Qed.

Lemma NoDup_filter_key (p : key -> bool) l : NoDup l -> NoDup (filter p l).
Proof.
  induction 1 as [|k l Hnot Hnd IH]; simpl; [constructor|].
  destruct (p k); trivial. constructor; trivial.
  rewrite filter_In. tauto.
Qed.

Lemma distinct_NoDup l : NoDup (distinct l).
Proof.
  induction l as [|k l IH]; simpl; constructor.
  - rewrite filter_In, key_eqb_refl. intros [_ H]. discriminate.
  - now apply NoDup_filter_key.
Qed.

Lemma filter_other_keys k l :
  ~ In k l -> filter (fun k' => negb (key_eqb k' k)) l = l.
Proof.
  induction l as [|x l IH]; simpl; intro Hnot; trivial.
  destruct (key_eqb x k) eqn:E.
  - apply key_eqb_eq in E. subst x. tauto.
  - simpl. f_equal. tauto.
Qed.

Lemma distinct_id l : NoDup l -> distinct l = l.
Proof.
  induction 1 as [|k l Hnot Hnd IH]; simpl; trivial.
  now rewrite IH, filter_other_keys.
Qed.

(** The keys of [b] that [a] does not have. *)
Lemma distinct_app a b :
  NoDup a -> NoDup b ->
  distinct (a ++ b)
  = a ++ filter (fun k => negb (existsb (key_eqb k) a)) b.
Proof.
  intros Ha Hb. induction Ha as [|k a Hnot Ha IH]; simpl.
  - rewrite distinct_id by trivial. clear.
    induction b as [|x b IH]; simpl; congruence.
  - rewrite IH, filter_app, filter_other_keys by trivial. f_equal. f_equal.
    clear. induction b as [|x b IH]; simpl; trivial.
    destruct (key_eqb x k) eqn:E; simpl.
    + destruct (existsb (key_eqb x) a); simpl; rewrite ?E; simpl; trivial.
    + destruct (existsb (key_eqb x) a); simpl; rewrite ?E; simpl; trivial.
      now f_equal.
Qed.

Section Join.

Context {F : Type} {N : Number F}.

Lemma filter_key_absent k (s : sums F) :
  ~ In k (map fst s) -> filter (fun p => key_eqb (fst p) k) s = [].
Proof.
  intro Hnot. apply filter_none. intros p Hin.
  destruct (key_eqb (fst p) k) eqn:E; trivial.
  apply key_eqb_eq in E. exfalso. apply Hnot. subst k. now apply in_map.
Qed.

Lemma side_absent k (s : sums F) : ~ In k (map fst s) -> side k s = [nan].
Proof. intro Hnot. unfold side. now rewrite filter_key_absent. Qed.

Lemma side_single k (s : sums F) :
  NoDup (map fst s) -> side k s = [value k s].
Proof.
  unfold value. induction s as [|p s IH]; simpl; intro Hnd; [reflexivity|].
  inversion Hnd as [|? ? Hnot Hnd']; subst. unfold side in *. simpl.
  destruct (key_eqb (fst p) k) eqn:E.
  - apply key_eqb_eq in E. subst k. now rewrite filter_key_absent.
  - auto.
Qed.

Lemma value_present k v (s : sums F) :
  NoDup (map fst s) -> In (k, v) s -> value k s = v.
Proof.
  unfold value, side. induction s as [|p s IH]; simpl; intros Hnd Hin;
    [tauto|].
  inversion Hnd as [|? ? Hnot Hnd']; subst.
  destruct Hin as [->|Hin]; simpl.
  - rewrite key_eqb_refl. reflexivity.
  - destruct (key_eqb (fst p) k) eqn:E.
    + apply key_eqb_eq in E. exfalso. apply Hnot. subst k.
      now apply (in_map fst) in Hin.
    + auto.
Qed.

Lemma merge_outer_eq (l r : sums F) :
  NoDup (map fst l) -> NoDup (map fst r) ->
  merge_outer l r
  = map (joined_row l r) (distinct (map fst l ++ map fst r)).
Proof.
  intros Hl Hr. unfold merge_outer.
  induction (distinct (map fst l ++ map fst r)) as [|k ks IH]; simpl;
    [reflexivity|].
  rewrite IH, (@side_single k l Hl), (@side_single k r Hr). reflexivity.
Qed.

Lemma groupby_sum_keys cols (l : list (record F)) :
  map fst (groupby_sum cols l) = sorted_keys (present_keys cols l).
Proof.
  unfold groupby_sum. rewrite map_map. simpl. apply map_id.
Qed.

Lemma groupby_sum_NoDup cols (l : list (record F)) :
  NoDup (map fst (groupby_sum cols l)).
Proof. rewrite groupby_sum_keys. apply sorted_keys_NoDup. Qed.

Lemma groupby_sum_value cols (l : list (record F)) k :
  In k (map fst (groupby_sum cols l)) ->
  value k (groupby_sum cols l) = group_total cols l k.
Proof.
  intro Hin. apply value_present; [apply groupby_sum_NoDup|].
  rewrite groupby_sum_keys in Hin. unfold groupby_sum.
  apply in_map_iff. eauto.
Qed.

Context {L : NumberLaws N}.

Lemma fillna_cell_nan : fillna_cell nan = zero.
Proof. unfold fillna_cell. now rewrite isna_nan. Qed.

Lemma joined_rows cols (inventory reference : list (record F)) row :
  In row (map fillna_joined
              (merge_outer (groupby_sum cols inventory)
                           (groupby_sum cols reference))) ->
  row = fillna_joined (joined_row (groupby_sum cols inventory)
                                  (groupby_sum cols reference)
                                  (on_key row)).
Proof.
  rewrite (@merge_outer_eq _ _ (groupby_sum_NoDup cols inventory)
                           (groupby_sum_NoDup cols reference)), map_map.
  intro Hin. apply in_map_iff in Hin as (k & <- & _). reflexivity.
Qed.

Lemma outer_join_rows cols (inventory reference : list (record F)) :
  let inventory_sums := groupby_sum cols inventory in
  let reference_sums := groupby_sum cols reference in
  let validation_df :=
    map fillna_joined (merge_outer inventory_sums reference_sums) in
  NoDup (map (@on_key F) validation_df)
  /\ (forall k, In k (map (@on_key F) validation_df)
                <-> In k (map fst inventory_sums)
                    \/ In k (map fst reference_sums))
  /\ Nat.max (List.length inventory_sums) (List.length reference_sums)
     <= List.length validation_df
  /\ (forall row, In row validation_df ->
        ~ In (on_key row) (map fst inventory_sums) ->
        FlowAmount_x row = zero)
  /\ (forall row, In row validation_df ->
        ~ In (on_key row) (map fst reference_sums) ->
        FlowAmount_y row = zero)
  /\ (forall row, In row validation_df ->
        In (on_key row) (map fst inventory_sums) ->
        FlowAmount_x row
        = fillna_cell (group_total cols inventory (on_key row)))
  /\ (forall row, In row validation_df ->
        In (on_key row) (map fst reference_sums) ->
        FlowAmount_y row
        = fillna_cell (group_total cols reference (on_key row))).
Proof.
  intros inventory_sums reference_sums validation_df.
  pose proof (groupby_sum_NoDup cols inventory) as Hl.
  pose proof (groupby_sum_NoDup cols reference) as Hr.
  fold inventory_sums in Hl. fold reference_sums in Hr.
  assert (Hkeys : map (@on_key F) validation_df
                  = distinct (map fst inventory_sums
                              ++ map fst reference_sums)).
  { unfold validation_df. rewrite (@merge_outer_eq _ _ Hl Hr), !map_map.
    simpl. apply map_id. }
  split; [|split; [|split; [|repeat split]]].
  - rewrite Hkeys. apply distinct_NoDup.
  - intro k. rewrite Hkeys, In_distinct, in_app_iff. tauto.
  - rewrite <- (length_map (@on_key F) validation_df), Hkeys.
    rewrite <- (length_map fst inventory_sums).
    rewrite <- (length_map fst reference_sums).
    apply Nat.max_lub; apply NoDup_incl_length; trivial;
      intros k Hin; apply In_distinct, in_app_iff; auto.
  - intros row Hin Hk. pose proof (joined_rows _ _ _ _ Hin) as E.
    destruct row as [k x y]. injection E as -> ->.
    unfold inventory_sums, reference_sums in *. simpl in *.
    unfold value. rewrite (@side_absent _ _ Hk). apply fillna_cell_nan.
  - intros row Hin Hk. pose proof (joined_rows _ _ _ _ Hin) as E.
    destruct row as [k x y]. injection E as -> ->.
    unfold inventory_sums, reference_sums in *. simpl in *.
    unfold value. rewrite (@side_absent _ _ Hk). apply fillna_cell_nan.
  - intros row Hin Hk. pose proof (joined_rows _ _ _ _ Hin) as E.
    destruct row as [k x y]. injection E as -> ->.
    unfold inventory_sums, reference_sums in *. simpl in *.
    now rewrite groupby_sum_value.
  - intros row Hin Hk. pose proof (joined_rows _ _ _ _ Hin) as E.
    destruct row as [k x y]. injection E as -> ->.
    unfold inventory_sums, reference_sums in *. simpl in *.
    now rewrite groupby_sum_value.
Qed.

End Join.

Section Returns.

Context {F : Type} {N : Number F}.
Variable to_numeric : string -> option F.

Lemma parse_inventory_returns w d w1 :
  parse_FlowAmount to_numeric get_inventory set_inventory w = (inr d, w1) ->
  to_float64 to_numeric (inventory_df w) = Some d
  /\ reference_df w1 = reference_df w /\ trace w1 = trace w.
Proof.
  unfold parse_FlowAmount, bind, get_inventory, set_inventory, ret, raise,
    to_float64.
  destruct (inventory_df w) as [d0|d0]; simpl.
  - intros [= <- <-]. auto.
  - destruct (to_numeric_column _ _); simpl; [|discriminate].
    intros [= <- <-]. auto.
Qed.

Lemma parse_reference_returns w d w1 :
  parse_FlowAmount to_numeric get_reference set_reference w = (inr d, w1) ->
  to_float64 to_numeric (reference_df w) = Some d
  /\ inventory_df w1 = inventory_df w /\ trace w1 = trace w.
Proof.
  unfold parse_FlowAmount, bind, get_reference, set_reference, ret, raise,
    to_float64.
  destruct (reference_df w) as [d0|d0]; simpl.
  - intros [= <- <-]. auto.
  - destruct (to_numeric_column _ _); simpl; [|discriminate].
    intros [= <- <-]. auto.
Qed.

Lemma select_returns cols (df : DataFrame F) w l w1 :
  select cols df w = (inr l, w1) ->
  l = rows df /\ w1 = w /\ missing_columns cols df = [].
Proof.
  unfold select, ret, raise.
  destruct (missing_columns cols df); [|discriminate].
  now intros [= <- <-].
Qed.

Lemma joined_table_returns group_by filepath w cols validation_df w1 :
  joined_table to_numeric group_by filepath w
  = (inr (cols, validation_df), w1) ->
  exists inventory reference,
    to_float64 to_numeric (inventory_df w) = Some inventory
    /\ to_float64 to_numeric (reference_df w) = Some reference
    /\ group_by_columns group_by inventory = Some cols
    /\ missing_columns cols inventory = []
    /\ missing_columns cols reference = []
    /\ validation_df = joined_of cols (fillna inventory) (fillna reference)
    /\ inventory_df w1 = Float64 (fillna inventory)
    /\ reference_df w1 = Float64 (fillna reference)
    /\ trace w1 = trace w ++ written cols (fillna reference) filepath.
Proof.
  unfold joined_table. unfold bind at 1.
  destruct (parse_FlowAmount to_numeric get_inventory set_inventory w)
    as [[e|inventory] wa] eqn:Ea; [discriminate|].
  apply parse_inventory_returns in Ea as (Hi & Hra & Hta).
  unfold bind at 1.
  destruct (parse_FlowAmount to_numeric get_reference set_reference wa)
    as [[e|reference] wb] eqn:Eb; [discriminate|].
  apply parse_reference_returns in Eb as (Hr & Hib & Htb).
  rewrite Hra in Hr.
  unfold bind at 1 2; simpl.
  destruct (group_by_columns group_by inventory) as [cols'|] eqn:Hg;
    [|discriminate].
  unfold bind at 1; simpl. unfold bind at 1.
  match goal with |- context [select cols' (fillna inventory) ?w0] =>
    destruct (select cols' (fillna inventory) w0) as [[e|li] wc] eqn:Ec
  end; [discriminate|].
  apply select_returns in Ec as (-> & -> & Hmi).
  unfold bind at 1.
  match goal with |- context [select cols' (fillna reference) ?w0] =>
    destruct (select cols' (fillna reference) w0) as [[e|lr] wd] eqn:Ed
  end; [discriminate|].
  apply select_returns in Ed as (-> & -> & Hmr).
  unfold bind, ret, emit, written, joined_of.
  destruct (String.eqb filepath ""); simpl; intros [= <- <- <-];
    exists inventory, reference; simpl;
    rewrite ?app_nil_r; repeat split; try congruence;
    try exact Hmi; exact Hmr.
Qed.

Context {L : NumberLaws N}.

(** C3.  In a call of [validate_inventory] whose lines 30-56 do not raise,
    let the two aggregations be those of the two frames as the call leaves
    them.  The joined table has no key twice; its keys are the keys of the
    inventory aggregation and those of the reference aggregation; it has at
    least as many rows as the larger aggregation; and in a row whose key one
    aggregation does not have, the amount of that side is [0.0], while the
    amount of a side that has the key is its sum, a missing sum read as
    [0.0]. *)
Theorem outer_join_complete
        group_by filepath w cols validation_df w1 inventory reference :
  joined_table to_numeric group_by filepath w
  = (inr (cols, validation_df), w1) ->
  inventory_df w1 = Float64 inventory ->
  reference_df w1 = Float64 reference ->
  let inventory_sums := groupby_sum cols (rows inventory) in
  let reference_sums := groupby_sum cols (rows reference) in
  NoDup (map (@on_key F) validation_df)
  /\ (forall k, In k (map (@on_key F) validation_df)
                <-> In k (map fst inventory_sums)
                    \/ In k (map fst reference_sums))
  /\ Nat.max (List.length inventory_sums) (List.length reference_sums)
     <= List.length validation_df
  /\ (forall row, In row validation_df ->
        ~ In (on_key row) (map fst inventory_sums) ->
        FlowAmount_x row = zero)
  /\ (forall row, In row validation_df ->
        ~ In (on_key row) (map fst reference_sums) ->
        FlowAmount_y row = zero)
  /\ (forall row, In row validation_df ->
        In (on_key row) (map fst inventory_sums) ->
        FlowAmount_x row
        = fillna_cell (group_total cols (rows inventory) (on_key row)))
  /\ (forall row, In row validation_df ->
        In (on_key row) (map fst reference_sums) ->
        FlowAmount_y row
        = fillna_cell (group_total cols (rows reference) (on_key row))).
Proof.
  intros Hjoin Hinv Href.
  apply joined_table_returns in Hjoin
    as (inv0 & ref0 & _ & _ & _ & _ & _ & -> & Hi & Hr & _).
  assert (inventory = fillna inv0) as -> by congruence.
  assert (reference = fillna ref0) as -> by congruence.
  apply outer_join_rows.
Qed.

End Returns.

(** ** Exact arithmetic *)

Local Open Scope Qc_scope.

Lemma Qc_pos_nonzero (k : Qc) : 0 < k -> k <> 0.
Proof. intros Hk E. rewrite E in Hk. discriminate Hk. Qed.

Lemma scale_pct (k a b : Qc) :
  0 < k -> b <> 0 ->
  (Q2Qc 100 * Qcabs (k * b + - (k * a))) / (k * b)
  = (Q2Qc 100 * Qcabs (b + - a)) / b.
Proof.
  intros Hk Hb.
  replace (k * b + - (k * a)) with (k * (b + - a)) by ring.
  rewrite Qcabs_Qcmult, (Qcabs_pos k) by now apply Qclt_le_weak.
  field. split; trivial. now apply Qc_pos_nonzero.
Qed.
Lemma exact_add_assoc x y z :
  Exact.add (Exact.add x y) z = Exact.add x (Exact.add y z).
Proof. destruct x, y, z; simpl; trivial. f_equal. ring. Qed.
Lemma exact_add_comm x y : Exact.add x y = Exact.add y x.
Proof. destruct x, y; simpl; trivial. f_equal. ring. Qed.
Lemma exact_add_zero_l x : Exact.add (Fin 0) x = x.
Proof. destruct x; simpl; trivial. f_equal. ring. Qed.

Local Close Scope Qc_scope.

(** ** The sum of an aggregation *)

Section Conservation.

Context {F : Type} {N : Number F}.

Hypothesis add_assoc : forall x y z : F, add (add x y) z = add x (add y z).
Hypothesis add_comm : forall x y : F, add x y = add y x.
Hypothesis add_zero_l : forall x : F, add zero x = x.

Lemma fold_left_add l (a : F) : fold_left add l a = add a (total l).
Proof.
  unfold total. revert a. induction l as [|x l IH]; intro a; simpl.
  - now rewrite add_comm, add_zero_l.
  - rewrite IH, (IH (add zero x)), add_zero_l. apply add_assoc.
Qed.

Lemma total_cons (x : F) l : total (x :: l) = add x (total l).
Proof. unfold total at 1. simpl. now rewrite fold_left_add, add_zero_l. Qed.

Lemma total_zeros A (l : list A) : total (map (fun _ => zero) l) = zero.
Proof.
  induction l as [|a l IH]; [reflexivity|].
  simpl. now rewrite total_cons, IH, add_zero_l.
Qed.

(** Adding [a] to the term of one key of a list of distinct keys adds [a]
    to the sum. *)
Lemma total_bump (g : key -> F) (a : F) k0 ks :
  NoDup ks -> In k0 ks ->
  total (map (fun k => if key_eqb k0 k then add a (g k) else g k) ks)
  = add a (total (map g ks)).
Proof.
  induction ks as [|k ks IH]; simpl; intros Hnd Hin; [tauto|].
  inversion Hnd as [|? ? Hnot Hnd']; subst.
  rewrite !total_cons. destruct (key_eqb k0 k) eqn:E.
  - apply key_eqb_eq in E. subst k.
    rewrite add_assoc. f_equal. f_equal. f_equal. apply map_ext_in.
    intros k Hk. destruct (key_eqb k0 k) eqn:E'; trivial.
    apply key_eqb_eq in E'. now subst k.
  - destruct Hin as [->|Hin]; [now rewrite key_eqb_refl in E|].
    rewrite IH by trivial.
    now rewrite <- !add_assoc, (add_comm (g k) a).
Qed.

Lemma rows_total_cons cols (r : record F) l k :
  rows_total cols (r :: l) k
  = if has_key cols k r then add (FlowAmount r) (rows_total cols l k)
    else rows_total cols l k.
Proof.
  unfold rows_total. simpl. destruct (has_key cols k r); trivial.
  simpl. apply total_cons.
Qed.

Lemma rows_totals cols (l : list (record F)) ks :
  NoDup ks -> incl (present_keys cols l) ks ->
  total (map (rows_total cols l) ks)
  = total (map (@FlowAmount F) (filter (keyed cols) l)).
Proof.
  intros Hnd. induction l as [|r l IH]; simpl; intro Hincl.
  - apply total_zeros.
  - unfold keyed at 1. destruct (row_key cols r) as [k0|] eqn:Hk.
    + simpl. rewrite total_cons, <- IH
        by (intros k Hin; apply Hincl; now right).
      rewrite <- (@total_bump (rows_total cols l) (FlowAmount r) k0 ks Hnd)
        by (apply Hincl; now left).
      f_equal. apply map_ext. intro k. rewrite rows_total_cons.
      unfold has_key. now rewrite Hk.
    + rewrite <- IH by trivial. f_equal. apply map_ext. intro k.
      rewrite rows_total_cons. unfold has_key. now rewrite Hk.
Qed.

(** Where the compensated sum of every group is the plain sum of its rows,
    the groups sum to what the rows sum to. *)
Lemma groupby_sum_total cols (l : list (record F)) :
  (forall k, group_total cols l k = rows_total cols l k) ->
  total (map snd (groupby_sum cols l))
  = total (map (@FlowAmount F) (filter (keyed cols) l)).
Proof.
  intro Hplain. unfold groupby_sum. rewrite map_map. simpl.
  rewrite (map_ext _ _ Hplain).
  apply rows_totals.
  - apply sorted_keys_NoDup.
  - intros k Hin. now apply In_sorted_keys.
Qed.

End Conservation.

(** ** The outcome of a call on frames of floats *)

Section Forward.

Context {F : Type} {N : Number F}.
Variable to_numeric : string -> option F.

Lemma all_some_length tolerance (l : list (joined F)) r :
  all_some (map (result_row tolerance) l) = Some r ->
  List.length (flat_map (verdict_list tolerance) l) = List.length l.
Proof.
  revert r. induction l as [|row l IH]; intro r; [reflexivity|].
  cbn [map all_some flat_map List.length]. rewrite length_app.
  unfold result_row at 1. unfold verdict_list at 1.
  destruct (verdict tolerance row); [|discriminate].
  destruct (all_some _) eqn:E; [|discriminate]. intros _.
  rewrite (IH _ eq_refl). reflexivity.
Qed.

Lemma classify_fst cols tolerance validation_df w :
  fst (classify cols tolerance validation_df w)
  = match all_some (map (result_row tolerance) validation_df) with
    | Some r => inr {| key_columns := cols; validation_rows := r |}
    | None =>
        inl (ValueError "Length of values does not match length of index")
    end.
Proof.
  unfold classify, assign_columns, check_length, bind, ret, raise, emit.
  rewrite loop_eq; simpl. rewrite !length_map, Nat.eqb_refl.
  destruct (Nat.eqb _ _) eqn:E.
  - apply Nat.eqb_eq in E. rewrite (build_rows_complete _ _ E).
    now destruct (Nat.ltb _ _).
  - destruct (all_some _) eqn:Hall; trivial.
    apply all_some_length in Hall. apply Nat.eqb_neq in E. tauto.
Qed.

Lemma missing_columns_fillna cols (df : DataFrame F) :
  missing_columns cols (fillna df) = missing_columns cols df.
Proof. reflexivity. Qed.

Lemma joined_table_float64 group_by filepath inventory reference tr :
  let w1 := {| inventory_df := Float64 (fillna inventory);
               reference_df := Float64 (fillna reference); trace := tr |} in
  joined_table to_numeric group_by filepath
    {| inventory_df := Float64 inventory;
       reference_df := Float64 reference; trace := tr |}
  = match group_by_columns group_by inventory with
    | None => (inl (UnboundLocalError "group_by_columns"), w1)
    | Some cols =>
        match missing_columns cols inventory, missing_columns cols reference
        with
        | [], [] =>
            (inr (cols, joined_of cols (fillna inventory) (fillna reference)),
             {| inventory_df := Float64 (fillna inventory);
                reference_df := Float64 (fillna reference);
                trace := tr ++ written cols (fillna reference) filepath |})
        | [], missing | missing, _ => (inl (KeyError missing), w1)
        end
    end.
Proof.
  intro w1. subst w1.
  cbv [joined_table parse_FlowAmount bind get_inventory set_inventory
       get_reference set_reference ret raise select emit].
  cbn [inventory_df reference_df trace].
  destruct (group_by_columns group_by inventory) as [cols|]; [|reflexivity].
  fold (missing_columns cols (fillna inventory)).
  fold (missing_columns cols (fillna reference)).
  rewrite !missing_columns_fillna.
  destruct (missing_columns cols inventory); [|reflexivity].
  destruct (missing_columns cols reference); [|reflexivity].
  unfold written, joined_of.
  destruct (String.eqb filepath ""); cbn [inventory_df reference_df trace];
    now rewrite ?app_nil_r.
Qed.

Lemma validate_inventory_float64
      group_by tolerance filepath inventory reference tr :
  fst (validate_inventory to_numeric group_by tolerance filepath
         {| inventory_df := Float64 inventory;
            reference_df := Float64 reference; trace := tr |})
  = outcome_float64 group_by tolerance inventory reference.
Proof.
  unfold validate_inventory, outcome_float64. unfold bind.
  rewrite joined_table_float64.
  destruct (group_by_columns group_by inventory) as [cols|]; [|reflexivity].
  destruct (missing_columns cols inventory); [|reflexivity].
  destruct (missing_columns cols reference); [|reflexivity].
  apply classify_fst.
Qed.

End Forward.

(** ** Frames of finite amounts, and their scaling *)

Lemma row_key_set A B cols (r : record A) (v : B) :
  row_key cols (set_FlowAmount r v) = row_key cols r.
Proof.
  induction cols as [|c cols IH]; simpl; trivial. rewrite IH.
  now replace (cell c (set_FlowAmount r v)) with (cell c r).
Qed.

Lemma has_key_set A B cols k (r : record A) (v : B) :
  has_key cols k (set_FlowAmount r v) = has_key cols k r.
Proof. unfold has_key. now rewrite row_key_set. Qed.

Lemma present_keys_assign A B cols (f : A -> B) (l : list (record A)) :
  present_keys cols (map (fun r => set_FlowAmount r (f (FlowAmount r))) l)
  = present_keys cols l.
Proof.
  induction l as [|r l IH]; simpl; trivial.
  rewrite row_key_set, IH. reflexivity.
Qed.

Lemma filter_has_key_assign A B cols k (f : A -> B) (l : list (record A)) :
  filter (has_key cols k)
         (map (fun r => set_FlowAmount r (f (FlowAmount r))) l)
  = map (fun r => set_FlowAmount r (f (FlowAmount r)))
        (filter (has_key cols k) l).
Proof.
  induction l as [|r l IH]; simpl; trivial.
  rewrite has_key_set, IH. now destruct (has_key cols k r).
Qed.

Lemma exact_total_cons (x : xreal) l : total (x :: l) = Exact.add x (total l).
Proof.
  apply (@total_cons xreal exact); intros.
  - apply exact_add_assoc.
  - apply exact_add_comm.
  - apply exact_add_zero_l.
Qed.

Lemma total_Fin (qs : list Qc) : total (map Fin qs) = Fin (qsum qs).
Proof.
  induction qs as [|q qs IH]; [reflexivity|].
  simpl map. now rewrite exact_total_cons, IH.
Qed.

(** In exact arithmetic the compensation of a sum of finite amounts is
    zero: the compensated sum is the sum. *)
Lemma kahan_Fin (qs : list Qc) (a : Qc) :
  fold_left kahan (map Fin qs) (Fin a, Fin 0) = (Fin (a + qsum qs), Fin 0).
Proof.
  revert a. induction qs as [|q qs IH]; intro a; simpl.
  - f_equal. f_equal. ring.
  - replace (kahan (Fin a, Fin 0) (Fin q)) with (Fin (a + q), Fin 0).
    + rewrite IH. f_equal. f_equal. ring.
    + unfold kahan. simpl. f_equal; f_equal; ring.
Qed.

Lemma group_sum_Fin (qs : list Qc) : group_sum (map Fin qs) = Fin (qsum qs).
Proof.
  unfold group_sum. change zero with (Fin 0). rewrite kahan_Fin. simpl.
  f_equal. ring.
Qed.

Lemma group_total_finite cols (df : DataFrame Qc) k :
  group_total cols (rows (finite df)) k = Fin (qtotal cols (rows df) k).
Proof.
  unfold group_total, qtotal, finite. simpl.
  rewrite filter_has_key_assign, map_map. simpl.
  rewrite <- (map_map (@FlowAmount Qc) Fin). apply group_sum_Fin.
Qed.

Lemma fillna_finite (df : DataFrame Qc) : fillna (finite df) = finite df.
Proof.
  unfold fillna, finite, assign_FlowAmount. simpl. f_equal.
  rewrite map_map. apply map_ext. intro r. reflexivity.
Qed.

Lemma filter_absent_key A cols k (l : list (record A)) :
  ~ In k (present_keys cols l) -> filter (has_key cols k) l = [].
Proof.
  intro Hnot. apply filter_none. intros r Hin. unfold has_key.
  destruct (row_key cols r) as [k'|] eqn:Hk; trivial.
  destruct (key_eqb k' k) eqn:E; trivial.
  apply key_eqb_eq in E. subst k'. exfalso. apply Hnot.
  clear Hnot. induction l as [|r' l IH]; simpl in *; [tauto|].
  destruct Hin as [->|Hin].
  - rewrite Hk. now left.
  - destruct (row_key cols r'); [right|]; auto.
Qed.

Lemma finite_value cols (df : DataFrame Qc) k :
  fillna_cell (value k (groupby_sum cols (rows (finite df))))
  = Fin (qtotal cols (rows df) k).
Proof.
  destruct (in_dec (list_eq_dec string_dec) k
                   (map fst (groupby_sum cols (rows (finite df)))))
    as [Hin|Hnot].
  - rewrite groupby_sum_value, group_total_finite; trivial.
  - unfold value. rewrite (@side_absent _ _ _ _ Hnot).
    simpl. unfold qtotal. rewrite filter_absent_key; [reflexivity|].
    rewrite groupby_sum_keys, In_sorted_keys in Hnot.
    unfold finite in Hnot. simpl in Hnot.
    now rewrite present_keys_assign in Hnot.
Qed.

Lemma present_keys_finite cols (df : DataFrame Qc) :
  present_keys cols (rows (finite df)) = present_keys cols (rows df).
Proof. apply present_keys_assign. Qed.

Lemma joined_of_finite cols (inventory reference : DataFrame Qc) :
  joined_of cols (finite inventory) (finite reference)
  = map (finite_row cols inventory reference)
        (join_keys cols inventory reference).
Proof.
  unfold joined_of.
  rewrite (@merge_outer_eq _ _ _ _ (groupby_sum_NoDup cols _)
                           (groupby_sum_NoDup cols _)).
  rewrite !groupby_sum_keys, map_map, !present_keys_finite.
  apply map_ext. intro k. unfold fillna_joined, joined_row, finite_row.
  cbn [on_key FlowAmount_x FlowAmount_y]. now rewrite !finite_value.
Qed.

Lemma qsum_scaled (k : Qc) l : qsum (map (Qcmult k) l) = (k * qsum l)%Qc.
Proof.
  induction l as [|q l IH]; simpl.
  - ring.
  - rewrite IH. ring.
Qed.

Lemma qtotal_scaled cols k (df : DataFrame Qc) key :
  qtotal cols (rows (scaled k df)) key
  = (k * qtotal cols (rows df) key)%Qc.
Proof.
  unfold qtotal, scaled. simpl.
  rewrite filter_has_key_assign, map_map. simpl.
  rewrite <- (map_map (@FlowAmount Qc) (Qcmult k)). apply qsum_scaled.
Qed.

Lemma join_keys_scaled cols k (inventory reference : DataFrame Qc) :
  join_keys cols (scaled k inventory) (scaled k reference)
  = join_keys cols inventory reference.
Proof.
  unfold join_keys, scaled. simpl. now rewrite !present_keys_assign.
Qed.

Lemma eqb_Fin_zero (q : Qc) :
  Exact.eqb (Fin q) (Fin 0) = if Qc_eq_dec q 0 then true else false.
Proof.
  unfold Exact.eqb. simpl. destruct (Qc_eq_dec q 0) as [->|Hq].
  - reflexivity.
  - destruct (q ?= 0)%Qc eqn:E; trivial. apply Qceq_alt in E. tauto.
Qed.

Lemma is_zero_false (q : Qc) : q <> 0%Qc -> Exact.is_zero q = false.
Proof.
  intro Hq. unfold Exact.is_zero. destruct (Qc_eq_bool q 0) eqn:E; trivial.
  apply Qc_eq_bool_correct in E. tauto.
Qed.

Lemma scaled_nonzero (k q : Qc) : (0 < k)%Qc -> q <> 0%Qc -> (k * q)%Qc <> 0%Qc.
Proof.
  intros Hk Hq E. apply Qcmult_integral in E as [E|E]; [|tauto].
  now apply Qc_pos_nonzero in Hk.
Qed.

(** The iteration for a row of finite amounts shows the same after both
    amounts are multiplied by a positive [k]. *)
Lemma result_row_scaled tolerance key (a b k : Qc) :
  (0 < k)%Qc ->
  option_map (@view xreal)
    (result_row tolerance
       {| on_key := key; FlowAmount_x := Fin (k * a);
          FlowAmount_y := Fin (k * b) |})
  = option_map (@view xreal)
      (result_row tolerance
         {| on_key := key; FlowAmount_x := Fin a; FlowAmount_y := Fin b |}).
Proof.
  intro Hk.
  unfold result_row, verdict, reported, percent, step, loop_body.
  cbn [FlowAmount_x FlowAmount_y on_key].
  change (@eqb xreal exact) with Exact.eqb.
  change (@zero xreal exact) with (Fin 0).
  change (@inf xreal exact) with PInf.
  rewrite !eqb_Fin_zero.
  change (Exact.eqb (Fin (k * b)) PInf) with false.
  change (Exact.eqb (Fin b) PInf) with false.
  destruct (Qc_eq_dec a 0) as [->|Ha].
  - replace (k * 0)%Qc with 0%Qc by ring.
    destruct (Qc_eq_dec 0 0) as [_|H0]; [|tauto].
    destruct (Qc_eq_dec b 0) as [->|Hb].
    + replace (k * 0)%Qc with 0%Qc by ring.
      destruct (Qc_eq_dec 0 0) as [_|H0]; [|tauto]. reflexivity.
    + destruct (Qc_eq_dec (k * b) 0) as [E|_];
        [now apply scaled_nonzero in E|]. reflexivity.
  - destruct (Qc_eq_dec (k * a) 0) as [E|_];
      [now apply scaled_nonzero in E|].
    destruct (Qc_eq_dec b 0) as [->|Hb].
    + replace (k * 0)%Qc with 0%Qc by ring.
      destruct (Qc_eq_dec 0 0) as [_|H0]; [|tauto]. reflexivity.
    + destruct (Qc_eq_dec (k * b) 0) as [E|_];
        [now apply scaled_nonzero in E|].
      assert (Hpct :
               div (mul hundred (fabs (sub (Fin (k * b)) (Fin (k * a)))))
                   (Fin (k * b))
               = div (mul hundred (fabs (sub (Fin b) (Fin a)))) (Fin b)).
      { simpl. rewrite !is_zero_false by auto using scaled_nonzero.
        f_equal. now apply scale_pct. }
      rewrite Hpct.
      repeat match goal with
             | |- context [if ?c then _ else _] => destruct c
             end; reflexivity.
Qed.

Lemma all_some_views F (f g : key -> option (validation_row F)) ks :
  (forall k, option_map (@view F) (f k) = option_map (@view F) (g k)) ->
  option_map (map (@view F)) (all_some (map f ks))
  = option_map (map (@view F)) (all_some (map g ks)).
Proof.
  intro Hfg. induction ks as [|k ks IH]; simpl; trivial.
  specialize (Hfg k).
  destruct (f k) as [r|], (g k) as [r'|]; try discriminate; trivial.
  destruct (all_some (map f ks)), (all_some (map g ks)); try discriminate;
    trivial.
  simpl in *. congruence.
Qed.


(** ** Scaling the amounts *)

Section Homogeneity.

Variable to_numeric : string -> option xreal.

(** C5, in exact arithmetic.  For two frames of finite amounts and a
    positive [k], the call on the frames with every [FlowAmount] multiplied
    by [k] raises what the call on the frames raises, or returns rows with
    the same keys, the same [Percent_Difference] and the same
    [Conclusion]. *)
Theorem exact_scale_homogeneity
        group_by tolerance filepath (inventory reference : DataFrame Qc)
        (k : Qc) tr :
  (0 < k)%Qc ->
  views
    (fst (validate_inventory to_numeric group_by tolerance filepath
            {| inventory_df := Float64 (finite (scaled k inventory));
               reference_df := Float64 (finite (scaled k reference));
               trace := tr |}))
  = views
      (fst (validate_inventory to_numeric group_by tolerance filepath
              {| inventory_df := Float64 (finite inventory);
                 reference_df := Float64 (finite reference);
                 trace := tr |})).
Proof.
  intro Hk. rewrite !validate_inventory_float64. unfold outcome_float64.
  change (group_by_columns group_by (finite (scaled k inventory)))
    with (group_by_columns group_by (finite inventory)).
  destruct (group_by_columns group_by (finite inventory)) as [cols|];
    [|reflexivity].
  change (missing_columns cols (finite (scaled k inventory)))
    with (missing_columns cols (finite inventory)).
  change (missing_columns cols (finite (scaled k reference)))
    with (missing_columns cols (finite reference)).
  destruct (missing_columns cols (finite inventory)); [|reflexivity].
  destruct (missing_columns cols (finite reference)); [|reflexivity].
  rewrite !fillna_finite, !joined_of_finite, join_keys_scaled, !map_map.
  assert (Hrows : forall key,
             option_map (@view xreal)
               (result_row tolerance
                  (finite_row cols (scaled k inventory) (scaled k reference)
                              key))
             = option_map (@view xreal)
                 (result_row tolerance
                    (finite_row cols inventory reference key))).
  { intro key. unfold finite_row. rewrite !qtotal_scaled.
    now apply result_row_scaled. }
  apply (all_some_views _ _ (join_keys cols inventory reference)) in Hrows.
  destruct (all_some (map _ _)) as [r|], (all_some (map _ _)) as [r'|];
    simpl in *; congruence.
Qed.

End Homogeneity.

Lemma exact_scale_homogeneity_witness :
  views
    (fst (validate_inventory
            (@no_reader xreal) "flow" (Fin (Q2Qc 5)) ""
            {| inventory_df :=
                 Float64 (finite (scaled thousandth scenario_2_inventory));
               reference_df :=
                 Float64 (finite (scaled thousandth scenario_2_reference));
               trace := [] |}))
  = views
      (fst (validate_inventory
              (@no_reader xreal) "flow" (Fin (Q2Qc 5)) ""
              {| inventory_df := Float64 (finite scenario_2_inventory);
                 reference_df := Float64 (finite scenario_2_reference);
                 trace := [] |})).
Proof.
  apply (@exact_scale_homogeneity
           (@no_reader xreal) "flow" (Fin (Q2Qc 5)) ""
           scenario_2_inventory scenario_2_reference thousandth []).
  reflexivity.
Defined.

(** C5, as stated, fails on binary64.  Scenario 2 has 95 of CO2 against 100
    and the tolerance 5: the call returns [Percent_Difference] 5.0 and
    "Statistically similar".  With both amounts multiplied by 0.001 the
    products are rounded, [Percent_Difference] is above 5.0 and the
    [Conclusion] is "Percent difference exceeds tolerance". *)
Lemma binary64_scaling_changes_conclusion :
  let k := 0x1.0624dd2f1a9fcp-10%float in
  let p := percent_difference (k * 95)%float (k * 100)%float in
  views
    (fst (validate_inventory
            (@no_reader float) "flow" 5%float ""
            (before [flow "CO2" 95%float] [flow "CO2" 100%float])))
  = inr [(["CO2"; "air"], 5%float, similar)]
  /\ views
       (fst (validate_inventory
               (@no_reader float) "flow" 5%float ""
               (before [flow "CO2" (k * 95)%float]
                       [flow "CO2" (k * 100)%float])))
     = inr [(["CO2"; "air"], p, exceeds)]
  /\ PrimFloat.ltb 5 p = true.
Proof. vm_compute. repeat split. Qed.

(** ** The mass of an aggregation *)

(** A list of finite amounts is a list of rationals. *)
Lemma finite_amounts (xs : list xreal) :
  Forall (fun x => exists q, x = Fin q) xs -> exists qs, xs = map Fin qs.
Proof.
  induction 1 as [|x xs [q ->] _ [qs ->]].
  - now exists [].
  - now exists (q :: qs).
Qed.

Lemma fillna_cell_finite (x : xreal) :
  x <> PInf -> x <> NInf -> exists q, fillna_cell x = Fin q.
Proof.
  destruct x as [q| | |]; intros Hp Hn; try congruence.
  - now exists q.
  - now exists (Q2Qc 0).
Qed.

(** C4, in exact arithmetic, for amounts that are finite or missing and for
    the rows [groupby] keeps.  After the missing amounts are filled with
    [0.0], the sum of the amounts of the groups is the sum of the amounts of
    the rows that have every key cell. *)
Theorem exact_aggregation_conserves_mass cols (df : DataFrame xreal) :
  (forall r, In r (rows df) ->
             FlowAmount r <> PInf /\ FlowAmount r <> NInf) ->
  let l := rows (fillna df) in
  total (map snd (groupby_sum cols l))
  = total (map (@FlowAmount xreal) (filter (keyed cols) l)).
Proof.
  intros Hfinite l. apply groupby_sum_total.
  - exact exact_add_assoc.
  - exact exact_add_comm.
  - exact exact_add_zero_l.
  - intro k. unfold group_total, rows_total.
    destruct (@finite_amounts
                (map (@FlowAmount xreal) (filter (has_key cols k) l)))
      as [qs ->].
    + apply Forall_forall. intros x Hx.
      apply in_map_iff in Hx as (r & <- & Hr).
      apply filter_In in Hr as [Hr _]. unfold l, fillna in Hr. simpl in Hr.
      apply in_map_iff in Hr as (r0 & <- & Hr0). simpl.
      destruct (Hfinite r0 Hr0). now apply fillna_cell_finite.
    + now rewrite group_sum_Fin, total_Fin.
Qed.

(** Two rows of CO2 at one facility, the second with a missing amount, and
    a row of SO2. *)
Lemma exact_aggregation_conserves_mass_witness :
  let df :=
    {| columns := ["FacilityID"; "FlowName"];
       rows :=
         [{| FacilityID := Some "F1"; FlowName := Some "CO2";
             Compartment := None; State := None; SubpartName := None;
             FlowAmount := Fin (Q2Qc 10) |};
          {| FacilityID := Some "F1"; FlowName := Some "CO2";
             Compartment := None; State := None; SubpartName := None;
             FlowAmount := NaN |};
          {| FacilityID := Some "F1"; FlowName := Some "SO2";
             Compartment := None; State := None; SubpartName := None;
             FlowAmount := Fin (Q2Qc 5) |}] |} in
  let l := rows (fillna df) in
  total (map snd (groupby_sum ["FlowName"; "FacilityID"] l))
  = total (map (@FlowAmount xreal)
               (filter (keyed ["FlowName"; "FacilityID"]) l)).
Proof.
  apply (@exact_aggregation_conserves_mass
           ["FlowName"; "FacilityID"]
           {| columns := ["FacilityID"; "FlowName"];
              rows :=
                [{| FacilityID := Some "F1"; FlowName := Some "CO2";
                    Compartment := None; State := None; SubpartName := None;
                    FlowAmount := Fin (Q2Qc 10) |};
                 {| FacilityID := Some "F1"; FlowName := Some "CO2";
                    Compartment := None; State := None; SubpartName := None;
                    FlowAmount := NaN |};
                 {| FacilityID := Some "F1"; FlowName := Some "SO2";
                    Compartment := None; State := None; SubpartName := None;
                    FlowAmount := Fin (Q2Qc 5) |}] |}).
  simpl. intros r [<-|[<-|[<-|[]]]]; simpl; split; discriminate.
Defined.

(** With an infinite amount the compensation of the sum is not a number,
    and so is the sum of a group once a further row is added: the groups
    sum to not-a-number, the rows to infinity. *)
Lemma infinite_amount_loses_mass :
  let l := [flow "CO2" PInf; flow "CO2" (Fin (Q2Qc 1))] in
  groupby_sum ["FlowName"] l = [(["CO2"], NaN)]
  /\ total (map snd (groupby_sum ["FlowName"] l)) = NaN
  /\ total (map (@FlowAmount xreal) (filter (keyed ["FlowName"]) l)) = PInf.
Proof. vm_compute. repeat split. Qed.

(** In binary64 the plain sum of the rows is rounded at every step and the
    compensated sum of the group is not: three rows of one group, 1e16, 1
    and 1, sum to 1e16 + 2 as a group and to 1e16 one after the other. *)
Lemma rounded_sum_loses_mass :
  let l := [flow "CO2" 1e16%float; flow "CO2" 1%float; flow "CO2" 1%float] in
  groupby_sum ["FlowName"] l = [(["CO2"], 10000000000000002%float)]
  /\ total (map snd (groupby_sum ["FlowName"] l)) = 10000000000000002%float
  /\ total (map (@FlowAmount float) (filter (keyed ["FlowName"]) l))
     = 1e16%float
  /\ PrimFloat.eqb 10000000000000002 1e16 = false.
Proof. vm_compute. repeat split. Qed.

(** C4, as stated, fails where a key cell is missing.  Grouped by flow and
    facility, the row without a facility is in no group: the groups sum to
    10, the rows to 15. *)
Lemma missing_key_loses_mass :
  let l := rows (fillna facility_rows) in
  groupby_sum ["FlowName"; "FacilityID"] l = [(["CO2"; "F1"], 10%float)]
  /\ total (map snd (groupby_sum ["FlowName"; "FacilityID"] l)) = 10%float
  /\ total (map (@FlowAmount float) l) = 15%float
  /\ PrimFloat.eqb 10 15 = false.
Proof. vm_compute. repeat split. Qed.

(** ** What a call does to its two frames *)

Section Frames.

Context {F : Type} {N : Number F}.
Variable to_numeric : string -> option F.

Lemma dimensions_assign A B (f : A -> B) (df : DataFrame A) :
  dimensions (assign_FlowAmount f df) = dimensions df.
Proof.
  unfold dimensions, assign_FlowAmount. simpl. f_equal.
  rewrite map_map. reflexivity.
Qed.

Lemma dimensions_to_numeric_column (d : DataFrame (option string)) d' :
  to_numeric_column to_numeric d = Some d' -> dimensions d' = dimensions d.
Proof.
  unfold to_numeric_column.
  destruct (all_some _) as [vs|] eqn:Hall; [|discriminate].
  intros [= <-]. unfold dimensions, assign_FlowAmount. simpl. f_equal.
  rewrite map_map. simpl. revert vs Hall.
  induction (rows d) as [|r l IH]; simpl; intros vs Hall; trivial.
  destruct (to_numeric_cell to_numeric (FlowAmount r)); [|discriminate].
  destruct (all_some _) as [vs'|] eqn:E; [|discriminate].
  injection Hall as <-. simpl. f_equal. now apply IH.
Qed.

Lemma dimensions_to_float64 df d :
  to_float64 to_numeric df = Some d -> dimensions d = frame_dimensions df.
Proof.
  destruct df as [d0|d0]; simpl.
  - now intros [= <-].
  - intro Hd. apply dimensions_to_numeric_column in Hd.
    now rewrite Hd, dimensions_assign.
Qed.

Context {L : NumberLaws N}.

Lemma fillna_cell_idem (x : F) : fillna_cell (fillna_cell x) = fillna_cell x.
Proof.
  unfold fillna_cell. destruct (isna x) eqn:E.
  - now rewrite isna_zero.
  - now rewrite E.
Qed.

Lemma fillna_idem (df : DataFrame F) : fillna (fillna df) = fillna df.
Proof.
  unfold fillna, assign_FlowAmount. simpl. f_equal. rewrite map_map.
  apply map_ext. intro r. unfold set_FlowAmount. simpl.
  now rewrite fillna_cell_idem.
Qed.

(** C7, as the code has it.  A call that returns has replaced the
    [FlowAmount] column of both frames: each frame is left as the frame of
    floats lines 30-35 read from it, with its missing amounts filled with
    [0.0].  Nothing else of a frame changes.  A second call on the frames as
    the first call left them, whatever was logged and written before,
    returns the same result and leaves the frames as they are. *)
Theorem validate_inventory_normalises
        group_by tolerance filepath w out w' :
  validate_inventory to_numeric group_by tolerance filepath w
  = (inr out, w') ->
  exists inventory reference,
    to_float64 to_numeric (inventory_df w) = Some inventory
    /\ to_float64 to_numeric (reference_df w) = Some reference
    /\ inventory_df w' = Float64 (fillna inventory)
    /\ reference_df w' = Float64 (fillna reference)
    /\ frame_dimensions (inventory_df w') = frame_dimensions (inventory_df w)
    /\ frame_dimensions (reference_df w') = frame_dimensions (reference_df w)
    /\ forall tr,
        let again :=
          validate_inventory to_numeric group_by tolerance filepath
            {| inventory_df := inventory_df w';
               reference_df := reference_df w'; trace := tr |} in
        fst again = inr out
        /\ inventory_df (snd again) = inventory_df w'
        /\ reference_df (snd again) = reference_df w'.
Proof.
  intro Hrun.
  destruct (joined_table to_numeric group_by filepath w)
    as [[e|[cols vdf]] w1] eqn:Hjoin.
  { unfold validate_inventory, bind in Hrun. rewrite Hjoin in Hrun.
    discriminate. }
  pose proof (validate_inventory_classify _ _ _ _ _ Hjoin Hrun) as Hclass.
  apply joined_table_returns in Hjoin
    as (inv & ref & Hinv & Href & Hcols & Hmi & Hmr & -> & Hi1 & Hr1 & _).
  apply classify_returns in Hclass as (Hkey & Hall & Hi' & Hr').
  rewrite Hi1 in Hi'. rewrite Hr1 in Hr'.
  exists inv, ref. repeat split; trivial.
  - rewrite Hi'. cbn [frame_dimensions]. unfold fillna.
    rewrite dimensions_assign.
    now apply dimensions_to_float64.
  - rewrite Hr'. cbn [frame_dimensions]. unfold fillna.
    rewrite dimensions_assign.
    now apply dimensions_to_float64.
  - rewrite Hi', Hr', validate_inventory_float64. unfold outcome_float64.
    change (group_by_columns group_by (fillna inv))
      with (group_by_columns group_by inv).
    rewrite Hcols, !missing_columns_fillna, Hmi, Hmr, !fillna_idem, Hall.
    destruct out; simpl in *. now subst.
  - rewrite Hi', Hr'. unfold validate_inventory, bind.
    rewrite joined_table_float64.
    change (group_by_columns group_by (fillna inv))
      with (group_by_columns group_by inv).
    rewrite Hcols, !missing_columns_fillna, Hmi, Hmr, !fillna_idem.
    simpl fst. simpl snd.
    match goal with |- context [classify ?c ?t ?v ?w0] =>
      pose proof (classify_fst c t v w0) as Hf;
      destruct (classify c t v w0) as [[e|o] w2] eqn:Hc
    end; simpl.
    + rewrite Hall in Hf. discriminate.
    + now apply classify_returns in Hc as (_ & _ & -> & _).
  - rewrite Hi', Hr'. unfold validate_inventory, bind.
    rewrite joined_table_float64.
    change (group_by_columns group_by (fillna inv))
      with (group_by_columns group_by inv).
    rewrite Hcols, !missing_columns_fillna, Hmi, Hmr, !fillna_idem.
    simpl fst. simpl snd.
    match goal with |- context [classify ?c ?t ?v ?w0] =>
      pose proof (classify_fst c t v w0) as Hf;
      destruct (classify c t v w0) as [[e|o] w2] eqn:Hc
    end; simpl.
    + rewrite Hall in Hf. discriminate.
    + now apply classify_returns in Hc as (_ & _ & _ & ->).
Qed.

End Frames.

(** C7, as stated, fails: the call changes the inventory it is given.  The
    missing amount of CO2 is [0.0] in the caller's frame after the call. *)
Lemma validate_inventory_mutates_inventory :
  validate_inventory (@no_reader float) "flow" 5%float "" missing_amount
  = (inr missing_amount_result, missing_amount_after)
  /\ amounts (inventory_df missing_amount) = [PrimFloat.nan]
  /\ amounts (inventory_df missing_amount_after) = [0%float]
  /\ inventory_df missing_amount_after <> inventory_df missing_amount.
Proof.
  repeat split; try (vm_compute; reflexivity).
  intro H.
  apply (f_equal (fun df => map PrimFloat.is_nan (amounts df))) in H.
  vm_compute in H. discriminate H.
Qed.

Lemma validate_inventory_normalises_witness :
  exists inventory reference,
    to_float64 (@no_reader float) (inventory_df missing_amount)
    = Some inventory
    /\ to_float64 (@no_reader float) (reference_df missing_amount)
       = Some reference
    /\ inventory_df missing_amount_after = Float64 (fillna inventory)
    /\ reference_df missing_amount_after = Float64 (fillna reference)
    /\ frame_dimensions (inventory_df missing_amount_after)
       = frame_dimensions (inventory_df missing_amount)
    /\ frame_dimensions (reference_df missing_amount_after)
       = frame_dimensions (reference_df missing_amount)
    /\ forall tr,
        let again :=
          validate_inventory (@no_reader float) "flow" 5%float ""
            {| inventory_df := inventory_df missing_amount_after;
               reference_df := reference_df missing_amount_after;
               trace := tr |} in
        fst again = inr missing_amount_result
        /\ inventory_df (snd again) = inventory_df missing_amount_after
        /\ reference_df (snd again) = reference_df missing_amount_after.
Proof.
  apply (@validate_inventory_normalises
           float binary64 (@no_reader float) binary64_laws "flow" 5%float ""
           missing_amount missing_amount_result missing_amount_after).
  vm_compute. reflexivity.
Defined.

Lemma outer_join_complete_witness :
  let inventory_sums :=
    groupby_sum ["FlowName"; "Compartment"] [flow "SO2" 50%float] in
  let reference_sums :=
    groupby_sum ["FlowName"; "Compartment"] (@nil (record float)) in
  NoDup (map (@on_key float) joined_5)
  /\ (forall k, In k (map (@on_key float) joined_5)
                <-> In k (map fst inventory_sums)
                    \/ In k (map fst reference_sums))
  /\ Nat.max (List.length inventory_sums) (List.length reference_sums)
     <= List.length joined_5
  /\ (forall row, In row joined_5 ->
        ~ In (on_key row) (map fst inventory_sums) ->
        FlowAmount_x row = 0%float)
  /\ (forall row, In row joined_5 ->
        ~ In (on_key row) (map fst reference_sums) ->
        FlowAmount_y row = 0%float)
  /\ (forall row, In row joined_5 ->
        In (on_key row) (map fst inventory_sums) ->
        FlowAmount_x row
        = fillna_cell
            (group_total ["FlowName"; "Compartment"] [flow "SO2" 50%float]
                         (on_key row)))
  /\ (forall row, In row joined_5 ->
        In (on_key row) (map fst reference_sums) ->
        FlowAmount_y row
        = fillna_cell
            (group_total ["FlowName"; "Compartment"] (@nil (record float))
                         (on_key row))).
Proof.
  apply (@outer_join_complete
           float binary64 (@no_reader float) binary64_laws "flow" ""
           scenario_5 ["FlowName"; "Compartment"] joined_5 scenario_5
           (flows [flow "SO2" 50%float]) (flows []));
    vm_compute; reflexivity.
Defined.

(** * Further properties *)

(** ** Frames of strings and frames of floats *)

Section General.

Context {F : Type} {N : Number F}.
Variable to_numeric : string -> option F.

Lemma parse_inventory_runs w inventory :
  to_float64 to_numeric (inventory_df w) = Some inventory ->
  parse_FlowAmount to_numeric get_inventory set_inventory w
  = (inr inventory,
     {| inventory_df := Float64 inventory; reference_df := reference_df w;
        trace := trace w |}).
Proof.
  unfold parse_FlowAmount, bind, get_inventory, set_inventory, ret, raise,
    to_float64.
  destruct w as [i r t]. simpl. destruct i as [d|d]; simpl.
  - now intros [= ->].
  - now intros ->.
Qed.

Lemma parse_reference_runs w reference :
  to_float64 to_numeric (reference_df w) = Some reference ->
  parse_FlowAmount to_numeric get_reference set_reference w
  = (inr reference,
     {| inventory_df := inventory_df w; reference_df := Float64 reference;
        trace := trace w |}).
Proof.
  unfold parse_FlowAmount, bind, get_reference, set_reference, ret, raise,
    to_float64.
  destruct w as [i r t]. simpl. destruct r as [d|d]; simpl.
  - now intros [= ->].
  - now intros ->.
Qed.

Lemma joined_table_after_parse group_by filepath :
  joined_table to_numeric group_by filepath
  = bind (parse_FlowAmount to_numeric get_inventory set_inventory)
      (fun inventory =>
         bind (parse_FlowAmount to_numeric get_reference set_reference)
           (fun reference =>
              after_parse group_by filepath inventory reference)).
Proof. reflexivity. Qed.

Lemma joined_table_parsed group_by filepath w inventory reference :
  to_float64 to_numeric (inventory_df w) = Some inventory ->
  to_float64 to_numeric (reference_df w) = Some reference ->
  joined_table to_numeric group_by filepath w
  = joined_table to_numeric group_by filepath
                 (parsed_world inventory reference (trace w)).
Proof.
  intros Hi Hr. rewrite joined_table_after_parse. unfold bind at 1 2 3 4.
  rewrite (parse_inventory_runs _ Hi).
  rewrite (@parse_reference_runs _ reference) by exact Hr.
  rewrite (@parse_inventory_runs (parsed_world inventory reference (trace w))
             inventory eq_refl).
  rewrite (@parse_reference_runs _ reference) by reflexivity.
  reflexivity.
Qed.

(** A call on frames whose [FlowAmount] strings are all read is the call on
    the frames of floats read from them: the outcome, the frames left behind
    and the effects are the same.  Lines 30-35 are the only lines that look
    at the dtype. *)
Theorem validate_inventory_parsed
        group_by tolerance filepath w inventory reference :
  to_float64 to_numeric (inventory_df w) = Some inventory ->
  to_float64 to_numeric (reference_df w) = Some reference ->
  validate_inventory to_numeric group_by tolerance filepath w
  = validate_inventory to_numeric group_by tolerance filepath
                       (parsed_world inventory reference (trace w)).
Proof.
  intros Hi Hr. unfold validate_inventory, bind.
  now rewrite (joined_table_parsed _ _ _ Hi Hr).
Qed.

End General.

(** ** Rows, effects and failures of [validate_inventory] *)

Section MoreRows.

Context {F : Type} {N : Number F}.
Variable to_numeric : string -> option F.

(** Lines 65-70.  In a call that returns, a row of the joined table whose
    two amounts are zero gives the row of the result at the same place, with
    the two amounts, [Percent_Difference] 0.0 and the conclusion "Both
    inventory and reference are zero or null"; the row does not add to
    [error_count]. *)
Theorem both_zero_row
        group_by tolerance filepath w cols validation_df w1 out w' i row :
  joined_table to_numeric group_by filepath w
  = (inr (cols, validation_df), w1) ->
  validate_inventory to_numeric group_by tolerance filepath w
  = (inr out, w') ->
  nth_error validation_df i = Some row ->
  eqb (FlowAmount_x row) zero = true ->
  eqb (FlowAmount_y row) zero = true ->
  nth_error (validation_rows out) i
  = Some {| group := on_key row;
            Inventory_Amount := FlowAmount_x row;
            Reference_Amount := FlowAmount_y row;
            Percent_Difference := zero;
            Conclusion := both_zero |}
  /\ error_count (loop tolerance validation_df)
     = error_count
         (loop tolerance
               (firstn i validation_df ++ skipn (S i) validation_df)).
Proof.
  intros Hjoin Hrun Hnth Hx Hy.
  pose proof (validate_inventory_classify _ _ _ _ _ Hjoin Hrun) as Hclass.
  destruct (classify_row _ _ _ _ i Hclass Hnth) as (r & Hr & Hout).
  rewrite (error_count_nth tolerance _ _ Hnth), Hout. clear Hout.
  revert Hr. run_step. intro Hr; injection Hr as <-.
  split; [reflexivity|lia].
Qed.

(** Lines 65 and 76-80.  In a call that returns, a row whose inventory amount
    is zero and whose reference amount is neither zero nor infinite gives the
    row of the result at the same place, with [Percent_Difference] 100.0 and
    the conclusion "Inventory value is zero or null", and adds one to
    [error_count]. *)
Theorem inventory_zero_row_counted
        group_by tolerance filepath w cols validation_df w1 out w' i row :
  joined_table to_numeric group_by filepath w
  = (inr (cols, validation_df), w1) ->
  validate_inventory to_numeric group_by tolerance filepath w
  = (inr out, w') ->
  nth_error validation_df i = Some row ->
  eqb (FlowAmount_x row) zero = true ->
  eqb (FlowAmount_y row) zero = false ->
  eqb (FlowAmount_y row) inf = false ->
  nth_error (validation_rows out) i
  = Some {| group := on_key row;
            Inventory_Amount := FlowAmount_x row;
            Reference_Amount := FlowAmount_y row;
            Percent_Difference := hundred;
            Conclusion := inventory_zero |}
  /\ error_count (loop tolerance validation_df)
     = S (error_count
            (loop tolerance
                  (firstn i validation_df ++ skipn (S i) validation_df))).
Proof.
  intros Hjoin Hrun Hnth Hx Hy Hinf.
  pose proof (validate_inventory_classify _ _ _ _ _ Hjoin Hrun) as Hclass.
  destruct (classify_row _ _ _ _ i Hclass Hnth) as (r & Hr & Hout).
  rewrite (error_count_nth tolerance _ _ Hnth), Hout. clear Hout.
  revert Hr. run_step. intro Hr; injection Hr as <-.
  split; [reflexivity|lia].
Qed.

Lemma verdicts_short tolerance (l : list (joined F)) row :
  In row l -> verdict tolerance row = None ->
  List.length (flat_map (verdict_list tolerance) l) < List.length l.
Proof.
  induction l as [|r l IH]; [intros []|].
  cbn [flat_map List.length]. rewrite length_app.
  pose proof (verdicts_length tolerance l) as Hle.
  intros [->|Hin] Hnone.
  - unfold verdict_list at 1. rewrite Hnone. simpl. lia.
  - specialize (IH Hin Hnone).
    assert (List.length (verdict_list tolerance r) <= 1)
      by (unfold verdict_list; destruct (verdict tolerance r); simpl; lia).
    lia.
Qed.

Lemma classify_raises cols tolerance validation_df w row :
  In row validation_df -> verdict tolerance row = None ->
  classify cols tolerance validation_df w = (inl length_error, w).
Proof.
  intros Hin Hnone.
  pose proof (verdicts_short tolerance _ _ Hin Hnone) as Hlt.
  unfold classify, assign_columns, check_length, bind, ret, raise.
  rewrite loop_eq; simpl. rewrite !length_map, Nat.eqb_refl.
  destruct (Nat.eqb_spec
              (List.length (flat_map (verdict_list tolerance) validation_df))
              (List.length validation_df)) as [E|_]; [lia|].
  reflexivity.
Qed.

(** Lines 95-109.  The chain [if pct_diff == 0.0 / elif pct_diff <=
    tolerance / elif pct_diff > tolerance] has no [else]: a row for which
    none of the three comparisons holds (a percent difference or a tolerance
    that is not a number) appends no conclusion.  Line 109 then raises
    [ValueError], after both frames were normalised and the reference sums
    written. *)
Theorem missing_conclusion_raises
        group_by tolerance filepath w cols validation_df w1 row :
  joined_table to_numeric group_by filepath w
  = (inr (cols, validation_df), w1) ->
  In row validation_df ->
  eqb (FlowAmount_x row) zero = false ->
  eqb (FlowAmount_y row) zero = false ->
  eqb (FlowAmount_y row) inf = false ->
  let pct := percent_difference (FlowAmount_x row) (FlowAmount_y row) in
  eqb pct zero = false ->
  leb pct tolerance = false ->
  ltb tolerance pct = false ->
  validate_inventory to_numeric group_by tolerance filepath w
  = (inl length_error, w1).
Proof.
  intros Hjoin Hin Hx Hy Hinf pct H0 Hle Hlt.
  unfold validate_inventory, bind. rewrite Hjoin. cbn [fst snd].
  apply classify_raises with (row := row); trivial.
  unfold percent_difference in pct. subst pct.
  unfold verdict, step, loop_body. now rewrite Hx, Hy, Hinf, H0, Hle, Hlt.
Qed.

Lemma classify_trace cols tolerance validation_df w out w' :
  classify cols tolerance validation_df w = (inr out, w') ->
  trace w'
  = trace w ++ warnings F (error_count (loop tolerance validation_df)).
Proof.
  unfold classify, warnings, bind.
  destruct (assign_columns _ _ _ _) as [[e|o] w0] eqn:Ea; [discriminate|].
  assert (w0 = w) as ->.
  { revert Ea. unfold assign_columns, check_length, bind, ret, raise.
    repeat match goal with
           | |- context [if ?c then _ else _] => destruct c
           end; congruence. }
  destruct (Nat.ltb _ _); unfold emit, ret; intros [= _ <-]; simpl;
    now rewrite ?app_nil_r.
Qed.

(** Lines 52-53 and 111-113.  A call that returns has done nothing to the
    outside but this, in this order: the reference sums written to
    [filepath] when one is given, and one warning with the number of errors
    when that number is positive. *)
Theorem validate_inventory_effects
        group_by tolerance filepath w cols validation_df w1 out w' reference :
  joined_table to_numeric group_by filepath w
  = (inr (cols, validation_df), w1) ->
  validate_inventory to_numeric group_by tolerance filepath w
  = (inr out, w') ->
  reference_df w' = Float64 reference ->
  trace w'
  = trace w ++ written cols reference filepath
    ++ warnings F (error_count (loop tolerance validation_df)).
Proof.
  intros Hjoin Hrun Href.
  pose proof (validate_inventory_classify _ _ _ _ _ Hjoin Hrun) as Hclass.
  pose proof (classify_trace _ _ _ _ Hclass) as Ht.
  apply classify_returns in Hclass as (_ & _ & _ & Hr').
  apply joined_table_returns in Hjoin
    as (inv0 & ref0 & _ & _ & _ & _ & _ & _ & _ & Hr1 & Ht1).
  assert (reference = fillna ref0) as -> by congruence.
  now rewrite Ht, Ht1, app_assoc.
Qed.

Lemma all_some_map_eq A B C (f : A -> option B) (g : B -> C) (h : A -> C)
      l r :
  (forall a b, f a = Some b -> g b = h a) ->
  all_some (map f l) = Some r -> map g r = map h l.
Proof.
  intro Hfg. revert r. induction l as [|a l IH]; simpl; intros r Hall.
  - now injection Hall as <-.
  - destruct (f a) as [b|] eqn:Ha; [|discriminate].
    destruct (all_some (map f l)) as [r'|]; [|discriminate].
    injection Hall as <-. simpl. f_equal; eauto.
Qed.

Lemma joined_of_keys cols (inventory reference : DataFrame F) :
  map (@on_key F) (joined_of cols inventory reference)
  = join_keys cols inventory reference.
Proof.
  unfold joined_of, join_keys.
  rewrite (@merge_outer_eq _ _ _ _ (groupby_sum_NoDup cols _)
                           (groupby_sum_NoDup cols _)).
  rewrite !groupby_sum_keys, !map_map. apply map_id.
Qed.

(** Lines 48-56 and 106-110.  The result has the grouping columns and one
    row for every row of the joined table, with its key and its inventory
    amount.  Its rows stand as pandas 1.x joins them: first the groups of the
    inventory in the ascending order of their keys, then the groups that the
    reference alone has, in the ascending order of theirs.  No key stands
    twice; the keys of the result as a whole need not ascend. *)
Theorem result_shape
        group_by tolerance filepath w cols validation_df w1 out w'
        inventory reference :
  joined_table to_numeric group_by filepath w
  = (inr (cols, validation_df), w1) ->
  validate_inventory to_numeric group_by tolerance filepath w
  = (inr out, w') ->
  to_float64 to_numeric (inventory_df w) = Some inventory ->
  to_float64 to_numeric (reference_df w) = Some reference ->
  let inventory_keys := sorted_keys (present_keys cols (rows inventory)) in
  let reference_keys := sorted_keys (present_keys cols (rows reference)) in
  key_columns out = cols
  /\ map (@group F) (validation_rows out) = map (@on_key F) validation_df
  /\ map (@Inventory_Amount F) (validation_rows out)
     = map (@FlowAmount_x F) validation_df
  /\ map (@group F) (validation_rows out)
     = inventory_keys
       ++ filter (fun k => negb (existsb (key_eqb k) inventory_keys))
                 reference_keys
  /\ NoDup (map (@group F) (validation_rows out)).
Proof.
  intros Hjoin Hrun Hi Hr inventory_keys reference_keys.
  pose proof (validate_inventory_classify _ _ _ _ _ Hjoin Hrun) as Hclass.
  apply classify_returns in Hclass as (Hcols & Hall & _).
  assert (Hgroup : map (@group F) (validation_rows out)
                   = map (@on_key F) validation_df).
  { eapply all_some_map_eq; [|exact Hall]. intros a b. unfold result_row.
    destruct (verdict tolerance a); [|discriminate]. now intros [= <-]. }
  assert (Hkeys : map (@on_key F) validation_df
                  = distinct (inventory_keys ++ reference_keys)).
  { apply joined_table_returns in Hjoin
      as (inv0 & ref0 & Hi0 & Hr0 & _ & _ & _ & -> & _).
    assert (inv0 = inventory) as -> by congruence.
    assert (ref0 = reference) as -> by congruence.
    rewrite joined_of_keys. unfold join_keys, fillna, assign_FlowAmount.
    cbn [rows]. now rewrite !present_keys_assign. }
  split; [exact Hcols|]. split; [exact Hgroup|]. split.
  - eapply all_some_map_eq; [|exact Hall]. intros a b. unfold result_row.
    destruct (verdict tolerance a); [|discriminate]. now intros [= <-].
  - rewrite Hgroup, Hkeys. split.
    + apply distinct_app; apply sorted_keys_NoDup.
    + apply distinct_NoDup.
Qed.

(** Lines 36-51.  The grouping columns are selected from the inventory
    first and from the reference second, and a frame that lacks some of them
    raises [KeyError] with the columns it lacks.  For 'flow' the columns are
    chosen by looking at the inventory alone (line 38): an inventory with a
    [Compartment] column and a reference without one raise. *)
Theorem missing_column_raises
        group_by tolerance filepath w inventory reference cols :
  to_float64 to_numeric (inventory_df w) = Some inventory ->
  to_float64 to_numeric (reference_df w) = Some reference ->
  group_by_columns group_by inventory = Some cols ->
  missing_columns cols inventory ++ missing_columns cols reference <> [] ->
  fst (validate_inventory to_numeric group_by tolerance filepath w)
  = inl (KeyError
           (match missing_columns cols inventory with
            | [] => missing_columns cols reference
            | missing => missing
            end)).
Proof.
  intros Hi Hr Hcols Hmiss.
  assert (Hp : validate_inventory to_numeric group_by tolerance filepath w
               = validate_inventory to_numeric group_by tolerance filepath
                   (parsed_world inventory reference (trace w))).
  { unfold validate_inventory, bind.
    now rewrite (joined_table_parsed _ _ _ _ Hi Hr). }
  rewrite Hp. unfold parsed_world. rewrite validate_inventory_float64.
  unfold outcome_float64. rewrite Hcols.
  destruct (missing_columns cols inventory); [|reflexivity].
  destruct (missing_columns cols reference); [|reflexivity].
  now elim Hmiss.
Qed.

(** Lines 30-32.  When [pd.to_numeric] cannot read a string of the
    inventory, the call raises its [ValueError]; line 31 has already run, so
    the caller's inventory is left with its strings stripped of commas.  The
    reference is untouched and nothing is written. *)
Theorem unreadable_inventory_raises group_by tolerance filepath w d :
  let stripped := assign_FlowAmount (option_map remove_commas) d in
  inventory_df w = Object d ->
  to_numeric_column to_numeric stripped = None ->
  validate_inventory to_numeric group_by tolerance filepath w
  = (inl (ValueError "Unable to parse string"),
     {| inventory_df := Object stripped;
        reference_df := reference_df w; trace := trace w |}).
Proof.
  intros stripped Hd Hnone. unfold validate_inventory.
  rewrite joined_table_after_parse. unfold bind at 1 2.
  unfold parse_FlowAmount at 1. unfold bind, get_inventory, set_inventory.
  rewrite Hd. cbn. fold stripped. rewrite Hnone. reflexivity.
Qed.

(** Lines 30-35.  When the inventory is read and a string of the reference
    is not, the call raises the [ValueError] of [pd.to_numeric] with the
    inventory already turned into floats (missing amounts not yet filled)
    and the reference left with its strings stripped of commas. *)
Theorem unreadable_reference_raises
        group_by tolerance filepath w inventory d :
  let stripped := assign_FlowAmount (option_map remove_commas) d in
  to_float64 to_numeric (inventory_df w) = Some inventory ->
  reference_df w = Object d ->
  to_numeric_column to_numeric stripped = None ->
  validate_inventory to_numeric group_by tolerance filepath w
  = (inl (ValueError "Unable to parse string"),
     {| inventory_df := Float64 inventory;
        reference_df := Object stripped; trace := trace w |}).
Proof.
  intros stripped Hi Hd Hnone. unfold validate_inventory.
  rewrite joined_table_after_parse. unfold bind at 1 2.
  rewrite (parse_inventory_runs _ _ Hi). unfold bind at 1.
  unfold parse_FlowAmount at 1. unfold bind, get_reference, set_reference.
  cbn [reference_df inventory_df trace]. rewrite Hd. cbn.
  fold stripped. rewrite Hnone. reflexivity.
Qed.

End MoreRows.

Section Flagged.

Context {F : Type} {N : Number F}.
Variable to_numeric : string -> option F.

Lemma counted_flagged tolerance (row : joined F) r :
  result_row tolerance row = Some r ->
  counted tolerance row = if flagged r then 1 else 0.
Proof.
  unfold result_row, flagged, verdict, reported, percent, counted, step,
    loop_body.
  repeat match goal with
         | |- context [if eqb ?a ?b then _ else _] => destruct (eqb a b)
         | |- context [if leb ?a ?b then _ else _] => destruct (leb a b)
         | |- context [if ltb ?a ?b then _ else _] => destruct (ltb a b)
         end;
    cbn [append no_lists amount_x_list amount_y_list pct_diff_list conclusion
         error_count hd hd_error app Nat.add];
    try discriminate; intros [= <-]; reflexivity.
Qed.

Lemma counted_sum tolerance (l : list (joined F)) rows :
  all_some (map (result_row tolerance) l) = Some rows ->
  list_sum (map (counted tolerance) l)
  = List.length (filter (@flagged F) rows).
Proof.
  revert rows. induction l as [|row l IH]; simpl; intros rows Hall.
  - now injection Hall as <-.
  - destruct (result_row tolerance row) as [r|] eqn:Er; [|discriminate].
    destruct (all_some (map (result_row tolerance) l)) as [rs|];
      [|discriminate].
    injection Hall as <-. rewrite (counted_flagged _ _ Er), (IH rs eq_refl).
    simpl. destruct (flagged r); reflexivity.
Qed.

(** Lines 61-113.  The number the warning gives is the number of rows of
    the result whose conclusion is "Inventory value is zero or null" or
    "Percent difference exceeds tolerance": rows with a zero or infinite
    reference are never counted. *)
Theorem error_count_is_flagged_rows
        group_by tolerance filepath w cols validation_df w1 out w' :
  joined_table to_numeric group_by filepath w
  = (inr (cols, validation_df), w1) ->
  validate_inventory to_numeric group_by tolerance filepath w
  = (inr out, w') ->
  error_count (loop tolerance validation_df)
  = List.length (filter (@flagged F) (validation_rows out)).
Proof.
  intros Hjoin Hrun.
  pose proof (validate_inventory_classify _ _ _ _ _ Hjoin Hrun) as Hclass.
  apply classify_returns in Hclass as (_ & Hall & _).
  rewrite loop_eq. cbn [error_count]. now apply counted_sum.
Qed.

End Flagged.

(** ** The tolerance *)

Lemma compare_cont_Eq_trans_lt a b c :
  Pos.compare_cont Eq a b = Lt -> Pos.compare_cont Eq b c = Lt ->
  Pos.compare_cont Eq a c = Lt.
Proof.
  change (Pos.compare_cont Eq) with Pos.compare.
  rewrite !Pos.compare_lt_iff. lia.
Qed.

Lemma SFcompare_le_lt_trans a b c :
  SFleb a b = true -> SFltb b c = true -> SFltb a c = true.
Proof.
  unfold SFleb, SFltb.
  destruct a as [s1| s1| |s1 m1 e1], b as [s2| s2| |s2 m2 e2],
           c as [s3| s3| |s3 m3 e3]; simpl; try discriminate;
    try (destruct s1; simpl; try discriminate);
    try (destruct s2; simpl; try discriminate);
    try (destruct s3; simpl; try discriminate); trivial;
    change PosDef.Pos.compare_cont with Pos.compare_cont;
    change (Pos.compare_cont Eq) with Pos.compare;
    repeat match goal with
           | |- context [(?x ?= ?y)%Z] =>
               destruct (Z.compare_spec x y); try discriminate; trivial
           | |- context [(?x ?= ?y)%positive] =>
               destruct (Pos.compare_spec x y); simpl; try discriminate;
               trivial
           end;
    intros; try lia.
Qed.

#[export] Instance binary64_order : OrderLaws binary64.
Proof.
  split. simpl. intros a b c.
  rewrite !FloatAxioms.ltb_spec, FloatAxioms.leb_spec.
  apply SFcompare_le_lt_trans.
Qed.

Lemma Qccompare_le_lt_trans (a b c : Qc) :
  (a ?= b)%Qc <> Gt -> (b ?= c)%Qc = Lt -> (a ?= c)%Qc = Lt.
Proof.
  intros Hab Hbc. apply Qclt_alt. apply Qclt_alt in Hbc.
  eapply Qcle_lt_trans; [|exact Hbc]. now apply Qcle_alt.
Qed.

#[export] Instance exact_order : OrderLaws exact.
Proof.
  split. simpl. unfold Exact.leb, Exact.ltb.
  intros [a| | |] [b| | |] [c| | |]; simpl; try discriminate; trivial.
  destruct (a ?= b)%Qc eqn:Eab; try discriminate; intros _;
    destruct (b ?= c)%Qc eqn:Ebc; try discriminate; intros _;
    rewrite (@Qccompare_le_lt_trans a b c); trivial; congruence.
Qed.

Section Tolerance.

Context {F : Type} {N : Number F} {L : NumberLaws N} {O : OrderLaws N}.

Lemma exceeds_at_smaller_tolerance t t' row :
  leb t t' = true ->
  verdict t' row = Some exceeds -> verdict t row = Some exceeds.
Proof.
  intro Hle. unfold verdict, step, loop_body.
  destruct (eqb (FlowAmount_x row) zero);
    destruct (eqb (FlowAmount_y row) zero);
    destruct (eqb (FlowAmount_y row) inf); try discriminate.
  set (pct := div _ _).
  destruct (eqb pct zero); [discriminate|].
  destruct (leb pct t') eqn:E1; [discriminate|].
  destruct (ltb t' pct) eqn:E2; [|discriminate].
  intros _. pose proof (leb_ltb_trans _ _ _ Hle E2) as Hlt.
  now rewrite (ltb_not_leb _ _ Hlt), Hlt.
Qed.

Lemma counted_at_smaller_tolerance t t' row :
  leb t t' = true -> counted t' row <= counted t row.
Proof.
  intro Hle. unfold counted, step, loop_body.
  destruct (eqb (FlowAmount_x row) zero);
    destruct (eqb (FlowAmount_y row) zero);
    destruct (eqb (FlowAmount_y row) inf); trivial.
  set (pct := div _ _).
  destruct (eqb pct zero); trivial.
  destruct (ltb t' pct) eqn:E2.
  - pose proof (leb_ltb_trans _ _ _ Hle E2) as Hlt.
    rewrite (ltb_not_leb _ _ Hlt), (ltb_not_leb _ _ E2), Hlt. trivial.
  - destruct (leb pct t'); simpl; lia.
Qed.

(** Lines 99-105.  Tolerances compare as expected: a row that exceeds a
    tolerance exceeds every smaller one, and a larger tolerance never gives
    more errors. *)
Theorem larger_tolerance_fewer_errors t t' (l : list (joined F)) :
  leb t t' = true ->
  (forall row, In row l ->
     verdict t' row = Some exceeds -> verdict t row = Some exceeds)
  /\ error_count (loop t' l) <= error_count (loop t l).
Proof.
  intro Hle. split.
  - intros row _. now apply exceeds_at_smaller_tolerance.
  - rewrite !loop_eq. cbn [error_count].
    induction l as [|row l IH]; simpl; [lia|].
    pose proof (@counted_at_smaller_tolerance t t' row Hle). lia.
Qed.

End Tolerance.

Lemma larger_tolerance_fewer_errors_witness :
  (forall row, In row joined_3 ->
     verdict 20%float row = Some exceeds ->
     verdict 5%float row = Some exceeds)
  /\ error_count (loop 20%float joined_3)
     <= error_count (loop 5%float joined_3).
Proof.
  apply (@larger_tolerance_fewer_errors float binary64 binary64_laws
           binary64_order 5%float 20%float joined_3).
  reflexivity.
Defined.

(** ** A negative reference *)

Lemma binary_round_aux_sign prec emax s m e l :
  has_sign s (binary_round_aux prec emax s m e l).
Proof.
  unfold binary_round_aux.
  destruct (shr_fexp prec emax m e l) as [mrs' e'].
  destruct (shr_fexp prec emax _ e' loc_Exact) as [mrs'' e''].
  destruct (shr_m mrs''); simpl; trivial.
  destruct (Z.leb _ _); reflexivity.
Qed.

Lemma SFmul_sign prec emax sx sy x y :
  has_sign sx x -> has_sign sy y ->
  has_sign (xorb sx sy) (SFmul prec emax x y).
Proof.
  destruct x as [s1| s1| |s1 m1 e1], y as [s2| s2| |s2 m2 e2]; simpl;
    trivial; try (intros -> ->; reflexivity).
  intros -> ->. apply binary_round_aux_sign.
Qed.

Lemma SFdiv_sign prec emax sx sy x y :
  has_sign sx x -> has_sign sy y ->
  has_sign (xorb sx sy) (SFdiv prec emax x y).
Proof.
  destruct x as [s1| s1| |s1 m1 e1], y as [s2| s2| |s2 m2 e2]; simpl;
    trivial; try (intros -> ->; reflexivity).
  intros -> ->.
  destruct (SFdiv_core_binary prec emax (Z.pos m1) e1 (Z.pos m2) e2)
    as [[mz ez] lz].
  apply binary_round_aux_sign.
Qed.

Lemma SFabs_sign x : has_sign false (SFabs x).
Proof. destruct x; simpl; trivial. Qed.

Lemma SFltb_negative y :
  SFltb y (S754_zero false) = true -> has_sign true y.
Proof.
  unfold SFltb. destruct y as [s| s| |s m e]; simpl; try discriminate;
    destruct s; trivial; discriminate.
Qed.

Lemma SFltb_zero_negative p :
  has_sign true p -> SFltb (S754_zero false) p = false.
Proof.
  unfold SFltb. destruct p as [s| s| |s m e]; simpl; trivial;
    intros ->; reflexivity.
Qed.

#[export] Instance binary64_sign : SignLaws binary64.
Proof.
  split. simpl. intros a y.
  rewrite !FloatAxioms.ltb_spec, FloatAxioms.div_spec, FloatAxioms.mul_spec,
    FloatAxioms.abs_spec.
  change (Prim2SF 0) with (S754_zero false).
  intro Hy. apply SFltb_negative in Hy. apply SFltb_zero_negative.
  change true with (xorb (xorb false false) true).
  apply SFdiv_sign; trivial. apply SFmul_sign.
  - vm_compute. reflexivity.
  - apply SFabs_sign.
Qed.

Lemma Qc_quotient_of_negative (c q : Qc) :
  (0 <= c)%Qc -> (q < 0)%Qc -> ~ (0 < c / q)%Qc.
Proof.
  intros Hc Hq Hpos.
  assert (Hq0 : q <> Q2Qc 0) by (intros ->; now apply (Qclt_not_eq _ _ Hq)).
  assert (Hnq : (0 < - q)%Qc).
  { apply Qclt_minus_iff in Hq. now rewrite Qcplus_0_l in Hq. }
  pose proof (Qcmult_lt_compat_r _ _ _ Hpos Hnq) as H.
  rewrite Qcmult_0_l in H.
  replace (- q * (c / q))%Qc with (- c)%Qc in H by (field; exact Hq0).
  apply (Qclt_not_le _ _ H).
  replace (Q2Qc 0) with (- Q2Qc 0)%Qc by reflexivity.
  now apply Qcopp_le_compat.
Qed.

Lemma Qcabs_scaled_nonneg (b : Qc) : (0 <= Q2Qc 100 * Qcabs b)%Qc.
Proof.
  rewrite <- (Qcmult_0_l (Qcabs b)).
  apply Qcmult_le_compat_r; [discriminate|apply Qcabs_nonneg].
Qed.

Lemma exact_scaled_abs a :
  Exact.mul (Fin (Q2Qc 100)) (Exact.abs a) = NaN
  \/ Exact.mul (Fin (Q2Qc 100)) (Exact.abs a) = PInf
  \/ exists c, Exact.mul (Fin (Q2Qc 100)) (Exact.abs a) = Fin c
               /\ (0 <= c)%Qc.
Proof.
  destruct a as [b| | |]; simpl; auto.
  right. right. eexists. split; [reflexivity|apply Qcabs_scaled_nonneg].
Qed.

Lemma exact_negative y :
  Exact.ltb y (Fin 0) = true ->
  y = NInf
  \/ exists q, y = Fin q /\ (q < 0)%Qc /\ Exact.is_zero q = false
               /\ Exact.is_pos q = false.
Proof.
  unfold Exact.ltb. destruct y as [q| | |]; simpl; try discriminate; auto.
  destruct (q ?= 0)%Qc eqn:E; try discriminate. intros _. right.
  exists q. repeat split; trivial.
  - unfold Exact.is_zero. destruct (Qc_eq_bool q 0) eqn:E0; trivial.
    apply Qc_eq_bool_correct in E0. now apply Qclt_not_eq in E.
  - unfold Exact.is_pos. now rewrite E.
Qed.

#[export] Instance exact_sign : SignLaws exact.
Proof.
  split. intros a y.
  change (Exact.ltb y (Fin 0) = true ->
          Exact.ltb (Fin 0)
            (Exact.div (Exact.mul (Fin (Q2Qc 100)) (Exact.abs a)) y)
          = false).
  intro Hy. apply exact_negative in Hy.
  destruct (exact_scaled_abs a) as [->|[->|(c & -> & Hc)]];
    destruct Hy as [->|(q & -> & Hq & Hz & Hp)]; trivial;
    unfold Exact.ltb; simpl; rewrite ?Hz, ?Hp; simpl; trivial.
  destruct (0 ?= c / q)%Qc eqn:E'; trivial.
  exfalso. now apply (@Qc_quotient_of_negative c q).
Qed.

Section NegativeReference.

Context {F : Type} {N : Number F}.
Context {O : OrderLaws N} {S : SignLaws N}.

(** Line 95 divides by the reference amount as it is, not by its absolute
    value: over a negative reference the percent difference is not positive.
    With a tolerance that is not negative, such a row is never reported as
    exceeding the tolerance, and when its inventory amount is not zero it is
    not counted as an error, however far the two amounts are apart. *)
Theorem negative_reference_never_exceeds tolerance (row : joined F) :
  ltb (FlowAmount_y row) zero = true ->
  leb zero tolerance = true ->
  verdict tolerance row <> Some exceeds
  /\ (eqb (FlowAmount_x row) zero = false -> counted tolerance row = 0).
Proof.
  intros Hy Htol.
  assert (Hpct : ltb tolerance
                   (div (mul hundred
                             (fabs (sub (FlowAmount_y row)
                                        (FlowAmount_x row))))
                        (FlowAmount_y row)) = false).
  { destruct (ltb tolerance _) eqn:E; trivial.
    pose proof (leb_ltb_trans _ _ _ Htol E) as Hpos.
    now rewrite (percent_of_negative _ _ Hy) in Hpos. }
  unfold verdict, counted, step, loop_body. rewrite Hpct.
  repeat match goal with
         | |- context [if eqb ?a ?b then _ else _] => destruct (eqb a b)
         | |- context [if leb ?a ?b then _ else _] => destruct (leb a b)
         end;
    cbn [append no_lists conclusion error_count hd_error app Nat.add];
    (split; [discriminate|]); intro Hx; try discriminate Hx; reflexivity.
Qed.

End NegativeReference.

Lemma negative_reference_never_exceeds_witness :
  verdict 5%float joined_negative <> Some exceeds
  /\ (PrimFloat.eqb (FlowAmount_x joined_negative) 0 = false ->
      counted 5%float joined_negative = 0).
Proof.
  apply (@negative_reference_never_exceeds
           float binary64 binary64_order binary64_sign 5%float
           joined_negative);
    reflexivity.
Defined.

(** ** The metadata of a validation result *)

Lemma dict_get_set_same k v d : dict_get k (dict_set k v d) = Some v.
Proof.
  induction d as [|[k' v'] d IH]; simpl.
  - now rewrite String.eqb_refl.
  - destruct (String.eqb_spec k' k) as [->|Hne]; simpl.
    + now rewrite String.eqb_refl.
    + apply String.eqb_neq in Hne. now rewrite Hne.
Qed.

Lemma dict_get_set_other k k' v d :
  k <> k' -> dict_get k' (dict_set k v d) = dict_get k' d.
Proof.
  intro Hne. induction d as [|[k0 v0] d IH]; simpl.
  - apply String.eqb_neq in Hne. now rewrite Hne.
  - destruct (String.eqb_spec k0 k) as [->|Hne0]; simpl.
    + apply String.eqb_neq in Hne. now rewrite Hne.
    + now rewrite IH.
Qed.

Lemma dict_set_keys k v d :
  In k (map fst d) -> map fst (dict_set k v d) = map fst d.
Proof.
  induction d as [|[k0 v0] d IH]; simpl; [tauto|].
  destruct (String.eqb_spec k0 k) as [->|Hne]; simpl; trivial.
  intros [H|H]; [congruence|]. now rewrite IH.
Qed.

Section Metadata.

Variable F : Type.
Variables local_path : string.
Variable source_metadata : list (string * string).

(** Lines 135-157.  When exactly one record of the provenance table has the
    inventory and the year, the call creates the directory, logs, writes the
    result and then writes the metadata of the file [<inventory>_<year>] with
    the datatype "validation": a dictionary that holds the record's name,
    version, URL, date of acquisition and criteria under the five keys, and
    the entries of [source_metadata] under every other key. *)
Theorem unique_provenance_metadata
        v_table inventory_acronym year (validation_df : validation_frame F)
        validation_set_info :
  filter (is_record_of inventory_acronym year) v_table
  = [validation_set_info] ->
  let directory := (local_path ++ "/validation/")%string in
  exists validation_metadata,
    write_validation_result local_path source_metadata v_table
                            inventory_acronym year validation_df
    = [create_paths directory;
       log_info ("writing validation result to " ++ directory)%string;
       to_file (directory ++ inventory_acronym ++ "_" ++ year ++ ".csv")%string
               (validation_csv validation_df);
       write_metadata (inventory_acronym ++ "_" ++ year)%string
                      validation_metadata "validation"]
    /\ dict_get "SourceFileName" validation_metadata
       = Some (Name validation_set_info)
    /\ dict_get "SourceVersion" validation_metadata
       = Some (Version validation_set_info)
    /\ dict_get "SourceURL" validation_metadata
       = Some (URL validation_set_info)
    /\ dict_get "SourceAcquisitionTime" validation_metadata
       = Some (Date_Acquired validation_set_info)
    /\ dict_get "Criteria" validation_metadata
       = Some (Criteria validation_set_info)
    /\ forall k, ~ In k provenance_keys ->
                 dict_get k validation_metadata = dict_get k source_metadata.
Proof.
  intros Hone directory. unfold write_validation_result. rewrite Hone.
  eexists. split; [reflexivity|].
  assert (Hother : forall k k' v d,
             String.eqb k k' = false ->
             dict_get k' (dict_set k v d) = dict_get k' d).
  { intros k k' v d Hne. apply dict_get_set_other.
    now apply String.eqb_neq. }
  split; [|split; [|split; [|split; [|split]]]].
  - rewrite !Hother by reflexivity. apply dict_get_set_same.
  - rewrite !Hother by reflexivity. apply dict_get_set_same.
  - rewrite !Hother by reflexivity. apply dict_get_set_same.
  - rewrite !Hother by reflexivity. apply dict_get_set_same.
  - apply dict_get_set_same.
  - intros k Hk. unfold provenance_keys in Hk. simpl in Hk.
    rewrite !dict_get_set_other; trivial; intros <-; tauto.
Qed.

(** Lines 132-157.  Whatever the provenance table holds, the call creates
    the directory, logs and writes the result file first.  Its last effect is
    the metadata when exactly one record has the inventory and the year, and
    the error "no validation metadata found" otherwise: also when two records
    have them. *)
Theorem metadata_written_iff_unique
        v_table inventory_acronym year (validation_df : validation_frame F) :
  let directory := (local_path ++ "/validation/")%string in
  let effects :=
    write_validation_result local_path source_metadata v_table
                            inventory_acronym year validation_df in
  firstn 3 effects
  = [create_paths directory;
     log_info ("writing validation result to " ++ directory)%string;
     to_file (directory ++ inventory_acronym ++ "_" ++ year ++ ".csv")%string
             (validation_csv validation_df)]
  /\ ((exists file_name metadata datatype,
          skipn 3 effects = [write_metadata file_name metadata datatype])
      <-> List.length (filter (is_record_of inventory_acronym year) v_table)
          = 1)
  /\ (skipn 3 effects = [log_error "no validation metadata found"]
      <-> List.length (filter (is_record_of inventory_acronym year) v_table)
          <> 1).
Proof.
  intros directory effects. subst effects. unfold write_validation_result.
  destruct (filter (is_record_of inventory_acronym year) v_table)
    as [|r [|r' l]]; simpl.
  - split; [reflexivity|]. split; split; try discriminate; trivial.
    intros (f & m & dt & [=]).
  - split; [reflexivity|]. split; split; try discriminate; trivial.
    + eauto.
    + intro H. now elim H.
  - split; [reflexivity|]. split; split; try discriminate; trivial.
    intros (f & m & dt & [=]).
Qed.

End Metadata.

Lemma unique_provenance_metadata_witness :
  exists validation_metadata,
    write_validation_result "~/stewi" [("SourceType", "Static File")]
                            sample_sources "NEI" "2017" sample_result
    = [create_paths "~/stewi/validation/";
       log_info "writing validation result to ~/stewi/validation/";
       to_file "~/stewi/validation/NEI_2017.csv"
               (validation_csv sample_result);
       write_metadata "NEI_2017" validation_metadata "validation"]
    /\ dict_get "SourceFileName" validation_metadata
       = Some "national totals"
    /\ dict_get "SourceVersion" validation_metadata = Some "1"
    /\ dict_get "SourceURL" validation_metadata
       = Some "https://example.org/totals"
    /\ dict_get "SourceAcquisitionTime" validation_metadata
       = Some "01-Jan-2020"
    /\ dict_get "Criteria" validation_metadata = Some "all flows"
    /\ forall k, ~ In k provenance_keys ->
                 dict_get k validation_metadata
                 = dict_get k [("SourceType", "Static File")].
Proof.
  apply (@unique_provenance_metadata
           float "~/stewi" [("SourceType", "Static File")] sample_sources
           "NEI" "2017" sample_result (source "NEI" "2017")).
  reflexivity.
Defined.

(** ** Upsert *)

Lemma first_match_split A (p : A -> bool) l :
  (forall x, In x l -> p x = false)
  \/ exists pre r post,
      l = pre ++ r :: post /\ (forall x, In x pre -> p x = false)
      /\ p r = true.
Proof.
  induction l as [|a l IH].
  - left. intros x [].
  - destruct (p a) eqn:Ea.
    + right. exists [], a, l. repeat split; trivial. intros x [].
    + destruct IH as [Hnone|(pre & r & post & -> & Hpre & Hr)].
      * left. intros x [<-|Hin]; auto.
      * right. exists (a :: pre), r, post. repeat split; trivial.
        intros x [<-|Hin]; auto.
Qed.

Lemma last_match_split A (p : A -> bool) l :
  (forall x, In x l -> p x = false)
  \/ exists pre r post,
      l = pre ++ r :: post /\ (forall x, In x post -> p x = false)
      /\ p r = true.
Proof.
  induction l as [|a l IH].
  - left. intros x [].
  - destruct IH as [Hnone|(pre & r & post & -> & Hpost & Hr)].
    + destruct (p a) eqn:Ea.
      * right. exists [], a, l. repeat split; trivial.
      * left. intros x [<-|Hin]; auto.
    + right. exists (a :: pre), r, post. repeat split; trivial.
Qed.

Lemma filter_negb_filter A (p : A -> bool) l :
  filter p (filter (fun x => negb (p x)) l) = [].
Proof.
  induction l as [|a l IH]; simpl; trivial.
  destruct (p a) eqn:Ea; simpl; trivial. now rewrite Ea.
Qed.

Lemma filter_negb_idem A (p : A -> bool) l :
  filter (fun x => negb (p x)) (filter (fun x => negb (p x)) l)
  = filter (fun x => negb (p x)) l.
Proof.
  induction l as [|a l IH]; simpl; trivial.
  destruct (p a) eqn:Ea; simpl; trivial. rewrite Ea. simpl. now f_equal.
Qed.

Section UpsertMore.

Variable F : Type.
Variable data_dir : string.
Variable today : string.

Lemma stamped_idem d date_acquired :
  stamped today (stamped today d date_acquired) date_acquired
  = stamped today d date_acquired.
Proof. now destruct date_acquired. Qed.

Lemma Inventory_stamped d date_acquired :
  Inventory (stamped today d date_acquired) = Inventory d.
Proof. now destruct date_acquired. Qed.

Lemma is_existing_stamped d date_acquired :
  is_record_of (Inventory d) (Year d) (stamped today d date_acquired) = true.
Proof.
  unfold is_record_of. destruct date_acquired; simpl;
    now rewrite !String.eqb_refl.
Qed.

(** The record that has the inventory and the year of the dictionary is
    replaced where it stands. *)
Lemma upsert_replaces pre r post d date_acquired :
  let is_existing := is_record_of (Inventory d) (Year d) in
  (forall x, In x pre -> is_existing x = false) ->
  is_existing r = true ->
  update_validationsets_sources F data_dir today (pre ++ r :: post) d
                                date_acquired
  = persisted F data_dir
      (pre ++ stamped today d date_acquired
           :: filter (fun x => negb (is_existing x)) post).
Proof.
  intros is_existing Hpre Hr.
  set (d' := stamped today d date_acquired).
  assert (Hd' : is_record_of (Inventory d') (Year d') = is_existing)
    by apply is_record_of_stamped.
  assert (Hpre' : forall x, In x (with_index 0 pre) ->
                            is_existing (snd x) = false)
    by (intros x Hin; apply Hpre; eapply In_with_index; eauto).
  unfold update_validationsets_sources, persisted.
  fold (stamped today d date_acquired).
  fold d'. rewrite Hd'. rewrite with_index_app. simpl.
  rewrite !filter_app. simpl.
  rewrite (filter_none (fun x => is_existing (snd x)) _ Hpre').
  rewrite (filter_all (fun x => is_existing (snd x)) _ Hpre').
  rewrite Hr. simpl.
  rewrite (@sort_index_line 0).
  - rewrite map_app. simpl. rewrite map_snd_with_index.
    rewrite (map_snd_filter_with_index (fun x => negb (is_existing x))).
    reflexivity.
  - apply sorted_from_snoc.
    + apply (sorted_from_with_index 0).
    + unfold row_label, after_row; simpl; lia.
    + intros y Hin. apply with_index_label in Hin.
      unfold row_label, after_row in *. simpl in *. lia.
  - apply sorted_from_filter. simpl.
    eapply sorted_from_weaken; [|apply sorted_from_with_index].
    unfold row_label. lia.
Qed.

(** Without such a record, the dictionary is inserted after the last record
    of its inventory. *)
Lemma upsert_inserts pre r post d date_acquired :
  let is_existing := is_record_of (Inventory d) (Year d) in
  (forall x, In x (pre ++ r :: post) -> is_existing x = false) ->
  Inventory r = Inventory d ->
  (forall x, In x post -> Inventory x <> Inventory d) ->
  update_validationsets_sources F data_dir today (pre ++ r :: post) d
                                date_acquired
  = persisted F data_dir (pre ++ r :: stamped today d date_acquired :: post).
Proof.
  intros is_existing Hall Hinv Hlast.
  set (d' := stamped today d date_acquired).
  assert (Hd' : is_record_of (Inventory d') (Year d') = is_existing)
    by apply is_record_of_stamped.
  assert (Hall' : forall x, In x (with_index 0 (pre ++ r :: post)) ->
                            is_existing (snd x) = false)
    by (intros x Hin; apply Hall; eapply In_with_index; eauto).
  unfold update_validationsets_sources, persisted.
  fold (stamped today d date_acquired).
  fold d'. rewrite Hd'.
  rewrite (filter_none (fun x => is_existing (snd x)) _ Hall').
  replace (Inventory d') with (Inventory d)
    by (symmetry; apply Inventory_stamped).
  rewrite (@last_row_of_spec (Inventory d) 0 pre r post Hinv Hlast).
  rewrite with_index_app. simpl.
  change (with_index 0 pre
          ++ (row_label (List.length pre), r)
             :: with_index (S (List.length pre)) post)
    with (with_index 0 pre
          ++ [(row_label (List.length pre), r)]
          ++ with_index (S (List.length pre)) post).
  rewrite app_assoc.
  rewrite (@sort_index_line 0).
  - rewrite !map_app. simpl. rewrite !map_snd_with_index.
    rewrite <- app_assoc. reflexivity.
  - apply sorted_from_snoc.
    + apply sorted_from_snoc.
      * apply (sorted_from_with_index 0).
      * unfold row_label, after_row; simpl; lia.
      * intros y Hin. apply with_index_label in Hin.
        unfold row_label, after_row in *. simpl in *. lia.
    + unfold row_label, after_row; simpl; lia.
    + intros y Hin. apply in_app_iff in Hin as [Hin|[<-|[]]].
      * apply with_index_label in Hin.
        unfold row_label, after_row in *. simpl in *. lia.
      * unfold row_label, after_row. simpl. lia.
  - simpl. eapply sorted_from_weaken; [|apply sorted_from_with_index].
    unfold row_label, after_row. lia.
Qed.

(** The three ways a call ends. *)
Lemma upsert_cases v_table d date_acquired :
  let is_existing := is_record_of (Inventory d) (Year d) in
  let d' := stamped today d date_acquired in
  ((forall x, In x v_table -> Inventory x <> Inventory d)
   /\ update_validationsets_sources F data_dir today v_table d date_acquired
      = (inl (ValueError "max() arg is an empty sequence"), []))
  \/ exists before after,
      (forall x, In x before -> is_existing x = false)
      /\ (forall x, In x after -> is_existing x = false)
      /\ filter (fun x => negb (is_existing x)) v_table = before ++ after
      /\ (exists x, In x v_table /\ Inventory x = Inventory d)
      /\ update_validationsets_sources F data_dir today v_table d
                                       date_acquired
         = persisted F data_dir (before ++ d' :: after).
Proof.
  intros is_existing d'.
  destruct (first_match_split is_existing v_table)
    as [Hnone|(pre & r & post & -> & Hpre & Hr)].
  - destruct (last_match_split
                (fun x => String.eqb (Inventory x) (Inventory d)) v_table)
      as [Hno|(pre & r & post & -> & Hpost & Hr)].
    + left.
      assert (Hno' : forall x, In x v_table -> Inventory x <> Inventory d).
      { intros x Hin. apply String.eqb_neq. auto. }
      split; trivial. now apply upsert_new_inventory_raises.
    + right. apply String.eqb_eq in Hr.
      exists (pre ++ [r]), post. repeat split.
      * intros x Hin. apply Hnone. apply in_app_iff.
        apply in_app_iff in Hin as [Hin|[<-|[]]]; simpl; auto.
      * intros x Hin. apply Hnone. apply in_app_iff. simpl. auto.
      * rewrite (filter_all _ _ Hnone). now rewrite <- app_assoc.
      * exists r. split; trivial. apply in_app_iff. simpl. auto.
      * rewrite <- app_assoc. simpl. apply upsert_inserts; trivial.
        intros x Hin. apply String.eqb_neq. auto.
  - right. exists pre, (filter (fun x => negb (is_existing x)) post).
    repeat split; trivial.
    + intros x Hin. apply filter_In in Hin as [_ Hx].
      now apply negb_true_iff in Hx.
    + rewrite filter_app. simpl. rewrite Hr. simpl.
      now rewrite (filter_all _ _ Hpre).
    + exists r. split; [apply in_app_iff; simpl; auto|].
      unfold is_existing, is_record_of in Hr.
      apply andb_true_iff in Hr as [Hr _]. now apply String.eqb_eq.
    + now apply upsert_replaces.
Qed.

(** Lines 171-181.  The call raises the [ValueError] of [max] on an empty
    sequence, before it logs or writes, exactly when no record of the table
    has the dictionary's inventory: a first record of a new inventory cannot
    be added. *)
Theorem upsert_raises_iff v_table d date_acquired :
  update_validationsets_sources F data_dir today v_table d date_acquired
  = (inl (ValueError "max() arg is an empty sequence"), [])
  <-> forall x, In x v_table -> Inventory x <> Inventory d.
Proof.
  split.
  - intros Hraise.
    destruct (upsert_cases v_table d date_acquired)
      as [[Hno _]|(b & a & _ & _ & _ & _ & Hrun)]; trivial.
    rewrite Hrun in Hraise. discriminate.
  - apply upsert_new_inventory_raises.
Qed.

(** Lines 167-183.  The table a call writes holds exactly one record with
    the inventory and the year of the dictionary, the dictionary with its
    date, and the other records of the table it read, in their order. *)
Theorem upsert_keeps_other_records v_table d date_acquired v_table' effects :
  update_validationsets_sources F data_dir today v_table d date_acquired
  = (inr v_table', effects) ->
  let is_existing := is_record_of (Inventory d) (Year d) in
  filter is_existing v_table' = [stamped today d date_acquired]
  /\ filter (fun x => negb (is_existing x)) v_table'
     = filter (fun x => negb (is_existing x)) v_table.
Proof.
  intros Hrun is_existing.
  destruct (upsert_cases v_table d date_acquired)
    as [[_ Hraise]|(b & a & Hb & Ha & Hkept & _ & Hrun')].
  - rewrite Hraise in Hrun. discriminate.
  - rewrite Hrun' in Hrun. unfold persisted in Hrun.
    injection Hrun as <- _. fold is_existing in Hb, Ha, Hkept.
    pose proof (is_existing_stamped d date_acquired) as Hd.
    fold is_existing in Hd. rewrite Hkept.
    split.
    + rewrite filter_app. simpl. rewrite Hd.
      now rewrite (filter_none _ _ Hb), (filter_none _ _ Ha).
    + rewrite filter_app. simpl. rewrite Hd. simpl.
      now rewrite (filter_all _ _ Hb), (filter_all _ _ Ha).
Qed.

(** Lines 167-186.  A second call with the same dictionary, on the same
    day or with [date_acquired] set, on the table the first call wrote,
    writes that table again. *)
Theorem upsert_idempotent v_table d date_acquired v_table' effects :
  update_validationsets_sources F data_dir today v_table d date_acquired
  = (inr v_table', effects) ->
  update_validationsets_sources F data_dir today v_table' d date_acquired
  = (inr v_table', effects).
Proof.
  intro Hrun.
  destruct (upsert_cases v_table d date_acquired)
    as [[_ Hraise]|(b & a & Hb & Ha & _ & _ & Hrun')].
  - rewrite Hraise in Hrun. discriminate.
  - rewrite Hrun' in Hrun. unfold persisted in Hrun.
    injection Hrun as <- <-.
    rewrite upsert_replaces; trivial.
    + unfold persisted. now rewrite (filter_all _ _ Ha).
    + apply is_existing_stamped.
Qed.

End UpsertMore.

Lemma upsert_keeps_other_records_witness :
  let is_existing := is_record_of "NEI" "2018" in
  let v_table' :=
    [source "NEI" "2016"; source "NEI" "2017";
     set_Date_Acquired (source "NEI" "2018") "04-Nov-2026";
     source "TRI" "2016"] in
  filter is_existing v_table'
  = [set_Date_Acquired (source "NEI" "2018") "04-Nov-2026"]
  /\ filter (fun x => negb (is_existing x)) v_table'
     = filter (fun x => negb (is_existing x)) sample_sources.
Proof.
  apply (@upsert_keeps_other_records
           float "data/" "04-Nov-2026" sample_sources (source "NEI" "2018")
           false _
           [log_info "updating ValidationSets_Sources.csv with ";
            to_file "data/ValidationSets_Sources.csv"
                    (sources_csv
                       [source "NEI" "2016"; source "NEI" "2017";
                        set_Date_Acquired (source "NEI" "2018") "04-Nov-2026";
                        source "TRI" "2016"])]).
  reflexivity.
Defined.

Lemma upsert_idempotent_witness :
  update_validationsets_sources
    float "data/" "04-Nov-2026"
    [source "NEI" "2016"; source "NEI" "2017";
     set_Date_Acquired (source "NEI" "2018") "04-Nov-2026";
     source "TRI" "2016"]
    (source "NEI" "2018") false
  = persisted float "data/"
      [source "NEI" "2016"; source "NEI" "2017";
       set_Date_Acquired (source "NEI" "2018") "04-Nov-2026";
       source "TRI" "2016"].
Proof.
  apply (@upsert_idempotent
           float "data/" "04-Nov-2026" sample_sources (source "NEI" "2018")
           false).
  reflexivity.
Defined.

(** ** Failures, and the callers *)

Section Failure.

Context {F : Type} {N : Number F}.
Variable to_numeric : string -> option F.

Lemma parse_inventory_raises w e w1 :
  parse_FlowAmount to_numeric get_inventory set_inventory w = (inl e, w1) ->
  e = ValueError "Unable to parse string" /\ trace w1 = trace w.
Proof.
  unfold parse_FlowAmount, bind, get_inventory, set_inventory, ret, raise.
  destruct (inventory_df w) as [d|d]; simpl; [discriminate|].
  destruct (to_numeric_column _ _); simpl; [discriminate|].
  now intros [= <- <-].
Qed.

Lemma parse_reference_raises w e w1 :
  parse_FlowAmount to_numeric get_reference set_reference w = (inl e, w1) ->
  e = ValueError "Unable to parse string" /\ trace w1 = trace w.
Proof.
  unfold parse_FlowAmount, bind, get_reference, set_reference, ret, raise.
  destruct (reference_df w) as [d|d]; simpl; [discriminate|].
  destruct (to_numeric_column _ _); simpl; [discriminate|].
  now intros [= <- <-].
Qed.

Lemma after_parse_raises group_by filepath inventory reference w e w1 :
  after_parse group_by filepath inventory reference w = (inl e, w1) ->
  trace w1 = trace w
  /\ ((group_by_columns group_by inventory = None
       /\ e = UnboundLocalError "group_by_columns")
      \/ exists missing, e = KeyError missing).
Proof.
  unfold after_parse, bind, set_inventory, set_reference, select, ret, raise,
    emit.
  cbn [inventory_df reference_df trace].
  destruct (group_by_columns group_by inventory) as [cols|].
  - destruct (missing_columns cols (fillna inventory)) eqn:Ei.
    + destruct (missing_columns cols (fillna reference)) eqn:Er.
      * destruct (String.eqb filepath ""); discriminate.
      * intros [= <- <-]. simpl. eauto.
    + intros [= <- <-]. simpl. eauto.
  - intros [= <- <-]. simpl. auto.
Qed.

Lemma joined_table_raises group_by filepath w e w1 :
  joined_table to_numeric group_by filepath w = (inl e, w1) ->
  trace w1 = trace w /\ e <> length_error.
Proof.
  rewrite joined_table_after_parse. unfold bind at 1.
  destruct (parse_FlowAmount to_numeric get_inventory set_inventory w)
    as [[e0|inventory] wa] eqn:Ea.
  { intros [= <- <-]. apply parse_inventory_raises in Ea as [-> Ht].
    split; [trivial|discriminate]. }
  apply parse_inventory_returns in Ea as (_ & _ & Hta).
  unfold bind at 1.
  destruct (parse_FlowAmount to_numeric get_reference set_reference wa)
    as [[e0|reference] wb] eqn:Eb.
  { intros [= <- <-]. apply parse_reference_raises in Eb as [-> Ht].
    split; [congruence|discriminate]. }
  apply parse_reference_returns in Eb as (_ & _ & Htb).
  intro Hrun. apply after_parse_raises in Hrun as [Ht [[_ ->]|[m ->]]];
    (split; [congruence|discriminate]).
Qed.

Lemma classify_raises_only cols tolerance validation_df w e w' :
  classify cols tolerance validation_df w = (inl e, w') ->
  e = length_error /\ w' = w.
Proof.
  unfold classify, assign_columns, check_length, bind, ret, raise, emit.
  repeat match goal with
         | |- context [if ?c then _ else _] => destruct c
         end; intros [= <- <-]; auto.
Qed.

Lemma missing_verdict tolerance (l : list (joined F)) :
  List.length (flat_map (verdict_list tolerance) l) <> List.length l ->
  exists row, In row l /\ verdict tolerance row = None.
Proof.
  induction l as [|r l IH]; simpl; [congruence|].
  rewrite length_app. unfold verdict_list at 1.
  destruct (verdict tolerance r) eqn:Ev.
  - simpl. intro Hne. destruct IH as (row & Hin & Hrow); [lia|]. eauto.
  - eauto.
Qed.

Lemma classify_raises_row cols tolerance validation_df w e w' :
  classify cols tolerance validation_df w = (inl e, w') ->
  e = length_error /\ w' = w
  /\ exists row, In row validation_df /\ verdict tolerance row = None.
Proof.
  intro Hc. pose proof (classify_fst cols tolerance validation_df w) as Hf.
  rewrite Hc in Hf. cbn [fst] in Hf.
  apply classify_raises_only in Hc as [-> ->]. repeat split.
  apply missing_verdict. intro Hlen.
  rewrite (build_rows_complete _ _ Hlen) in Hf. discriminate.
Qed.

(** A call of [validate_inventory] fails in one of two ways.  Either lines
    30-51 raise (an unreadable string, an unknown [group_by], a missing
    column), and then nothing was logged or written; or some row of the
    joined table got no conclusion and line 109 raises, and then the
    reference sums were written to [filepath] before. *)
Theorem failed_validation_effects group_by tolerance filepath w e w' :
  validate_inventory to_numeric group_by tolerance filepath w = (inl e, w') ->
  (joined_table to_numeric group_by filepath w = (inl e, w')
   /\ e <> length_error /\ trace w' = trace w)
  \/ (e = length_error
      /\ exists cols validation_df row reference,
          joined_table to_numeric group_by filepath w
          = (inr (cols, validation_df), w')
          /\ In row validation_df /\ verdict tolerance row = None
          /\ reference_df w' = Float64 reference
          /\ trace w' = trace w ++ written cols reference filepath).
Proof.
  unfold validate_inventory, bind.
  destruct (joined_table to_numeric group_by filepath w)
    as [[e0|[cols validation_df]] w1] eqn:Ej.
  - intros [= <- <-]. left. apply joined_table_raises in Ej. tauto.
  - cbn [fst snd]. intro Hc.
    apply classify_raises_row in Hc as (-> & -> & row & Hin & Hrow).
    right. split; trivial.
    pose proof Ej as Hj. apply joined_table_returns in Hj
      as (inv0 & ref0 & _ & _ & _ & _ & _ & _ & _ & Hr & Ht).
    exists cols, validation_df, row, (fillna ref0). auto.
Qed.

Context (local_path : string) (source_metadata : list (string * string)).
Variable five : F.


End Failure.

(** ** The reliability scores of eGRID, and [filter_states] *)

Section ReliabilityScores.

Variable R : Type.
Variable score : Z -> R.

Lemma some_fuel_differs fuel :
  eGRID.ne fuel "PG" || eGRID.ne fuel "RC" || eGRID.ne fuel "WC"
  || eGRID.ne fuel "SLW" = true.
Proof.
  destruct fuel as [v|]; [|reflexivity]. unfold eGRID.ne.
  destruct (String.eqb_spec v "PG") as [->|_]; reflexivity.
Qed.

(** Lines 216-233 of [egrid.py].  The last assignment is guarded by a
    disjunction of four inequalities of the plant's primary fuel, and a fuel
    differs from 'PG' or from 'RC': every row of methane or nitrous oxide
    ends with the reliability 2, also for the fuels PG, RC, WC and SLW and
    for a missing fuel.  The score 3 of line 224 never survives. *)
Theorem methane_reliability_is_two (r : eGRID.flow_by_facility R) :
  eGRID.FlowName r = "Methane" \/ eGRID.FlowName r = "Nitrous oxide" ->
  eGRID.assign_reliability score r
  = eGRID.set_DataReliability r (Some (score 2)).
Proof.
  intro Hflow.
  assert (Hm : eGRID.is_CH4_or_N2O r = true).
  { unfold eGRID.is_CH4_or_N2O. destruct Hflow as [-> | ->]; reflexivity. }
  assert (He : (eGRID.FlowName r =? "Electricity")%string = false)
    by (destruct Hflow as [-> | ->]; reflexivity).
  unfold eGRID.assign_reliability, eGRID.loc_assign at 1 2 3.
  rewrite He.
  assert (Hfill : eGRID.is_CH4_or_N2O
                    (eGRID.fillna_DataReliability (score 5) r) = true).
  { unfold eGRID.fillna_DataReliability.
    destruct (eGRID.DataReliability r); trivial. }
  rewrite Hfill.
  unfold eGRID.is_CH4_or_N2O in *. cbn [eGRID.set_DataReliability
    eGRID.FlowName eGRID.Plant_primary_fuel].
  unfold eGRID.fillna_DataReliability in *.
  destruct (eGRID.DataReliability r);
    cbn [eGRID.set_DataReliability eGRID.FlowName eGRID.Plant_primary_fuel]
      in *;
    rewrite Hm, some_fuel_differs; reflexivity.
Qed.

End ReliabilityScores.

Lemma methane_reliability_is_two_witness :
  eGRID.assign_reliability
    (fun z => z)
    {| eGRID.FlowName := "Methane"; eGRID.Plant_primary_fuel := Some "PG";
       eGRID.DataReliability := None |}
  = {| eGRID.FlowName := "Methane"; eGRID.Plant_primary_fuel := Some "PG";
       eGRID.DataReliability := Some 2%Z |}.
Proof.
  apply (@methane_reliability_is_two
           Z (fun z => z)
           {| eGRID.FlowName := "Methane";
              eGRID.Plant_primary_fuel := Some "PG";
              eGRID.DataReliability := None |}).
  left. reflexivity.
Defined.

(** ** [filter_states] *)

Lemma filter_filter_implied A (p q : A -> bool) l :
  (forall x, p x = true -> q x = true) ->
  filter p (filter q l) = filter p l.
Proof.
  intro Himp. induction l as [|a l IH]; simpl; trivial.
  destruct (q a) eqn:Eq; simpl.
  - now rewrite IH.
  - destruct (p a) eqn:Ep; trivial.
    apply Himp in Ep. congruence.
Qed.

Lemma insert_key_below k l :
  Forall (key_lt k) l -> insert_key k l = k :: l.
Proof.
  destruct l as [|k' l]; simpl; trivial.
  intro Hall. apply Forall_inv in Hall. unfold key_lt in Hall.
  now rewrite Hall.
Qed.

Lemma insert_key_filter (q : key -> bool) k l :
  StronglySorted key_lt l ->
  filter q (insert_key k l)
  = if q k then insert_key k (filter q l) else filter q l.
Proof.
  induction 1 as [|k' l Hs IH Hall]; simpl.
  - now destruct (q k).
  - destruct (key_compare k k') eqn:E; simpl.
    + apply key_compare_eq in E. subst k'.
      destruct (q k); simpl; trivial. now rewrite key_compare_refl.
    + destruct (q k) eqn:Ek; trivial.
      symmetry. apply insert_key_below.
      assert (Hk : Forall (key_lt k) (k' :: l)).
      { constructor; [exact E|].
        eapply Forall_impl; [|exact Hall].
        intros c Hc. now apply key_lt_trans with k'. }
      apply Forall_forall. intros x Hin.
      rewrite Forall_forall in Hk. apply Hk.
      change (In x (filter q (k' :: l))) in Hin.
      now apply filter_In in Hin as [Hin _].
    + rewrite IH. destruct (q k), (q k'); simpl; trivial. now rewrite E.
Qed.

Lemma sorted_keys_filter (q : key -> bool) l :
  filter q (sorted_keys l) = sorted_keys (filter q l).
Proof.
  induction l as [|k l IH]; simpl; trivial.
  rewrite insert_key_filter by apply sorted_keys_sorted.
  rewrite IH. now destruct (q k).
Qed.

Lemma filter_map_fst A B (q : A -> bool) (f : A -> B) l :
  filter (fun p => q (fst p)) (map (fun k => (k, f k)) l)
  = map (fun k => (k, f k)) (filter q l).
Proof.
  induction l as [|a l IH]; simpl; trivial.
  destruct (q a); simpl; now rewrite IH.
Qed.

Section FilterStates.

Context {F : Type} {N : Number F}.

Lemma row_key_State (r : record F) :
  row_key ["State"] r
  = match State r with Some s => Some [s] | None => None end.
Proof. reflexivity. Qed.

Lemma present_keys_filter_states values (l : list (record F)) :
  present_keys ["State"] (filter (fun r => isin (State r) values) l)
  = filter (listed values) (present_keys ["State"] l).
Proof.
  induction l as [|r l IH]; trivial.
  cbn [filter present_keys]. rewrite row_key_State.
  destruct (State r) as [s|] eqn:Es; cbn [isin].
  - cbn [filter listed].
    destruct (existsb (String.eqb s) values) eqn:E.
    + cbn [present_keys]. rewrite row_key_State, Es. now rewrite IH.
    + exact IH.
  - exact IH.
Qed.

Lemma has_key_State_listed values k (r : record F) :
  listed values k = true -> has_key ["State"] k r = true ->
  isin (State r) values = true.
Proof.
  unfold has_key. rewrite row_key_State.
  destruct (State r) as [s|]; [|discriminate].
  intros Hl Hk. apply key_eqb_eq in Hk. subst k. exact Hl.
Qed.

Lemma isin_In (c : option string) values :
  isin c values = true <-> exists s, c = Some s /\ In s values.
Proof.
  destruct c as [s|]; simpl.
  - rewrite existsb_exists. split.
    + intros (x & Hin & Hx). apply String.eqb_eq in Hx. subst x. eauto.
    + intros (x & [= <-] & Hin). exists s. split; trivial.
      apply String.eqb_refl.
  - split; [discriminate|]. intros (s & Hs & _). discriminate.
Qed.

(** [filter_states] keeps the columns and exactly the rows whose state is in
    the list: a row without a state is dropped, whatever the list.  It
    commutes with the aggregation by state: the state totals of the filtered
    inventory are the state totals of the inventory, for the states of the
    list and for no other. *)
Theorem filter_states_keeps_state_totals
        states_df (inventory_df : DataFrame F)
        include_states include_dc include_territories output_inventory :
  filter_states states_df inventory_df include_states include_dc
                include_territories
  = inr output_inventory ->
  let values :=
    states_list states_df include_states include_dc include_territories in
  columns output_inventory = columns inventory_df
  /\ (forall r, In r (rows output_inventory)
                <-> In r (rows inventory_df)
                    /\ exists s, State r = Some s /\ In s values)
  /\ (forall r, State r = None -> ~ In r (rows output_inventory))
  /\ groupby_sum ["State"] (rows output_inventory)
     = filter (fun p => listed values (fst p))
              (groupby_sum ["State"] (rows inventory_df)).
Proof.
  intros Hrun values. revert Hrun. unfold filter_states. fold values.
  destruct (has_column inventory_df "State"); [|discriminate].
  intros [= <-]. cbn [rows columns].
  assert (Hrows : forall r,
             In r (filter (fun r => isin (State r) values)
                          (rows inventory_df))
             <-> In r (rows inventory_df)
                 /\ exists s, State r = Some s /\ In s values).
  { intro r. now rewrite filter_In, isin_In. }
  split; [reflexivity|]. split; [exact Hrows|]. split.
  - intros r Hnone Hin. apply Hrows in Hin as (_ & s & Hs & _). congruence.
  - unfold groupby_sum.
    rewrite filter_map_fst, sorted_keys_filter, present_keys_filter_states.
    apply map_ext_in. intros k Hk. f_equal.
    apply In_sorted_keys, filter_In in Hk as [_ Hk].
    unfold group_total. f_equal. f_equal.
    apply filter_filter_implied. intros r.
    now apply has_key_State_listed.
Qed.

End FilterStates.

(** ** The properties above, on the scenarios *)

Lemma both_zero_row_witness :
  nth_error (validation_rows result_4) 0
  = Some {| group := ["CO2"; "air"]; Inventory_Amount := 0%float;
            Reference_Amount := 0%float; Percent_Difference := 0%float;
            Conclusion := both_zero |}
  /\ error_count (loop 5%float joined_4)
     = error_count (loop 5%float (firstn 0 joined_4 ++ skipn 1 joined_4)).
Proof.
  apply (@both_zero_row
           float binary64 (@no_reader float) "flow" 5%float "" scenario_4
           ["FlowName"; "Compartment"] joined_4 scenario_4 result_4
           scenario_4 0
           {| on_key := ["CO2"; "air"]; FlowAmount_x := 0%float;
              FlowAmount_y := 0%float |});
    vm_compute; reflexivity.
Defined.

Lemma inventory_zero_row_counted_witness :
  nth_error (validation_rows missing_amount_result) 0
  = Some {| group := ["CO2"; "air"]; Inventory_Amount := 0%float;
            Reference_Amount := 1%float; Percent_Difference := 100%float;
            Conclusion := inventory_zero |}
  /\ error_count (loop 5%float missing_amount_joined)
     = S (error_count
            (loop 5%float
                  (firstn 0 missing_amount_joined
                   ++ skipn 1 missing_amount_joined))).
Proof.
  apply (@inventory_zero_row_counted
           float binary64 (@no_reader float) "flow" 5%float "" missing_amount
           ["FlowName"; "Compartment"] missing_amount_joined
           missing_amount_filled missing_amount_result missing_amount_after 0
           {| on_key := ["CO2"; "air"]; FlowAmount_x := 0%float;
              FlowAmount_y := 1%float |});
    vm_compute; reflexivity.
Defined.

Lemma missing_conclusion_raises_witness :
  validate_inventory (@no_reader float) "flow" 5%float ""
                     negative_infinite_reference
  = (inl length_error, negative_infinite_reference).
Proof.
  apply (@missing_conclusion_raises
           float binary64 (@no_reader float) "flow" 5%float ""
           negative_infinite_reference ["FlowName"; "Compartment"]
           joined_negative_infinite negative_infinite_reference
           {| on_key := ["CO2"; "air"]; FlowAmount_x := 1%float;
              FlowAmount_y := neg_infinity |});
    try (vm_compute; reflexivity).
  left. reflexivity.
Defined.

Lemma validate_inventory_effects_witness :
  trace (snd (validate_inventory (@no_reader float) "flow" 5%float
                                 "sums.csv" scenario_3))
  = trace scenario_3
    ++ written ["FlowName"; "Compartment"] (flows [flow "CO2" 100%float])
               "sums.csv"
    ++ warnings float (error_count (loop 5%float joined_3)).
Proof.
  apply (@validate_inventory_effects
           float binary64 (@no_reader float) "flow" 5%float "sums.csv"
           scenario_3 ["FlowName"; "Compartment"] joined_3
           (snd (joined_table (@no_reader float) "flow" "sums.csv"
                              scenario_3))
           result_3);
    vm_compute; reflexivity.
Defined.

Lemma result_shape_witness :
  let out := result_three_flows in
  let inventory_keys := [["CO2"; "air"]; ["SO2"; "air"]] in
  let reference_keys := [["NOx"; "air"]] in
  key_columns out = ["FlowName"; "Compartment"]
  /\ map (@group float) (validation_rows out)
     = map (@on_key float) joined_three_flows
  /\ map (@Inventory_Amount float) (validation_rows out)
     = map (@FlowAmount_x float) joined_three_flows
  /\ map (@group float) (validation_rows out)
     = inventory_keys
       ++ filter (fun k => negb (existsb (key_eqb k) inventory_keys))
                 reference_keys
  /\ NoDup (map (@group float) (validation_rows out)).
Proof.
  apply (@result_shape
           float binary64 (@no_reader float) "flow" 5%float "" three_flows
           ["FlowName"; "Compartment"] joined_three_flows three_flows
           result_three_flows three_flows_after
           (flows [flow "SO2" 1%float; flow "CO2" 2%float])
           (flows [flow "NOx" 3%float]));
    vm_compute; reflexivity.
Defined.

Lemma missing_column_raises_witness :
  fst (validate_inventory (@no_reader float) "flow" 5%float ""
                          no_compartment_in_reference)
  = inl (KeyError ["Compartment"]).
Proof.
  apply (@missing_column_raises
           float binary64 (@no_reader float) "flow" 5%float ""
           no_compartment_in_reference (flows [flow "CO2" 1%float])
           totals_without_compartment ["FlowName"; "Compartment"]);
    try reflexivity.
  discriminate.
Defined.

Lemma unreadable_inventory_raises_witness :
  validate_inventory decimal_reader "flow" 5%float "" unreadable_inventory
  = (inl (ValueError "Unable to parse string"),
     {| inventory_df := Object (flows [flow "CO2" (Some "10x0")]);
        reference_df := Float64 (flows [flow "CO2" 1000%float]);
        trace := [] |}).
Proof.
  apply (@unreadable_inventory_raises
           float binary64 decimal_reader "flow" 5%float ""
           unreadable_inventory unreadable);
    reflexivity.
Defined.

Lemma unreadable_reference_raises_witness :
  validate_inventory decimal_reader "flow" 5%float "" unreadable_reference
  = (inl (ValueError "Unable to parse string"),
     {| inventory_df := Float64 (flows [flow "CO2" 1000%float]);
        reference_df := Object (flows [flow "CO2" (Some "10x0")]);
        trace := [] |}).
Proof.
  apply (@unreadable_reference_raises
           float binary64 decimal_reader "flow" 5%float ""
           unreadable_reference (flows [flow "CO2" 1000%float]) unreadable);
    vm_compute; reflexivity.
Defined.

Lemma validate_inventory_parsed_witness :
  validate_inventory decimal_reader "flow" 5%float "" scenario_6
  = validate_inventory decimal_reader "flow" 5%float ""
      (parsed_world (flows [flow "CO2" 1000%float])
                    (flows [flow "CO2" 1000%float]) []).
Proof.
  apply (@validate_inventory_parsed
           float binary64 decimal_reader "flow" 5%float "" scenario_6
           (flows [flow "CO2" 1000%float]) (flows [flow "CO2" 1000%float]));
    vm_compute; reflexivity.
Defined.

Lemma failed_validation_effects_witness :
  let w' :=
    snd (joined_table (@no_reader float) "flow" "sums.csv"
                      negative_infinite_reference) in
  (joined_table (@no_reader float) "flow" "sums.csv"
                negative_infinite_reference
   = (inl length_error, w')
   /\ length_error <> length_error
   /\ trace w' = trace negative_infinite_reference)
  \/ (length_error = length_error
      /\ exists cols validation_df row reference,
          joined_table (@no_reader float) "flow" "sums.csv"
                       negative_infinite_reference
          = (inr (cols, validation_df), w')
          /\ In row validation_df /\ verdict 5%float row = None
          /\ reference_df w' = Float64 reference
          /\ trace w'
             = trace negative_infinite_reference
               ++ written cols reference "sums.csv").
Proof.
  apply (@failed_validation_effects
           float binary64 (@no_reader float) "flow" 5%float "sums.csv"
           negative_infinite_reference).
  vm_compute. reflexivity.
Defined.

Lemma filter_states_keeps_state_totals_witness :
  let output_inventory :=
    {| columns := ["FlowName"; "State"];
       rows := [by_state (Some "OH") 2%float; by_state (Some "OH") 8%float;
                by_state (Some "DC") 16%float] |} in
  let values := states_list sample_state_codes true true false in
  columns output_inventory = columns state_inventory
  /\ (forall r, In r (rows output_inventory)
                <-> In r (rows state_inventory)
                    /\ exists s, State r = Some s /\ In s values)
  /\ (forall r, State r = None -> ~ In r (rows output_inventory))
  /\ groupby_sum ["State"] (rows output_inventory)
     = filter (fun p => listed values (fst p))
              (groupby_sum ["State"] (rows state_inventory)).
Proof.
  apply (@filter_states_keeps_state_totals
           float binary64 sample_state_codes state_inventory true true
           false).
  reflexivity.
Defined.

Lemma upsert_raises_iff_witness :
  update_validationsets_sources
    float "data/" "04-Nov-2026" sample_sources (source "eGRID" "2018") false
  = (inl (ValueError "max() arg is an empty sequence"), []).
Proof.
  apply (proj2 (@upsert_raises_iff
                  float "data/" "04-Nov-2026" sample_sources
                  (source "eGRID" "2018") false)).
  simpl. intros x [<-|[<-|[<-|[]]]]; discriminate.
Defined.

Lemma error_count_is_flagged_rows_witness :
  error_count (loop 5%float joined_three_flows)
  = List.length
      (filter (@flagged float) (validation_rows result_three_flows)).
Proof.
  apply (@error_count_is_flagged_rows
           float binary64 (@no_reader float) "flow" 5%float "" three_flows
           ["FlowName"; "Compartment"] joined_three_flows three_flows
           result_three_flows three_flows_after);
    vm_compute; reflexivity.
Defined.
